(** * AMQP link management and device-twin protocol core

    A shallow embedding of the event-driven state machines of the AMQP
    transport: [SenderLink] (sender_link.ts), [AmqpReceiverLinkFsm]
    (amqp_receiver_link_fsm.ts), [ClaimsBasedSecurityAgent] (amqp_cbs.ts) and
    [AmqpTwinReceiver] (the device-twin client).

    Conventions of the embedding.
    - A JavaScript function body is a computation in the monad [M S]: it
      threads the object's fields and either completes normally or throws.
      Mutations made before a [throw] stay in the state, as they do in
      JavaScript.
    - User supplied functions (callbacks) are opaque: they are identified by
      a tag and calling one appends an entry to the [trace] of the object.
      A callback is taken not to call back into the object while it runs.
    - Promises and [process.nextTick] are modelled by explicit tables of
      unsettled operations; settling one is an [Event] of the surroundings.
    - The state machines are driven by the machina library: [handle]
      dispatches an input to the handler of the current state,
      [transition] runs [_onExit], switches state, runs [_onEnter] and then
      replays the inputs deferred until the new state.  machina ignores
      inputs and transitions once an [_onExit] handler has thrown; the
      receiver link, where that happens, carries the flag, and for the
      sender link and the twin client it is shown below that [_onExit]
      never throws.
    - An ['error'] event that is emitted is taken to find a listener. *)

From Stdlib Require Import List String Ascii ZArith Lia Bool Arith PeanoNat.
From Stdlib Require Import DecimalString Sorted.
Import ListNotations.
Local Open Scope string_scope.

(** ** JavaScript completion monad *)

Module Js.

Inductive ErrorKind :=
  | Error | TypeError | ReferenceError | ArgumentError
  | TimeoutError | UnauthorizedError | NotConnectedError.

Record JsError := mkError { kind : ErrorKind; message : string }.

Inductive Completion (A : Type) :=
  | Normal (a : A)
  | Thrown (e : JsError).
Arguments Normal {A} a.
Arguments Thrown {A} e.

Definition M (S A : Type) : Type := S -> Completion A * S.

Definition ret {S A} (a : A) : M S A := fun s => (Normal a, s).

Definition bind {S A B} (c : M S A) (k : A -> M S B) : M S B :=
    fun s =>
      match c s with
      | (Normal a, s') => k a s'
      | (Thrown e, s') => (Thrown e, s')
      end.

Definition throw {S A} (e : JsError) : M S A := fun s => (Thrown e, s).

Definition get {S} : M S S := fun s => (Normal s, s).

Definition modify {S} (f : S -> S) : M S unit := fun s => (Normal tt, f s).

(** [try { c } catch (e) { h e }] *)
Definition try_catch {S A} (c : M S A) (h : JsError -> M S A) : M S A :=
    fun s =>
      match c s with
      | (Normal a, s') => (Normal a, s')
      | (Thrown e, s') => h e s'
      end.

(** [for (const x of xs) body(x)] over a snapshot [xs]. *)
Fixpoint for_each {S A} (body : A -> M S unit) (xs : list A) : M S unit :=
    match xs with
    | [] => ret tt
    | x :: rest => bind (body x) (fun _ => for_each body rest)
    end.

Fixpoint repeat_n {S} (n : nat) (body : M S unit) : M S unit :=
    match n with
    | O => ret tt
    | S k => bind body (fun _ => repeat_n k body)
    end.

Definition exec {S A} (c : M S A) (s : S) : S := snd (c s).

Definition completes {S A} (c : M S A) (s : S) : bool :=
    match fst (c s) with Normal _ => true | Thrown _ => false end.

(** Reading a property of, or calling a method on, [null]/[undefined]. *)
Definition cannot_read (prop : string) : JsError :=
    mkError TypeError ("Cannot read property '" ++ prop ++ "' of null").

Definition not_a_function (what : string) : JsError :=
    mkError TypeError (what ++ " is not a function").

(** Remove the [k]-th element of a table of unsettled operations. *)
Fixpoint remove_nth {A} (k : nat) (l : list A) : list A :=
    match l, k with
    | [], _ => []
    | _ :: rest, O => rest
    | x :: rest, S k' => x :: remove_nth k' rest
    end.

(** [emitter.removeListener(name, f)] takes away one registration of [f],
      the one added last. *)
Fixpoint remove_first_occ (x : nat) (l : list nat) : list nat :=
    match l with
    | [] => []
    | y :: rest => if Nat.eqb x y then rest else y :: remove_first_occ x rest
    end.

Definition remove_listener (x : nat) (l : list nat) : list nat :=
    rev (remove_first_occ x (rev l)).

End Js.

Import Js.

Declare Scope js_scope.
Delimit Scope js_scope with js.
Notation "x <- c ;; k" := (bind c (fun x => k))
  (at level 61, c at next level, right associativity) : js_scope.
Notation "c ;; k" := (bind c (fun _ => k))
  (at level 61, right associativity) : js_scope.
Local Open Scope js_scope.

(** Identity of a user supplied function, of an AMQP message and of a link
    object handed out by the amqp10 client. *)
Definition Callback := nat.
Definition Message := nat.
Definition LinkObject := nat.
(** The delivery state an amqp10 link resolves a send with. *)
Definition Disposition := nat.

Inductive FsmState := detached | attaching | attached | detaching.

Definition FsmState_eqb (a b : FsmState) : bool :=
  match a, b with
  | detached, detached | attaching, attaching
  | attached, attached | detaching, detaching => true
  | _, _ => false
  end.

(** ** SenderLink (sender_link.ts) *)

Module SenderLink.

(** Inputs of the state machine, with the arguments of [_fsm.handle]. *)
Inductive Input :=
  | attach (callback : option Callback)
  | detach
  | send (message : Message) (callback : option Callback).

(** An entry of [_messageQueue]. *)
Record QueueItem := mkItem { message : Message; callback : option Callback }.

(** What the link does to its surroundings. *)
Inductive Effect :=
  | CreateSender                       (* _amqp10Client.createSender(address, options) *)
  | LinkSend (l : LinkObject) (m : Message)   (* _linkObject.send(message) *)
  | ForceDetach (l : LinkObject)              (* _linkObject.forceDetach() *)
  | AttachCallback (cb : Callback) (err : option JsError)
  | SendCallback (cb : Callback) (err : option JsError) (result : option Disposition)
  | EmitError (e : JsError).

Record t := mk {
    state : FsmState;
    (* machina's queue of deferred inputs, each with the state it waits for *)
    inputQueue : list (FsmState * Input);
    linkObject : option LinkObject;
    messageQueue : list QueueItem;
    attachError : option JsError;
    attachCallback : option Callback;
    (* link objects on which _detachHandler / _errorHandler are registered *)
    detachedListeners : list LinkObject;
    errorListeners : list LinkObject;
    (* unsettled createSender promises, each with the connectionError its
       clientErrorHandler has captured so far *)
    pendingCreate : list (option JsError);
    (* unsettled _linkObject.send promises, each with the callback to report to *)
    inflight : list (option Callback);
    (* functions scheduled with process.nextTick *)
    nextTick : list (Callback * option JsError * option Disposition);
    trace : list Effect
  }.

(** The constructor: [_messageQueue = []], machine in ['detached']. *)
Definition init : t :=
    mk detached [] None [] None None [] [] [] [] [] [].

Definition set_state v (s : t) :=
    mk v (inputQueue s) (linkObject s) (messageQueue s) (attachError s) (attachCallback s)
       (detachedListeners s) (errorListeners s) (pendingCreate s) (inflight s) (nextTick s) (trace s).
Definition set_inputQueue v (s : t) :=
    mk (state s) v (linkObject s) (messageQueue s) (attachError s) (attachCallback s)
       (detachedListeners s) (errorListeners s) (pendingCreate s) (inflight s) (nextTick s) (trace s).
Definition set_linkObject v (s : t) :=
    mk (state s) (inputQueue s) v (messageQueue s) (attachError s) (attachCallback s)
       (detachedListeners s) (errorListeners s) (pendingCreate s) (inflight s) (nextTick s) (trace s).
Definition set_messageQueue v (s : t) :=
    mk (state s) (inputQueue s) (linkObject s) v (attachError s) (attachCallback s)
       (detachedListeners s) (errorListeners s) (pendingCreate s) (inflight s) (nextTick s) (trace s).
Definition set_attachError v (s : t) :=
    mk (state s) (inputQueue s) (linkObject s) (messageQueue s) v (attachCallback s)
       (detachedListeners s) (errorListeners s) (pendingCreate s) (inflight s) (nextTick s) (trace s).
Definition set_attachCallback v (s : t) :=
    mk (state s) (inputQueue s) (linkObject s) (messageQueue s) (attachError s) v
       (detachedListeners s) (errorListeners s) (pendingCreate s) (inflight s) (nextTick s) (trace s).
Definition set_detachedListeners v (s : t) :=
    mk (state s) (inputQueue s) (linkObject s) (messageQueue s) (attachError s) (attachCallback s)
       v (errorListeners s) (pendingCreate s) (inflight s) (nextTick s) (trace s).
Definition set_errorListeners v (s : t) :=
    mk (state s) (inputQueue s) (linkObject s) (messageQueue s) (attachError s) (attachCallback s)
       (detachedListeners s) v (pendingCreate s) (inflight s) (nextTick s) (trace s).
Definition set_pendingCreate v (s : t) :=
    mk (state s) (inputQueue s) (linkObject s) (messageQueue s) (attachError s) (attachCallback s)
       (detachedListeners s) (errorListeners s) v (inflight s) (nextTick s) (trace s).
Definition set_inflight v (s : t) :=
    mk (state s) (inputQueue s) (linkObject s) (messageQueue s) (attachError s) (attachCallback s)
       (detachedListeners s) (errorListeners s) (pendingCreate s) v (nextTick s) (trace s).
Definition set_nextTick v (s : t) :=
    mk (state s) (inputQueue s) (linkObject s) (messageQueue s) (attachError s) (attachCallback s)
       (detachedListeners s) (errorListeners s) (pendingCreate s) (inflight s) v (trace s).
Definition set_trace v (s : t) :=
    mk (state s) (inputQueue s) (linkObject s) (messageQueue s) (attachError s) (attachCallback s)
       (detachedListeners s) (errorListeners s) (pendingCreate s) (inflight s) (nextTick s) v.

Definition emit (e : Effect) : M t unit :=
    modify (fun s => set_trace (trace s ++ [e]) s).

(** [new Error('Link Detached')] *)
Definition link_detached_error : JsError := mkError Error "Link Detached".

(** [pushToQueue(message, callback)] *)
Definition pushToQueue (m : Message) (cb : option Callback) : M t unit :=
    modify (fun s => set_messageQueue (messageQueue s ++ [mkItem m cb]) s).

(** [toSend.callback(messageCallbackError)] *)
Definition call_send_callback (cb : option Callback) (err : option JsError)
             (result : option Disposition) : M t unit :=
    match cb with
    | Some c => emit (SendCallback c err result)
    | None => throw (not_a_function "toSend.callback")
    end.

(** The [shift]/[while (toSend)] loop of [detached._onEnter]: each item is
      taken off the head of [_messageQueue] and then its callback is called. *)
Fixpoint fail_queue (err : JsError) (q : list QueueItem) : M t unit :=
    match q with
    | [] => ret tt
    | toSend :: rest =>
        modify (set_messageQueue rest) ;;
        call_send_callback (callback toSend) (Some err) None ;;
        fail_queue err rest
    end.

(** [detached._onEnter] *)
Definition detached_onEnter : M t unit :=
    s <- get ;;
    match messageQueue s with
    | [] => ret tt
    | q =>
        let messageCallbackError :=
          match attachError s with
          | Some e => e
          | None => link_detached_error
          end in
        fail_queue messageCallbackError q
    end.

(** [_attachLink]: registers a clientErrorHandler and asks the client for
      a sender; the promise is settled later by the surroundings. *)
Definition attachLink : M t unit :=
    emit CreateSender ;;
    modify (fun s => set_pendingCreate (pendingCreate s ++ [None]) s).

(** [_detachLink] *)
Definition detachLink : M t unit :=
    s <- get ;;
    match linkObject s with
    | None => throw (cannot_read "forceDetach")
    | Some l =>
        emit (ForceDetach l) ;;
        modify (set_linkObject None)
    end.

(** [_safeCallback] of [attached.send], run when the send promise settles. *)
Definition safeCallback (cb : option Callback) (err : option JsError)
             (result : option Disposition) : M t unit :=
    match cb with
    | Some c => modify (fun s => set_nextTick (nextTick s ++ [(c, err, result)]) s)
    | None => ret tt
    end.

(** [attached.send] *)
Definition attached_send (m : Message) (cb : option Callback) : M t unit :=
    s <- get ;;
    match linkObject s with
    | None => throw (cannot_read "send")
    | Some l =>
        emit (LinkSend l m) ;;
        modify (fun s => set_inflight (inflight s ++ [cb]) s)
    end.

(** [attached._onEnter]: the machine is in ['attached'] during the whole
      loop, so each [_fsm.handle('send', ...)] runs [attached.send]. *)
Fixpoint drain_queue (q : list QueueItem) : M t unit :=
    match q with
    | [] => ret tt
    | toSend :: rest =>
        modify (set_messageQueue rest) ;;
        attached_send (message toSend) (callback toSend) ;;
        drain_queue rest
    end.

Definition attached_onEnter : M t unit :=
    s <- get ;; drain_queue (messageQueue s).

(** [attached._onExit] *)
Definition attached_onExit : M t unit :=
    s <- get ;;
    match linkObject s with
    | None => throw (cannot_read "removeListener")
    | Some l =>
        modify (fun s => set_detachedListeners
                           (remove_listener l (detachedListeners s)) s)
    end.

(** machina's [transition] up to and including [_onEnter]. *)
Definition transition_core (newState : FsmState) : M t unit :=
    s <- get ;;
    if FsmState_eqb (state s) newState then ret tt
    else
      (match state s with
       | attached => attached_onExit
       | _ => ret tt
       end) ;;
      modify (set_state newState) ;;
      match newState with
      | detached => detached_onEnter
      | attaching => attachLink
      | attached => attached_onEnter
      | detaching => ret tt
      end.

(** [deferUntilTransition(untilState)] for the input being handled. *)
Definition deferUntilTransition (untilState : FsmState) (i : Input) : M t unit :=
    modify (fun s => set_inputQueue (inputQueue s ++ [(untilState, i)]) s).

(** The handler table, over the [transition] function its handlers use. *)
Definition handle_with (transition : FsmState -> M t unit) (i : Input) : M t unit :=
    s <- get ;;
    match state s, i with
    | detached, attach cb =>
        modify (set_attachCallback cb) ;;
        transition attaching
    | detached, detach => ret tt
    | detached, send m cb =>
        pushToQueue m cb ;;
        (* this._fsm.handle('attach') *)
        modify (set_attachCallback None) ;;
        transition attaching
    | attaching, attach _ => ret tt      (* no handler: machina ignores the input *)
    | attaching, detach =>
        transition detaching ;;
        detachLink ;;
        transition detached
    | attaching, send m cb => pushToQueue m cb
    | attached, attach cb =>
        match cb with
        | Some c => emit (AttachCallback c None)
        | None => throw (not_a_function "callback")
        end
    | attached, detach =>
        transition detaching ;;
        detachLink ;;
        transition detached
    | attached, send m cb => attached_send m cb
    | detaching, _ => deferUntilTransition detached i
    end.

(** machina's [processQueue]: the inputs deferred until the current state
      are taken out of the queue and handled in order. *)
Definition processQueue (handle : Input -> M t unit) : M t unit :=
    s <- get ;;
    let ready := filter (fun p => FsmState_eqb (fst p) (state s)) (inputQueue s) in
    let rest := filter (fun p => negb (FsmState_eqb (fst p) (state s))) (inputQueue s) in
    modify (set_inputQueue rest) ;;
    for_each (fun p => handle (snd p)) ready.

(** machina's [transition].  Inputs are only ever deferred until
      ['detached'], and a replayed handler only moves to ['attaching'] or
      ['detaching'], so a transition nested in a replay has nothing to
      replay itself: replayed handlers run over [transition_core]. *)
Definition transition (newState : FsmState) : M t unit :=
    s <- get ;;
    if FsmState_eqb (state s) newState then ret tt
    else
      transition_core newState ;;
      processQueue (handle_with transition_core).

Definition handle : Input -> M t unit := handle_with transition.

(** The continuation [_attachLink] is given by [attaching._onEnter]. *)
Definition attach_completion (err : option JsError) : M t unit :=
    let newState := match err with Some _ => detached | None => attached end in
    modify (set_attachError err) ;;
    transition newState ;;
    s <- get ;;
    match attachCallback s with
    | Some cb =>
        modify (set_attachCallback None) ;;
        emit (AttachCallback cb err)
    | None => ret tt
    end.

(** [_detachHandler] *)
Definition detachHandler : M t unit :=
    transition detaching ;;
    modify (set_linkObject None) ;;
    transition detached.

(** The [then] continuation of [createSender] for a promise whose
      clientErrorHandler captured [connectionError]; an exception escaping
      it reaches the [catch] continuation chained behind it. *)
Definition createSender_then (connectionError : option JsError)
             (amqp10link : LinkObject) : M t unit :=
    try_catch
      ((match connectionError with
        | None =>
            modify (set_linkObject (Some amqp10link)) ;;
            modify (fun s => set_detachedListeners (detachedListeners s ++ [amqp10link]) s) ;;
            modify (fun s => set_errorListeners (errorListeners s ++ [amqp10link]) s)
        | Some _ => ret tt
        end) ;;
       attach_completion connectionError)
      (fun err => attach_completion (Some err)).

(** Public methods. *)
Definition attach_method (cb : option Callback) : M t unit := handle (attach cb).
Definition detach_method : M t unit := handle detach.
Definition send_method (m : Message) (cb : option Callback) : M t unit :=
    handle (send m cb).

(** Everything that can happen to a SenderLink. *)
Inductive Event :=
  | call_attach (cb : option Callback)
  | call_detach
  | call_send (m : Message) (cb : option Callback)
  | createSender_resolved (k : nat) (amqp10link : LinkObject)
  | createSender_rejected (k : nat) (err : JsError)
  | client_errorReceived (err : JsError)
  | link_detached (l : LinkObject)
  | link_errorReceived (l : LinkObject) (err : JsError)
  | send_fulfilled (k : nat) (d : Disposition)
  | send_rejected (k : nat) (err : JsError)
  | tick.

Definition is_public (e : Event) : bool :=
    match e with
    | call_attach _ | call_detach | call_send _ _ => true
    | _ => false
    end.

Definition step (e : Event) : M t unit :=
    match e with
    | call_attach cb => attach_method cb
    | call_detach => detach_method
    | call_send m cb => send_method m cb
    | createSender_resolved k l =>
        s <- get ;;
        match nth_error (pendingCreate s) k with
        | Some connectionError =>
            modify (set_pendingCreate (remove_nth k (pendingCreate s))) ;;
            createSender_then connectionError l
        | None => ret tt
        end
    | createSender_rejected k err =>
        s <- get ;;
        match nth_error (pendingCreate s) k with
        | Some _ =>
            modify (set_pendingCreate (remove_nth k (pendingCreate s))) ;;
            attach_completion (Some err)
        | None => ret tt
        end
    | client_errorReceived err =>
        modify (fun s => set_pendingCreate (map (fun _ => Some err) (pendingCreate s)) s)
    | link_detached l =>
        s <- get ;;
        repeat_n (count_occ Nat.eq_dec (detachedListeners s) l) detachHandler
    | link_errorReceived l err =>
        s <- get ;;
        repeat_n (count_occ Nat.eq_dec (errorListeners s) l) (emit (EmitError err))
    | send_fulfilled k d =>
        s <- get ;;
        match nth_error (inflight s) k with
        | Some cb =>
            modify (set_inflight (remove_nth k (inflight s))) ;;
            safeCallback cb None (Some d)
        | None => ret tt
        end
    | send_rejected k err =>
        s <- get ;;
        match nth_error (inflight s) k with
        | Some cb =>
            modify (set_inflight (remove_nth k (inflight s))) ;;
            safeCallback cb (Some err) None
        | None => ret tt
        end
    | tick =>
        s <- get ;;
        match nextTick s with
        | (cb, err, result) :: rest =>
            modify (set_nextTick rest) ;;
            emit (SendCallback cb err result)
        | [] => ret tt
        end
    end.

(** A run of events; an exception reaches the caller of the event and
      the object lives on in the state the exception left it in. *)
Definition run (es : list Event) (s : t) : t :=
    fold_left (fun s e => exec (step e) s) es s.

(** The send callbacks called so far, in order. *)
Definition send_callbacks_called (tr : list Effect) : list Callback :=
    flat_map (fun e => match e with SendCallback cb _ _ => [cb] | _ => [] end) tr.

Definition is_callback (e : Effect) : bool :=
    match e with
    | AttachCallback _ _ | SendCallback _ _ _ => true
    | _ => false
    end.

(** The effects an operation adds to the trace. *)
Definition effects_of (c : M t unit) (s : t) : list Effect :=
    skipn (List.length (trace s)) (trace (exec c s)).

End SenderLink.

(** ** AmqpReceiverLinkFsm (amqp_receiver_link_fsm.ts) *)

Module ReceiverLink.

(** The function given to [attach]: a caller's callback, or the closure of
      the ['newListener'] hook, which re-emits an attach error. *)
Inductive AttachFn :=
  | user_callback (cb : Callback)
  | emit_error_if_err.

Inductive Input :=
  | attach (callback : option AttachFn)
  | detach (callback : option Callback)
  | accept (message : Message) (callback : option Callback)
  | reject (message : Message) (callback : option Callback)
  | abandon (message : Message) (callback : option Callback).

Inductive Settled := MessageCompleted | MessageRejected | MessageAbandoned.

Inductive Effect :=
  | CreateReceiver
  | ForceDetach (l : LinkObject)
  | LinkAccept (l : LinkObject) (m : Message)
  | LinkReject (l : LinkObject) (m : Message)
  | LinkAbandon (l : LinkObject) (m : Message)
  | AttachCallback (cb : Callback) (err : option JsError)
  | DetachCallback (cb : Callback)
  | SettleCallback (cb : Callback) (result : Settled)
  | EmitError (e : JsError)
  | EmitErrorReceived (e : JsError)
  | EmitMessage (m : Message).

Record t := mk {
    state : FsmState;
    inputQueue : list (FsmState * Input);
    linkObject : option LinkObject;
    attachCallback : option AttachFn;
    (* link objects carrying _detachHandler, _messageHandler, _errorHandler *)
    listeners : list LinkObject;
    (* number of subscribers to this object's 'message' event *)
    messageListeners : nat;
    pendingCreate : list (option JsError);
    (* attach continuations scheduled with process.nextTick by _safeCallback *)
    nextTick : list (option JsError);
    trace : list Effect;
    (* machina's flag: set while an _onExit handler runs, and left set when
       the handler throws; the machine ignores inputs and transitions then *)
    inExitHandler : bool
  }.

Definition init : t := mk detached [] None None [] 0 [] [] [] false.

Definition set_state v (s : t) :=
    mk v (inputQueue s) (linkObject s) (attachCallback s) (listeners s)
       (messageListeners s) (pendingCreate s) (nextTick s) (trace s) (inExitHandler s).
Definition set_inputQueue v (s : t) :=
    mk (state s) v (linkObject s) (attachCallback s) (listeners s)
       (messageListeners s) (pendingCreate s) (nextTick s) (trace s) (inExitHandler s).
Definition set_linkObject v (s : t) :=
    mk (state s) (inputQueue s) v (attachCallback s) (listeners s)
       (messageListeners s) (pendingCreate s) (nextTick s) (trace s) (inExitHandler s).
Definition set_attachCallback v (s : t) :=
    mk (state s) (inputQueue s) (linkObject s) v (listeners s)
       (messageListeners s) (pendingCreate s) (nextTick s) (trace s) (inExitHandler s).
Definition set_listeners v (s : t) :=
    mk (state s) (inputQueue s) (linkObject s) (attachCallback s) v
       (messageListeners s) (pendingCreate s) (nextTick s) (trace s) (inExitHandler s).
Definition set_messageListeners v (s : t) :=
    mk (state s) (inputQueue s) (linkObject s) (attachCallback s) (listeners s)
       v (pendingCreate s) (nextTick s) (trace s) (inExitHandler s).
Definition set_pendingCreate v (s : t) :=
    mk (state s) (inputQueue s) (linkObject s) (attachCallback s) (listeners s)
       (messageListeners s) v (nextTick s) (trace s) (inExitHandler s).
Definition set_nextTick v (s : t) :=
    mk (state s) (inputQueue s) (linkObject s) (attachCallback s) (listeners s)
       (messageListeners s) (pendingCreate s) v (trace s) (inExitHandler s).
Definition set_trace v (s : t) :=
    mk (state s) (inputQueue s) (linkObject s) (attachCallback s) (listeners s)
       (messageListeners s) (pendingCreate s) (nextTick s) v (inExitHandler s).
Definition set_inExitHandler v (s : t) :=
    mk (state s) (inputQueue s) (linkObject s) (attachCallback s) (listeners s)
       (messageListeners s) (pendingCreate s) (nextTick s) (trace s) v.

Definition emit (e : Effect) : M t unit :=
    modify (fun s => set_trace (trace s ++ [e]) s).

(** Calling the function given to [attach] with [err]. *)
Definition call_attach_fn (f : option AttachFn) (err : option JsError) : M t unit :=
    match f with
    | Some (user_callback cb) => emit (AttachCallback cb err)
    | Some emit_error_if_err =>
        match err with
        | Some e => emit (EmitError e)
        | None => ret tt
        end
    | None => throw (not_a_function "callback")
    end.

(** [_attachLink] *)
Definition attachLink : M t unit :=
    emit CreateReceiver ;;
    modify (fun s => set_pendingCreate (pendingCreate s ++ [None]) s).

(** [_detachLink] *)
Definition detachLink : M t unit :=
    s <- get ;;
    match linkObject s with
    | None => throw (cannot_read "forceDetach")
    | Some l => emit (ForceDetach l) ;; modify (set_linkObject None)
    end.

(** [attached._onEnter] *)
Definition attached_onEnter : M t unit :=
    s <- get ;;
    match linkObject s with
    | None => throw (cannot_read "on")
    | Some l => modify (fun s => set_listeners (listeners s ++ [l]) s)
    end.

(** [attached._onExit] *)
Definition attached_onExit : M t unit :=
    s <- get ;;
    match linkObject s with
    | None => throw (cannot_read "removeListener")
    | Some l => modify (fun s => set_listeners (remove_listener l (listeners s)) s)
    end.

(** How machina runs an [_onExit] handler: [inExitHandler] is set around
    the call and stays set when the handler throws. *)
Definition in_exit_handler (onExit : M t unit) : M t unit :=
    try_catch onExit
              (fun e => modify (set_inExitHandler true) ;; throw e).

Definition transition_core (newState : FsmState) : M t unit :=
    s <- get ;;
    if inExitHandler s || FsmState_eqb (state s) newState then ret tt
    else
      (match state s with
       | attached => in_exit_handler attached_onExit
       | _ => ret tt
       end) ;;
      modify (set_state newState) ;;
      match newState with
      | attaching => attachLink
      | attached => attached_onEnter
      | detached | detaching => ret tt
      end.

Definition deferUntilTransition (untilState : FsmState) (i : Input) : M t unit :=
    modify (fun s => set_inputQueue (inputQueue s ++ [(untilState, i)]) s).

(** A disposition handler of the ['attached'] state. *)
Definition settle (act : LinkObject -> Message -> Effect) (prop : string)
             (result : Settled) (m : Message) (cb : option Callback) : M t unit :=
    s <- get ;;
    match linkObject s with
    | None => throw (cannot_read prop)
    | Some l =>
        emit (act l m) ;;
        match cb with
        | Some c => emit (SettleCallback c result)
        | None => ret tt
        end
    end.

Definition handle_with (transition : FsmState -> M t unit) (i : Input) : M t unit :=
    s <- get ;;
    if inExitHandler s then ret tt else
    match state s, i with
    | detached, attach cb =>
        modify (set_attachCallback cb) ;;
        transition attaching
    | detached, detach cb =>
        match cb with
        | Some c => emit (DetachCallback c)
        | None => throw (not_a_function "callback")
        end
    | detached, _ => deferUntilTransition attached i
    | attaching, detach _ =>
        transition detaching ;;
        detachLink ;;
        transition detached
    | attaching, _ => deferUntilTransition attached i
    | attached, attach cb =>
        match cb with
        | Some f => call_attach_fn (Some f) None
        | None => throw (not_a_function "callback")
        end
    | attached, detach _ =>
        transition detaching ;;
        detachLink ;;
        transition detached
    | attached, accept m cb => settle LinkAccept "accept" MessageCompleted m cb
    | attached, reject m cb => settle LinkReject "reject" MessageRejected m cb
    | attached, abandon m cb => settle LinkAbandon "abandon" MessageAbandoned m cb
    | detaching, _ => deferUntilTransition detached i
    end.

Definition processQueue (handle : Input -> M t unit) : M t unit :=
    s <- get ;;
    let ready := filter (fun p => FsmState_eqb (fst p) (state s)) (inputQueue s) in
    let rest := filter (fun p => negb (FsmState_eqb (fst p) (state s))) (inputQueue s) in
    modify (set_inputQueue rest) ;;
    for_each (fun p => handle (snd p)) ready.

(** machina's [transition]; a replayed handler moves at most to
      ['attaching'] or ['detaching'], for which nothing is ever deferred. *)
Definition transition (newState : FsmState) : M t unit :=
    s <- get ;;
    if inExitHandler s || FsmState_eqb (state s) newState then ret tt
    else
      transition_core newState ;;
      processQueue (handle_with transition_core).

Definition handle : Input -> M t unit := handle_with transition.

(** The continuation given to [_attachLink] by [attaching._onEnter]. *)
Definition attach_completion (err : option JsError) : M t unit :=
    let newState := match err with Some _ => detached | None => attached end in
    transition newState ;;
    s <- get ;;
    match attachCallback s with
    | Some f =>
        modify (set_attachCallback None) ;;
        call_attach_fn (Some f) err
    | None => ret tt
    end.

(** [_detachHandler], for a detach event carrying [error]. *)
Definition detachHandler (error : option JsError) : M t unit :=
    modify (set_linkObject None) ;;
    (match error with
     | Some e => emit (EmitError e)
     | None => ret tt
     end) ;;
    transition detached.

(** Public methods. *)
Definition attach_method (cb : option Callback) : M t unit :=
    handle (attach (option_map user_callback cb)).
Definition detach_method : M t unit := handle (detach None).
Definition accept_method (m : Message) (cb : option Callback) : M t unit :=
    handle (accept m cb).
Definition reject_method (m : Message) (cb : option Callback) : M t unit :=
    handle (reject m cb).
Definition abandon_method (m : Message) (cb : option Callback) : M t unit :=
    handle (abandon m cb).

Inductive Event :=
  | call_attach (cb : option Callback)
  | call_detach
  | call_accept (m : Message) (cb : option Callback)
  | call_reject (m : Message) (cb : option Callback)
  | call_abandon (m : Message) (cb : option Callback)
  | on_message                       (* a subscriber to 'message' is added *)
  | remove_message_listener          (* a subscriber to 'message' is removed *)
  | createReceiver_resolved (k : nat) (receiver : LinkObject)
  | createReceiver_rejected (k : nat) (err : JsError)
  | client_errorReceived (err : JsError)
  | link_detached (l : LinkObject) (error : option JsError)
  | link_message (l : LinkObject) (m : Message)
  | link_errorReceived (l : LinkObject) (err : JsError)
  | tick.

Definition step (e : Event) : M t unit :=
    match e with
    | call_attach cb => attach_method cb
    | call_detach => detach_method
    | call_accept m cb => accept_method m cb
    | call_reject m cb => reject_method m cb
    | call_abandon m cb => abandon_method m cb
    | on_message =>
        (* 'newListener' fires before the subscriber is added *)
        handle (attach (Some emit_error_if_err)) ;;
        modify (fun s => set_messageListeners (S (messageListeners s)) s)
    | remove_message_listener =>
        (* 'removeListener' fires after the subscriber is removed *)
        modify (fun s => set_messageListeners (pred (messageListeners s)) s) ;;
        s <- get ;;
        if Nat.eqb (messageListeners s) 0 then handle (detach None) else ret tt
    | createReceiver_resolved k receiver =>
        s <- get ;;
        match nth_error (pendingCreate s) k with
        | Some connectionError =>
            modify (set_pendingCreate (remove_nth k (pendingCreate s))) ;;
            match connectionError with
            | None =>
                modify (set_linkObject (Some receiver)) ;;
                modify (fun s => set_nextTick (nextTick s ++ [None]) s)
            | Some e =>
                modify (fun s => set_nextTick (nextTick s ++ [Some e]) s)
            end
        | None => ret tt
        end
    | createReceiver_rejected k err =>
        s <- get ;;
        match nth_error (pendingCreate s) k with
        | Some _ =>
            modify (set_pendingCreate (remove_nth k (pendingCreate s))) ;;
            modify (fun s => set_nextTick
                      (nextTick s ++ [Some (mkError NotConnectedError
                                             "AMQP: Could not create receiver")]) s)
        | None => ret tt
        end
    | client_errorReceived err =>
        modify (fun s => set_pendingCreate (map (fun _ => Some err) (pendingCreate s)) s)
    | link_detached l error =>
        s <- get ;;
        repeat_n (count_occ Nat.eq_dec (listeners s) l) (detachHandler error)
    | link_message l m =>
        s <- get ;;
        repeat_n (count_occ Nat.eq_dec (listeners s) l) (emit (EmitMessage m))
    | link_errorReceived l err =>
        s <- get ;;
        repeat_n (count_occ Nat.eq_dec (listeners s) l) (emit (EmitErrorReceived err))
    | tick =>
        s <- get ;;
        match nextTick s with
        | err :: rest => modify (set_nextTick rest) ;; attach_completion err
        | [] => ret tt
        end
    end.

Definition run (es : list Event) (s : t) : t :=
    fold_left (fun s e => exec (step e) s) es s.

End ReceiverLink.

(** ** ClaimsBasedSecurityAgent (amqp_cbs.ts) *)

Module Cbs.

(** [PutTokenOperation] *)
Record PutTokenOperation := mkOp {
    putTokenCallback : option Callback;
    expirationTime : Z;               (* seconds since the epoch *)
    correlationId : string
  }.

(** What the handlers read of an AMQP value such as [status-code]. *)
Inductive Value :=
  | undefined
  | number (z : Z)
  | text (s : string).

(** A message emitted by the receiver link. *)
Record Response := mkResponse {
    msg_id : Message;
    msg_correlationId : option string;
    status_code : Value;              (* msg.properties.getValue('status-code') *)
    status_description : Value        (* msg.properties.getValue('status-description') *)
  }.

(** The put-token request built by [attached.putToken]. *)
Record PutTokenMessage := mkPutToken {
    ap_operation : string;
    ap_type : string;
    ap_name : string;
    body : string;
    p_to : string;
    p_messageId : string;
    p_reply_to : string
  }.

Inductive Input :=
  | attach (callback : option Callback)
  | detach
  | putToken (audience token : string) (putTokenCallback : option Callback).

(** The argument a put-token callback is called with. *)
Inductive PutTokenResult :=
  | no_error                               (* null *)
  | unauthorized (description : Value)     (* new errors.UnauthorizedError(...) *)
  | timeout (message : string)             (* new errors.TimeoutError(...) *)
  | send_result (err : option JsError).    (* the argument of the send callback *)

Inductive Effect :=
  | SenderAttach (round : nat)             (* _senderLink.attach(...) *)
  | ReceiverAttach (round : nat)           (* _receiverLink.attach(...) *)
  | SenderDetach                           (* _senderLink.detach() *)
  | ReceiverDetach                         (* _receiverLink.detach() *)
  | ReceiverOnMessage                      (* _receiverLink.on('message', ...) *)
  | SenderSend (m : PutTokenMessage)       (* _senderLink.send(amqpMessage, ...) *)
  | ReceiverAccept (m : Message)           (* _receiverLink.accept(msg) *)
  | SetTimeout (timer : nat) (ms : Z)
  | ClearTimeout (timer : option nat)
  | AttachCallback (cb : Callback) (err : option JsError)
  | PutTokenCallback (cb : Callback) (r : PutTokenResult).

Record t := mk {
    state : FsmState;
    inputQueue : list (FsmState * Input);
    attachCallback : option Callback;
    (* PutTokenStatus *)
    outstandingPutTokens : list PutTokenOperation;
    timeoutTimer : option nat;
    (* timeouts set and neither fired nor cleared; the next timer handle *)
    armed : list nat;
    timerSeq : nat;
    (* senderAttached / receiverAttached of each entry into 'attaching' *)
    rounds : list (bool * bool);
    (* number of registrations of the 'message' handler on the receiver link *)
    messageHandlers : nat;
    (* message ids of the sends whose callback has not been called yet *)
    sends : list string;
    (* number of uuid.v4() drawn so far *)
    uuidSeq : nat;
    trace : list Effect
  }.

Definition numberOfSecondsToTimeout : Z := 120.
Definition putTokenTimeOutExaminationInterval : Z := 10000.

Definition init : t := mk detached [] None [] None [] 0 [] 0 [] 0 [].

Definition set_state v (s : t) :=
    mk v (inputQueue s) (attachCallback s) (outstandingPutTokens s) (timeoutTimer s)
       (armed s) (timerSeq s) (rounds s) (messageHandlers s) (sends s) (uuidSeq s) (trace s).
Definition set_inputQueue v (s : t) :=
    mk (state s) v (attachCallback s) (outstandingPutTokens s) (timeoutTimer s)
       (armed s) (timerSeq s) (rounds s) (messageHandlers s) (sends s) (uuidSeq s) (trace s).
Definition set_attachCallback v (s : t) :=
    mk (state s) (inputQueue s) v (outstandingPutTokens s) (timeoutTimer s)
       (armed s) (timerSeq s) (rounds s) (messageHandlers s) (sends s) (uuidSeq s) (trace s).
Definition set_outstandingPutTokens v (s : t) :=
    mk (state s) (inputQueue s) (attachCallback s) v (timeoutTimer s)
       (armed s) (timerSeq s) (rounds s) (messageHandlers s) (sends s) (uuidSeq s) (trace s).
Definition set_timeoutTimer v (s : t) :=
    mk (state s) (inputQueue s) (attachCallback s) (outstandingPutTokens s) v
       (armed s) (timerSeq s) (rounds s) (messageHandlers s) (sends s) (uuidSeq s) (trace s).
Definition set_armed v (s : t) :=
    mk (state s) (inputQueue s) (attachCallback s) (outstandingPutTokens s) (timeoutTimer s)
       v (timerSeq s) (rounds s) (messageHandlers s) (sends s) (uuidSeq s) (trace s).
Definition set_timerSeq v (s : t) :=
    mk (state s) (inputQueue s) (attachCallback s) (outstandingPutTokens s) (timeoutTimer s)
       (armed s) v (rounds s) (messageHandlers s) (sends s) (uuidSeq s) (trace s).
Definition set_rounds v (s : t) :=
    mk (state s) (inputQueue s) (attachCallback s) (outstandingPutTokens s) (timeoutTimer s)
       (armed s) (timerSeq s) v (messageHandlers s) (sends s) (uuidSeq s) (trace s).
Definition set_messageHandlers v (s : t) :=
    mk (state s) (inputQueue s) (attachCallback s) (outstandingPutTokens s) (timeoutTimer s)
       (armed s) (timerSeq s) (rounds s) v (sends s) (uuidSeq s) (trace s).
Definition set_sends v (s : t) :=
    mk (state s) (inputQueue s) (attachCallback s) (outstandingPutTokens s) (timeoutTimer s)
       (armed s) (timerSeq s) (rounds s) (messageHandlers s) v (uuidSeq s) (trace s).
Definition set_uuidSeq v (s : t) :=
    mk (state s) (inputQueue s) (attachCallback s) (outstandingPutTokens s) (timeoutTimer s)
       (armed s) (timerSeq s) (rounds s) (messageHandlers s) (sends s) v (trace s).
Definition set_trace v (s : t) :=
    mk (state s) (inputQueue s) (attachCallback s) (outstandingPutTokens s) (timeoutTimer s)
       (armed s) (timerSeq s) (rounds s) (messageHandlers s) (sends s) (uuidSeq s) v.

Definition emit (e : Effect) : M t unit :=
    modify (fun s => set_trace (trace s ++ [e]) s).

(** [timeoutTimer = setTimeout(_removeExpiredPutTokens, interval)] *)
Definition setTimeout : M t unit :=
    s <- get ;;
    emit (SetTimeout (timerSeq s) putTokenTimeOutExaminationInterval) ;;
    modify (set_armed (armed s ++ [timerSeq s])) ;;
    modify (set_timeoutTimer (Some (timerSeq s))) ;;
    modify (set_timerSeq (S (timerSeq s))).

(** [clearTimeout(timeoutTimer)] *)
Definition clearTimeout : M t unit :=
    s <- get ;;
    emit (ClearTimeout (timeoutTimer s)) ;;
    match timeoutTimer s with
    | Some id => modify (set_armed (List.remove Nat.eq_dec id (armed s)))
    | None => ret tt
    end.

Definition call_attach_callback (cb : option Callback) (err : option JsError) : M t unit :=
    match cb with
    | Some c => emit (AttachCallback c err)
    | None => throw (not_a_function "cb")
    end.

(** A call of [putTokenCallback] that is not guarded by a test. *)
Definition call_putTokenCallback (cb : option Callback) (r : PutTokenResult) : M t unit :=
    match cb with
    | Some c => emit (PutTokenCallback c r)
    | None => throw (not_a_function "putTokenCallback")
    end.

Section WithUuid.

(** [uuid.v4()]: the [n]-th identifier drawn. *)
Variable uuid_v4 : nat -> string.

Definition deferUntilTransition (untilState : FsmState) (i : Input) : M t unit :=
    modify (fun s => set_inputQueue (inputQueue s ++ [(untilState, i)]) s).

(** [attaching._onEnter]: both links are asked to attach; the two
      continuations share the flags of this entry. *)
Definition attaching_onEnter : M t unit :=
    s <- get ;;
    modify (set_rounds (rounds s ++ [(false, false)])) ;;
    emit (SenderAttach (List.length (rounds s))) ;;
    emit (ReceiverAttach (List.length (rounds s))).

(** [attached._onEnter] *)
Definition attached_onEnter : M t unit :=
    s <- get ;;
    match attachCallback s with
    | Some cb =>
        modify (set_attachCallback None) ;;
        emit (AttachCallback cb None)
    | None => ret tt
    end.

(** The handlers of the ['detached'] state, reached by replay. *)
Definition detached_handle (enter_attaching : M t unit) (i : Input) : M t unit :=
    match i with
    | attach cb => modify (set_attachCallback cb) ;; enter_attaching
    | _ => ret tt                          (* no handler *)
    end.

(** Entering ['attaching'] from another state. *)
Definition enter_attaching : M t unit :=
    modify (set_state attaching) ;; attaching_onEnter.

(** [processQueue] on arrival in ['detached']. *)
Definition replay_detached : M t unit :=
    s <- get ;;
    let ready := filter (fun p => FsmState_eqb (fst p) detached) (inputQueue s) in
    let rest := filter (fun p => negb (FsmState_eqb (fst p) detached)) (inputQueue s) in
    modify (set_inputQueue rest) ;;
    for_each
      (fun p =>
         s <- get ;;
         match state s with
         | detached => detached_handle enter_attaching (snd p)
         | _ => ret tt                     (* 'attaching' has no handlers *)
         end)
      ready.

(** machina's [transition].  [detaching._onEnter] detaches both links and
      moves on to ['detached'] itself, where the deferred inputs are
      replayed; no other state has inputs deferred for it. *)
Definition transition (newState : FsmState) : M t unit :=
    s <- get ;;
    if FsmState_eqb (state s) newState then ret tt
    else
      match newState with
      | detached => modify (set_state detached) ;; replay_detached
      | attaching => enter_attaching
      | attached => modify (set_state attached) ;; attached_onEnter
      | detaching =>
          modify (set_state detaching) ;;
          emit SenderDetach ;;
          emit ReceiverDetach ;;
          modify (set_state detached) ;; replay_detached
      end.

(** [Math.round(Date.now() / 1000)] is the argument [now] below. *)

(** The continuation given to [_senderLink.send] by [attached.putToken],
      for the send of the message with id [messageId]. *)
Fixpoint find_from_tail (messageId : string) (rev_ops : list PutTokenOperation)
    : option (PutTokenOperation * list PutTokenOperation) :=
    match rev_ops with
    | [] => None
    | op :: before =>
        if String.eqb (correlationId op) messageId
        then Some (op, before)
        else match find_from_tail messageId before with
             | Some (found, before') => Some (found, op :: before')
             | None => None
             end
    end.

Definition send_callback (messageId : string) (err : option JsError) : M t unit :=
    s <- get ;;
    match find_from_tail messageId (rev (outstandingPutTokens s)) with
    | Some (outStandingPutTokenInError, others_rev) =>
        modify (set_outstandingPutTokens (rev others_rev)) ;;
        (match others_rev with
         | [] => clearTimeout
         | _ => ret tt
         end) ;;
        call_putTokenCallback (putTokenCallback outStandingPutTokenInError) (send_result err)
    | None => ret tt
    end.

(** [attached.putToken] *)
Definition attached_putToken (now : Z) (audience token : string)
             (cb : option Callback) : M t unit :=
    s <- get ;;
    let amqpMessage :=
      mkPutToken "put-token" "servicebus.windows.net:sastoken" audience
                 token "$cbs" (uuid_v4 (uuidSeq s)) "cbs" in
    modify (set_uuidSeq (S (uuidSeq s))) ;;
    let outstandingPutToken :=
      mkOp cb (now + numberOfSecondsToTimeout) (p_messageId amqpMessage) in
    modify (fun s => set_outstandingPutTokens
                       (outstandingPutTokens s ++ [outstandingPutToken]) s) ;;
    s1 <- get ;;
    (if Nat.eqb (List.length (outstandingPutTokens s1)) 1 then setTimeout else ret tt) ;;
    emit (SenderSend amqpMessage) ;;
    modify (fun s => set_sends (sends s ++ [p_messageId amqpMessage]) s).

(** The handler table; [now] is the clock reading used by [putToken]. *)
Definition handle (now : Z) (i : Input) : M t unit :=
    s <- get ;;
    match state s, i with
    | detached, attach cb =>
        modify (set_attachCallback cb) ;;
        transition attaching
    | detached, _ => ret tt                (* no handler *)
    | attaching, _ => ret tt               (* no handler *)
    | attached, attach cb =>
        match cb with
        | Some c => emit (AttachCallback c None)
        | None => throw (not_a_function "callback")
        end
    | attached, detach => transition detaching
    | attached, putToken audience token cb => attached_putToken now audience token cb
    | detaching, _ => deferUntilTransition detached i
    end.

(** Public methods. *)
Definition attach_method (now : Z) (callback : option Callback) : M t unit :=
    handle now (attach callback).

(** [detach(callback) { this._fsm.handle('attach', callback); }] *)
Definition detach_method (now : Z) (callback : option Callback) : M t unit :=
    handle now (attach callback).

Definition putToken_method (now : Z) (audience token : string)
             (cb : option Callback) : M t unit :=
    if String.eqb audience "" then
      throw (mkError ReferenceError ("audience cannot be '" ++ audience ++ "'"))
    else if String.eqb token "" then
      throw (mkError ReferenceError ("token cannot be '" ++ token ++ "'"))
    else handle now (putToken audience token cb).

(** The continuation given to [_senderLink.attach] in round [k]. *)
Definition sender_attach_done (k : nat) (err : option JsError) : M t unit :=
    match err with
    | Some e =>
        transition detaching ;;
        s <- get ;;
        modify (set_attachCallback None) ;;
        call_attach_callback (attachCallback s) (Some e)
    | None =>
        s <- get ;;
        match nth_error (rounds s) k with
        | Some (_, receiverAttached) =>
            modify (set_rounds (firstn k (rounds s) ++ (true, receiverAttached)
                                  :: skipn (S k) (rounds s))) ;;
            if receiverAttached then transition attached else ret tt
        | None => ret tt
        end
    end.

(** The first pending operation whose id is [cid], and the list without it. *)
Fixpoint remove_first (cid : option string) (ops : list PutTokenOperation)
    : option (PutTokenOperation * list PutTokenOperation) :=
    match ops with
    | [] => None
    | op :: rest =>
        if match cid with
           | Some c => String.eqb c (correlationId op)
           | None => false
           end
        then Some (op, rest)
        else match remove_first cid rest with
             | Some (found, rest') => Some (found, op :: rest')
             | None => None
             end
    end.

(** [msg.properties.getValue('status-code') !== 200] *)
Definition is_200 (v : Value) : bool :=
    match v with
    | number z => Z.eqb z 200
    | _ => false
    end.

(** The listener registered on the receiver link's ['message'] event. *)
Definition on_message (msg : Response) : M t unit :=
    s <- get ;;
    (match remove_first (msg_correlationId msg) (outstandingPutTokens s) with
     | Some (completedPutToken, others) =>
         modify (set_outstandingPutTokens others) ;;
         match putTokenCallback completedPutToken with
         | Some cb =>
             let error :=
               if is_200 (status_code msg) then no_error
               else unauthorized (status_description msg) in
             emit (PutTokenCallback cb error)
         | None => ret tt
         end
     | None => ret tt
     end) ;;
    emit (ReceiverAccept (msg_id msg)).

(** The continuation given to [_receiverLink.attach] in round [k]. *)
Definition receiver_attach_done (k : nat) (err : option JsError) : M t unit :=
    match err with
    | Some e =>
        s <- get ;;
        modify (set_attachCallback None) ;;
        transition detaching ;;
        call_attach_callback (attachCallback s) (Some e)
    | None =>
        s <- get ;;
        match nth_error (rounds s) k with
        | Some (senderAttached, _) =>
            modify (set_rounds (firstn k (rounds s) ++ (senderAttached, true)
                                  :: skipn (S k) (rounds s))) ;;
            emit ReceiverOnMessage ;;
            modify (fun s => set_messageHandlers (S (messageHandlers s)) s) ;;
            if senderAttached then transition attached else ret tt
        | None => ret tt
        end
    end.

(** The loop of [_removeExpiredPutTokens]: the expired operations at the
      head of the list, and what is left from the first one not expired. *)
Fixpoint split_expired (currentTime : Z) (ops : list PutTokenOperation)
    : list PutTokenOperation * list PutTokenOperation :=
    match ops with
    | [] => ([], [])
    | op :: rest =>
        if Z.ltb (expirationTime op) currentTime
        then let (expired, kept) := split_expired currentTime rest in
             (op :: expired, kept)
        else ([], ops)
    end.

Definition timeout_message : string :=
    "Put Token operation had no response within 120".

(** [_removeExpiredPutTokens] *)
Definition removeExpiredPutTokens (currentTime : Z) : M t unit :=
    s <- get ;;
    let (expiredPutTokens, kept) := split_expired currentTime (outstandingPutTokens s) in
    modify (set_outstandingPutTokens kept) ;;
    for_each (fun currentExpiredPut =>
                call_putTokenCallback (putTokenCallback currentExpiredPut)
                                      (timeout timeout_message))
             expiredPutTokens ;;
    s1 <- get ;;
    match outstandingPutTokens s1 with
    | [] => ret tt
    | _ => setTimeout
    end.

Inductive Event :=
  | call_attach (now : Z) (cb : option Callback)
  | call_detach (now : Z) (cb : option Callback)
  | call_putToken (now : Z) (audience token : string) (cb : option Callback)
  | sender_attached (k : nat) (err : option JsError)
  | receiver_attached (k : nat) (err : option JsError)
  | send_done (k : nat) (err : option JsError)
  | receiver_message (msg : Response)
  | timer_fired (id : nat) (now : Z).

Definition step (e : Event) : M t unit :=
    match e with
    | call_attach now cb => attach_method now cb
    | call_detach now cb => detach_method now cb
    | call_putToken now audience token cb => putToken_method now audience token cb
    | sender_attached k err => sender_attach_done k err
    | receiver_attached k err => receiver_attach_done k err
    | send_done k err =>
        s <- get ;;
        match nth_error (sends s) k with
        | Some messageId =>
            modify (set_sends (remove_nth k (sends s))) ;;
            send_callback messageId err
        | None => ret tt
        end
    | receiver_message msg =>
        s <- get ;;
        repeat_n (messageHandlers s) (on_message msg)
    | timer_fired id now =>
        s <- get ;;
        if existsb (Nat.eqb id) (armed s) then
          modify (set_armed (List.remove Nat.eq_dec id (armed s))) ;;
          removeExpiredPutTokens now
        else ret tt
    end.

Definition run (es : list Event) (s : t) : t :=
    fold_left (fun s e => exec (step e) s) es s.

End WithUuid.

End Cbs.

(** ** JavaScript values, as far as [sendTwinRequest] looks at them *)

Module JsVal.

(** Numbers are the integers among the doubles; functions and arrays do
      not occur among the arguments considered. *)
#[local] Set Warnings "-register-all".
Inductive JsValue :=
  | JsUndefined
  | JsNull
  | JsBool (b : bool)
  | JsNum (z : Z)
  | JsStr (s : string)
  | JsObj (fields : list (string * JsValue)).

(** [!v] is [negb (truthy v)]. *)
Definition truthy (v : JsValue) : bool :=
    match v with
    | JsUndefined | JsNull => false
    | JsBool b => b
    | JsNum z => negb (Z.eqb z 0)
    | JsStr s => negb (String.eqb s "")
    | JsObj _ => true
    end.

Definition isString (v : JsValue) : bool :=
    match v with JsStr _ => true | _ => false end.
Definition isNumber (v : JsValue) : bool :=
    match v with JsNum _ => true | _ => false end.
Definition isBoolean (v : JsValue) : bool :=
    match v with JsBool _ => true | _ => false end.
Definition isObject (v : JsValue) : bool :=
    match v with JsObj _ => true | _ => false end.

Definition Z_to_string (z : Z) : string :=
    DecimalString.NilZero.string_of_int (Z.to_int z).

(** [v.toString()] *)
Definition toString (v : JsValue) : Completion string :=
    match v with
    | JsUndefined | JsNull => Thrown (cannot_read "toString")
    | JsBool true => Normal "true"
    | JsBool false => Normal "false"
    | JsNum z => Normal (Z_to_string z)
    | JsStr s => Normal s
    | JsObj _ => Normal "[object Object]"
    end.

(** Objects used as maps: [o[k]] and [o[k] = v]. *)
Definition Obj := list (string * JsValue).

Fixpoint obj_get (k : string) (o : Obj) : option JsValue :=
    match o with
    | [] => None
    | (k', v) :: rest => if String.eqb k k' then Some v else obj_get k rest
    end.

Fixpoint obj_set (k : string) (v : JsValue) (o : Obj) : Obj :=
    match o with
    | [] => [(k, v)]
    | (k', v') :: rest =>
        if String.eqb k k' then (k, v) :: rest else (k', v') :: obj_set k v rest
    end.

(** [Object.keys(o)] *)
Definition keys (o : Obj) : list string := map fst o.

(** The last character of a string and the string without it. *)
Fixpoint last_char (s : string) : option Ascii.ascii :=
    match s with
    | EmptyString => None
    | String c EmptyString => Some c
    | String _ rest => last_char rest
    end.

Fixpoint drop_last (s : string) : string :=
    match s with
    | EmptyString => EmptyString
    | String c EmptyString => EmptyString
    | String c rest => String c (drop_last rest)
    end.

End JsVal.

Import JsVal.

(** ** AmqpTwinReceiver, the device-twin client *)

Module Twin.

Inductive TwinState := disconnected | connecting | connected | disconnecting.

Definition TwinState_eqb (a b : TwinState) : bool :=
    match a, b with
    | disconnected, disconnected | connecting, connecting
    | connected, connected | disconnecting, disconnecting => true
    | _, _ => false
    end.

(** [AmqpMessage], as far as [_sendTwinRequest] fills it. *)
Record AmqpMessage := mkMessage {
    messageAnnotations : Obj;
    properties : Obj;
    body : option string
  }.

(** [new AmqpMessage()] with both maps set to [{}]. *)
Definition empty_message : AmqpMessage := mkMessage [] [] None.

Definition set_annotation (k : string) (v : JsValue) : M AmqpMessage unit :=
    modify (fun m => mkMessage (obj_set k v (messageAnnotations m)) (properties m) (body m)).
Definition set_property (k : string) (v : JsValue) : M AmqpMessage unit :=
    modify (fun m => mkMessage (messageAnnotations m) (obj_set k v (properties m)) (body m)).
Definition set_body (b : string) : M AmqpMessage unit :=
    modify (fun m => mkMessage (messageAnnotations m) (properties m) (Some b)).

Definition lift {S A} (c : Completion A) : M S A := fun s => (c, s).

Definition missing_parameter : JsError :=
    mkError ReferenceError "required parameter is missing".
Definition not_a_string : JsError :=
    mkError ArgumentError "required string parameter is not a string".
Definition not_an_object : JsError :=
    mkError ArgumentError "required properties parameter is not an object".
Definition non_string_properties : JsError :=
    mkError ArgumentError "required properties object has non-string properties".

(** The body of the [forEach] over [Object.keys(properties)]. *)
Definition encode_property (kv : string * JsValue) : M AmqpMessage unit :=
    let (key, value) := kv in
    if negb (isString value) && negb (isNumber value) && negb (isBoolean value)
    then throw non_string_properties
    else if String.eqb key "$rid"
         then (s <- lift (toString value) ;; set_property "correlationId" (JsStr s))
         else set_annotation key value.

(** [_sendTwinRequest] up to the call of [this.send]: the checks and the
      construction of [amqpMessage]. *)
Definition encode_twin_request (method resource properties body : JsValue)
    : M AmqpMessage unit :=
    if negb (truthy method) || negb (truthy resource)
       || negb (truthy properties) || negb (truthy body)
    then throw missing_parameter
    else if negb (isString method) || negb (isString resource)
    then throw not_a_string
    else
      match method, resource, properties with
      | JsStr _, JsStr localResource, JsObj fields =>
          set_annotation "operation" method ;;
          (if Nat.ltb 0 (String.length localResource)
           then
             let trimmed :=
               match last_char localResource with
               | Some "/"%char => drop_last localResource
               | _ => localResource
               end in
             if Nat.ltb 0 (String.length trimmed)
             then set_annotation "resource" (JsStr trimmed)
             else ret tt
           else ret tt) ;;
          (if match method with JsStr m => String.eqb m "PATCH" | _ => false end
           then set_annotation "version" JsNull
           else ret tt) ;;
          for_each encode_property fields ;;
          b <- lift (toString body) ;;
          set_body b
      | _, _, _ => throw not_an_object
      end.

(** The message handed to [this.send], or the exception thrown. *)
Definition twin_request_message (method resource properties body : JsValue)
    : Completion AmqpMessage :=
    match encode_twin_request method resource properties body empty_message with
    | (Normal _, m) => Normal m
    | (Thrown e, _) => Thrown e
    end.

Inductive EventName := response | post | other_event.

Inductive Input :=
  | handleNewListener (eventName : EventName)
  | handleRemoveListener (eventName : EventName)
  | sendTwinRequest (method resource properties body : JsValue) (done : option Callback)
  | handleDownstreamLinkDetach.

(** The continuations stored in [_internalOperations]. *)
Inductive Continuation :=
  | emit_subscribed_post        (* emits 'subscribed' for the post event *)
  | turned_off_notification.    (* only writes a debug line *)

(** A message delivered on the downstream link. *)
Record Inbound := mkInbound {
    in_correlationId : option string;
    in_data : option JsValue            (* None: no own property 'data' *)
  }.

Inductive Effect :=
  | Transition (toState : TwinState)                       (* machina's 'transition' event *)
  | AttachReceiverLink (endpoint channel : string)         (* _client.attachReceiverLink *)
  | AttachSenderLink (endpoint channel : string)           (* _client.attachSenderLink *)
  | DetachSenderLink (endpoint : string)                   (* _client.detachSenderLink *)
  | DetachReceiverLink (link : option LinkObject)          (* _client.detachReceiverLink *)
  | UpstreamSend (link : LinkObject) (m : AmqpMessage)     (* _upstreamAmqpLink.send *)
  | EmitError (e : JsError)
  | EmitErrorReceived (e : option JsError)
  | EmitSubscribed (eventName : EventName) (transportObject : option LinkObject)
  | EmitResponse (rid : string) (data : option JsValue)
  | EmitPost (data : option JsValue)
  | DoneCallback (cb : Callback) (err : option JsError) (result : option Disposition).

Record t := mk {
    state : TwinState;
    inputQueue : list (TwinState * Input);
    responseListeners : nat;
    postListeners : nat;
    internalOperations : list (string * Continuation);
    upstreamAmqpLink : option LinkObject;
    downstreamAmqpLink : option LinkObject;
    channelCorrelationId : string;   (* of both link option objects *)
    (* downstream links carrying _onAmqpDetached / _boundMessageHandler *)
    detachedHooks : list LinkObject;
    messageHooks : list LinkObject;
    uuidSeq : nat;
    (* client calls whose callback has not run yet *)
    receiverAttachPending : nat;
    senderAttachPending : nat;
    senderDetachPending : nat;
    receiverDetachPending : nat;
    inflight : list (option Callback);
    nextTick : list (Callback * option JsError * option Disposition);
    (* the links as the AMQP client has them: attached and not yet asked to
       detach nor detached by the peer *)
    receiversUp : list LinkObject;
    sendersUp : list LinkObject;
    trace : list Effect
  }.

Definition init : t :=
    mk disconnected [] 0 0 [] None None "twin:" [] [] 0 0 0 0 0 [] [] [] [] [].

Definition set_state v (s : t) :=
    mk v (inputQueue s) (responseListeners s) (postListeners s) (internalOperations s)
       (upstreamAmqpLink s) (downstreamAmqpLink s) (channelCorrelationId s) (detachedHooks s)
       (messageHooks s) (uuidSeq s) (receiverAttachPending s) (senderAttachPending s)
       (senderDetachPending s) (receiverDetachPending s) (inflight s) (nextTick s)
       (receiversUp s) (sendersUp s) (trace s).
Definition set_inputQueue v (s : t) :=
    mk (state s) v (responseListeners s) (postListeners s) (internalOperations s)
       (upstreamAmqpLink s) (downstreamAmqpLink s) (channelCorrelationId s) (detachedHooks s)
       (messageHooks s) (uuidSeq s) (receiverAttachPending s) (senderAttachPending s)
       (senderDetachPending s) (receiverDetachPending s) (inflight s) (nextTick s)
       (receiversUp s) (sendersUp s) (trace s).
Definition set_responseListeners v (s : t) :=
    mk (state s) (inputQueue s) v (postListeners s) (internalOperations s)
       (upstreamAmqpLink s) (downstreamAmqpLink s) (channelCorrelationId s) (detachedHooks s)
       (messageHooks s) (uuidSeq s) (receiverAttachPending s) (senderAttachPending s)
       (senderDetachPending s) (receiverDetachPending s) (inflight s) (nextTick s)
       (receiversUp s) (sendersUp s) (trace s).
Definition set_postListeners v (s : t) :=
    mk (state s) (inputQueue s) (responseListeners s) v (internalOperations s)
       (upstreamAmqpLink s) (downstreamAmqpLink s) (channelCorrelationId s) (detachedHooks s)
       (messageHooks s) (uuidSeq s) (receiverAttachPending s) (senderAttachPending s)
       (senderDetachPending s) (receiverDetachPending s) (inflight s) (nextTick s)
       (receiversUp s) (sendersUp s) (trace s).
Definition set_internalOperations v (s : t) :=
    mk (state s) (inputQueue s) (responseListeners s) (postListeners s) v
       (upstreamAmqpLink s) (downstreamAmqpLink s) (channelCorrelationId s) (detachedHooks s)
       (messageHooks s) (uuidSeq s) (receiverAttachPending s) (senderAttachPending s)
       (senderDetachPending s) (receiverDetachPending s) (inflight s) (nextTick s)
       (receiversUp s) (sendersUp s) (trace s).
Definition set_upstreamAmqpLink v (s : t) :=
    mk (state s) (inputQueue s) (responseListeners s) (postListeners s) (internalOperations s)
       v (downstreamAmqpLink s) (channelCorrelationId s) (detachedHooks s)
       (messageHooks s) (uuidSeq s) (receiverAttachPending s) (senderAttachPending s)
       (senderDetachPending s) (receiverDetachPending s) (inflight s) (nextTick s)
       (receiversUp s) (sendersUp s) (trace s).
Definition set_downstreamAmqpLink v (s : t) :=
    mk (state s) (inputQueue s) (responseListeners s) (postListeners s) (internalOperations s)
       (upstreamAmqpLink s) v (channelCorrelationId s) (detachedHooks s)
       (messageHooks s) (uuidSeq s) (receiverAttachPending s) (senderAttachPending s)
       (senderDetachPending s) (receiverDetachPending s) (inflight s) (nextTick s)
       (receiversUp s) (sendersUp s) (trace s).
Definition set_channelCorrelationId v (s : t) :=
    mk (state s) (inputQueue s) (responseListeners s) (postListeners s) (internalOperations s)
       (upstreamAmqpLink s) (downstreamAmqpLink s) v (detachedHooks s)
       (messageHooks s) (uuidSeq s) (receiverAttachPending s) (senderAttachPending s)
       (senderDetachPending s) (receiverDetachPending s) (inflight s) (nextTick s)
       (receiversUp s) (sendersUp s) (trace s).
Definition set_detachedHooks v (s : t) :=
    mk (state s) (inputQueue s) (responseListeners s) (postListeners s) (internalOperations s)
       (upstreamAmqpLink s) (downstreamAmqpLink s) (channelCorrelationId s) v
       (messageHooks s) (uuidSeq s) (receiverAttachPending s) (senderAttachPending s)
       (senderDetachPending s) (receiverDetachPending s) (inflight s) (nextTick s)
       (receiversUp s) (sendersUp s) (trace s).
Definition set_messageHooks v (s : t) :=
    mk (state s) (inputQueue s) (responseListeners s) (postListeners s) (internalOperations s)
       (upstreamAmqpLink s) (downstreamAmqpLink s) (channelCorrelationId s) (detachedHooks s)
       v (uuidSeq s) (receiverAttachPending s) (senderAttachPending s)
       (senderDetachPending s) (receiverDetachPending s) (inflight s) (nextTick s)
       (receiversUp s) (sendersUp s) (trace s).
Definition set_uuidSeq v (s : t) :=
    mk (state s) (inputQueue s) (responseListeners s) (postListeners s) (internalOperations s)
       (upstreamAmqpLink s) (downstreamAmqpLink s) (channelCorrelationId s) (detachedHooks s)
       (messageHooks s) v (receiverAttachPending s) (senderAttachPending s)
       (senderDetachPending s) (receiverDetachPending s) (inflight s) (nextTick s)
       (receiversUp s) (sendersUp s) (trace s).
Definition set_receiverAttachPending v (s : t) :=
    mk (state s) (inputQueue s) (responseListeners s) (postListeners s) (internalOperations s)
       (upstreamAmqpLink s) (downstreamAmqpLink s) (channelCorrelationId s) (detachedHooks s)
       (messageHooks s) (uuidSeq s) v (senderAttachPending s)
       (senderDetachPending s) (receiverDetachPending s) (inflight s) (nextTick s)
       (receiversUp s) (sendersUp s) (trace s).
Definition set_senderAttachPending v (s : t) :=
    mk (state s) (inputQueue s) (responseListeners s) (postListeners s) (internalOperations s)
       (upstreamAmqpLink s) (downstreamAmqpLink s) (channelCorrelationId s) (detachedHooks s)
       (messageHooks s) (uuidSeq s) (receiverAttachPending s) v
       (senderDetachPending s) (receiverDetachPending s) (inflight s) (nextTick s)
       (receiversUp s) (sendersUp s) (trace s).
Definition set_senderDetachPending v (s : t) :=
    mk (state s) (inputQueue s) (responseListeners s) (postListeners s) (internalOperations s)
       (upstreamAmqpLink s) (downstreamAmqpLink s) (channelCorrelationId s) (detachedHooks s)
       (messageHooks s) (uuidSeq s) (receiverAttachPending s) (senderAttachPending s)
       v (receiverDetachPending s) (inflight s) (nextTick s)
       (receiversUp s) (sendersUp s) (trace s).
Definition set_receiverDetachPending v (s : t) :=
    mk (state s) (inputQueue s) (responseListeners s) (postListeners s) (internalOperations s)
       (upstreamAmqpLink s) (downstreamAmqpLink s) (channelCorrelationId s) (detachedHooks s)
       (messageHooks s) (uuidSeq s) (receiverAttachPending s) (senderAttachPending s)
       (senderDetachPending s) v (inflight s) (nextTick s)
       (receiversUp s) (sendersUp s) (trace s).
Definition set_inflight v (s : t) :=
    mk (state s) (inputQueue s) (responseListeners s) (postListeners s) (internalOperations s)
       (upstreamAmqpLink s) (downstreamAmqpLink s) (channelCorrelationId s) (detachedHooks s)
       (messageHooks s) (uuidSeq s) (receiverAttachPending s) (senderAttachPending s)
       (senderDetachPending s) (receiverDetachPending s) v (nextTick s)
       (receiversUp s) (sendersUp s) (trace s).
Definition set_nextTick v (s : t) :=
    mk (state s) (inputQueue s) (responseListeners s) (postListeners s) (internalOperations s)
       (upstreamAmqpLink s) (downstreamAmqpLink s) (channelCorrelationId s) (detachedHooks s)
       (messageHooks s) (uuidSeq s) (receiverAttachPending s) (senderAttachPending s)
       (senderDetachPending s) (receiverDetachPending s) (inflight s) v
       (receiversUp s) (sendersUp s) (trace s).
Definition set_receiversUp v (s : t) :=
    mk (state s) (inputQueue s) (responseListeners s) (postListeners s) (internalOperations s)
       (upstreamAmqpLink s) (downstreamAmqpLink s) (channelCorrelationId s) (detachedHooks s)
       (messageHooks s) (uuidSeq s) (receiverAttachPending s) (senderAttachPending s)
       (senderDetachPending s) (receiverDetachPending s) (inflight s) (nextTick s)
       v (sendersUp s) (trace s).
Definition set_sendersUp v (s : t) :=
    mk (state s) (inputQueue s) (responseListeners s) (postListeners s) (internalOperations s)
       (upstreamAmqpLink s) (downstreamAmqpLink s) (channelCorrelationId s) (detachedHooks s)
       (messageHooks s) (uuidSeq s) (receiverAttachPending s) (senderAttachPending s)
       (senderDetachPending s) (receiverDetachPending s) (inflight s) (nextTick s)
       (receiversUp s) v (trace s).
Definition set_trace v (s : t) :=
    mk (state s) (inputQueue s) (responseListeners s) (postListeners s) (internalOperations s)
       (upstreamAmqpLink s) (downstreamAmqpLink s) (channelCorrelationId s) (detachedHooks s)
       (messageHooks s) (uuidSeq s) (receiverAttachPending s) (senderAttachPending s)
       (senderDetachPending s) (receiverDetachPending s) (inflight s) (nextTick s)
       (receiversUp s) (sendersUp s) v.

Definition emit (e : Effect) : M t unit :=
    modify (fun s => set_trace (trace s ++ [e]) s).

Fixpoint ops_get (k : string) (o : list (string * Continuation)) : option Continuation :=
    match o with
    | [] => None
    | (k', c) :: rest => if String.eqb k k' then Some c else ops_get k rest
    end.

Fixpoint ops_set (k : string) (c : Continuation) (o : list (string * Continuation))
    : list (string * Continuation) :=
    match o with
    | [] => [(k, c)]
    | (k', c') :: rest =>
        if String.eqb k k' then (k, c) :: rest else (k', c') :: ops_set k c rest
    end.

Fixpoint ops_delete (k : string) (o : list (string * Continuation))
    : list (string * Continuation) :=
    match o with
    | [] => []
    | (k', c') :: rest =>
        if String.eqb k k' then rest else (k', c') :: ops_delete k rest
    end.

Definition notifications_resource : string := "/notifications/twin/properties/desired".

Section WithConfig.

(** [uuid.v4()]: the [n]-th identifier drawn. *)
Variable uuid_v4 : nat -> string.
(** [endpoint.devicePath(config.deviceId) + '/twin/'], the address of both links. *)
Variable twinEndpoint : string.

Definition fresh_uuid : M t string :=
    s <- get ;;
    modify (set_uuidSeq (S (uuidSeq s))) ;;
    ret (uuid_v4 (uuidSeq s)).

(** [_handleError] *)
Definition handleError (err : JsError) : M t unit := emit (EmitError err).

(** [send] *)
Definition send (m : AmqpMessage) (done : option Callback) : M t unit :=
    s <- get ;;
    match upstreamAmqpLink s with
    | None => throw (cannot_read "send")
    | Some l =>
        emit (UpstreamSend l m) ;;
        modify (fun s => set_inflight (inflight s ++ [done]) s)
    end.

(** [_sendTwinRequest] *)
Definition _sendTwinRequest (method resource properties body : JsValue)
             (done : option Callback) : M t unit :=
    match twin_request_message method resource properties body with
    | Thrown e => throw e
    | Normal amqpMessage => send amqpMessage done
    end.

(** [connecting._onEnter]; the callback of [attachReceiverLink] runs later. *)
Definition connecting_onEnter : M t unit :=
    linkCorrelationId <- fresh_uuid ;;
    modify (set_channelCorrelationId ("twin:" ++ linkCorrelationId)) ;;
    emit (AttachReceiverLink twinEndpoint ("twin:" ++ linkCorrelationId)) ;;
    modify (fun s => set_receiverAttachPending (S (receiverAttachPending s)) s).

(** [connected._onEnter] and [connected._onExit] *)
Definition connected_onEnter : M t unit :=
    s <- get ;;
    match downstreamAmqpLink s with
    | None => throw (cannot_read "on")
    | Some l => modify (fun s => set_messageHooks (messageHooks s ++ [l]) s)
    end.

Definition connected_onExit : M t unit :=
    s <- get ;;
    match downstreamAmqpLink s with
    | None => throw (cannot_read "off")
    | Some l => modify (fun s => set_messageHooks (remove_listener l (messageHooks s)) s)
    end.

(** [transition('connecting')] out of ['disconnected']. *)
Definition to_connecting : M t unit :=
    modify (set_state connecting) ;;
    emit (Transition connecting) ;;
    connecting_onEnter.

(** Arrival in ['disconnected'] with [disconnected._onEnter]. *)
Definition to_disconnected : M t unit :=
    modify (set_state disconnected) ;;
    emit (Transition disconnected) ;;
    s <- get ;;
    if Nat.ltb 0 (postListeners s + responseListeners s)
    then to_connecting
    else ret tt.

(** Arrival in ['disconnecting'] with [disconnecting._onEnter]: the
      sender link is asked to detach and the machine moves on at once. *)
Definition to_disconnecting : M t unit :=
    modify (set_state disconnecting) ;;
    emit (Transition disconnecting) ;;
    emit (DetachSenderLink twinEndpoint) ;;
    modify (set_sendersUp []) ;;
    modify (fun s => set_senderDetachPending (S (senderDetachPending s)) s) ;;
    to_disconnected.

Definition to_connected : M t unit :=
    modify (set_state connected) ;;
    emit (Transition connected) ;;
    connected_onEnter.

(** machina's [transition] up to and including [_onEnter]. *)
Definition transition_core (newState : TwinState) : M t unit :=
    s <- get ;;
    if TwinState_eqb (state s) newState then ret tt
    else
      (match state s with
       | connected => connected_onExit
       | _ => ret tt
       end) ;;
      match newState with
      | disconnected => to_disconnected
      | connecting => to_connecting
      | connected => to_connected
      | disconnecting => to_disconnecting
      end.

Definition deferUntilTransition (untilState : TwinState) (i : Input) : M t unit :=
    modify (fun s => set_inputQueue (inputQueue s ++ [(untilState, i)]) s).

Definition is_twin_event (e : EventName) : bool :=
    match e with response | post => true | other_event => false end.

(** A PUT or DELETE on the notification resource, registered as an
      internal operation under a fresh correlation id. *)
Definition internal_request (method : string) (k : Continuation) : M t unit :=
    correlationId <- fresh_uuid ;;
    modify (fun s => set_internalOperations
                       (ops_set correlationId k (internalOperations s)) s) ;;
    (* this.sendTwinRequest(...): handled by connected.sendTwinRequest *)
    _sendTwinRequest (JsStr method) (JsStr notifications_resource)
                     (JsObj [("$rid", JsStr correlationId)]) (JsStr " ") None.

Definition handle_with (transition : TwinState -> M t unit) (i : Input) : M t unit :=
    s <- get ;;
    match state s, i with
    | disconnected, handleNewListener eventName =>
        if is_twin_event eventName
        then deferUntilTransition connected i ;; transition connecting
        else ret tt
    | disconnected, handleRemoveListener _ => ret tt
    | disconnected, sendTwinRequest _ _ _ _ _ =>
        deferUntilTransition connected i ;; transition connecting
    | disconnected, handleDownstreamLinkDetach => ret tt
    | connecting, handleDownstreamLinkDetach => ret tt       (* no handler *)
    | connecting, _ => deferUntilTransition connected i
    | connected, handleNewListener response =>
        emit (EmitSubscribed response (upstreamAmqpLink s))
    | connected, handleNewListener post => internal_request "PUT" emit_subscribed_post
    | connected, handleNewListener other_event => ret tt
    | connected, handleRemoveListener post =>
        if Nat.eqb (postListeners s) 0
        then internal_request "DELETE" turned_off_notification
        else ret tt
    | connected, handleRemoveListener _ => ret tt
    | connected, sendTwinRequest method resource properties body done =>
        _sendTwinRequest method resource properties body done
    | connected, handleDownstreamLinkDetach => transition disconnecting
    | disconnecting, handleDownstreamLinkDetach => ret tt    (* no handler *)
    | disconnecting, _ => deferUntilTransition connected i
    end.

Definition processQueue (handle : Input -> M t unit) : M t unit :=
    s <- get ;;
    let ready := filter (fun p => TwinState_eqb (fst p) (state s)) (inputQueue s) in
    let rest := filter (fun p => negb (TwinState_eqb (fst p) (state s))) (inputQueue s) in
    modify (set_inputQueue rest) ;;
    for_each (fun p => handle (snd p)) ready.

(** machina's [transition].  Inputs are only deferred until ['connected'],
      whose [_onEnter] makes no transition, and the handlers of the inputs
      that can be deferred make none in ['connected'] either. *)
Definition transition (newState : TwinState) : M t unit :=
    s <- get ;;
    if TwinState_eqb (state s) newState then ret tt
    else
      transition_core newState ;;
      match newState with
      | connected => processQueue (handle_with transition_core)
      | _ => ret tt
      end.

Definition handle : Input -> M t unit := handle_with transition.

(** The public [sendTwinRequest]. *)
Definition sendTwinRequest_method (method resource properties body : JsValue)
             (done : option Callback) : M t unit :=
    handle (sendTwinRequest method resource properties body done).

(** The callback given to [attachSenderLink]. *)
Definition sender_attach_callback (r : JsError + LinkObject) : M t unit :=
    match r with
    | inl senderLinkError =>
        handleError senderLinkError ;;
        transition disconnected ;;
        emit (EmitErrorReceived None)      (* receiverLinkError, which is not set here *)
    | inr senderTransportObject =>
        modify (set_upstreamAmqpLink (Some senderTransportObject)) ;;
        modify (fun s => set_sendersUp (sendersUp s ++ [senderTransportObject]) s) ;;
        transition connected
    end.

(** The callback given to [attachReceiverLink]. *)
Definition receiver_attach_callback (r : JsError + LinkObject) : M t unit :=
    match r with
    | inl receiverLinkError =>
        handleError receiverLinkError ;;
        transition disconnected ;;
        emit (EmitErrorReceived (Some receiverLinkError))
    | inr receiverTransportObject =>
        modify (set_downstreamAmqpLink (Some receiverTransportObject)) ;;
        modify (fun s => set_receiversUp (receiversUp s ++ [receiverTransportObject]) s) ;;
        modify (fun s => set_detachedHooks (detachedHooks s ++ [receiverTransportObject]) s) ;;
        s <- get ;;
        emit (AttachSenderLink twinEndpoint (channelCorrelationId s)) ;;
        modify (fun s => set_senderAttachPending (S (senderAttachPending s)) s)
    end.

(** The callback given to [detachSenderLink] by [disconnecting._onEnter]. *)
Definition sender_detach_callback (err : option JsError) : M t unit :=
    s <- get ;;
    emit (DetachReceiverLink (downstreamAmqpLink s)) ;;
    (match downstreamAmqpLink s with
     | Some l => modify (fun s => set_receiversUp (List.remove Nat.eq_dec l (receiversUp s)) s)
     | None => ret tt
     end) ;;
    modify (fun s => set_receiverDetachPending (S (receiverDetachPending s)) s).

(** [_onResponseMessage], for a message with correlation id [cid]. *)
Definition onResponseMessage (cid : string) (message : Inbound) : M t unit :=
    s <- get ;;
    match ops_get cid (internalOperations s) with
    | Some k =>
        modify (set_internalOperations (ops_delete cid (internalOperations s))) ;;
        match k with
        | emit_subscribed_post => emit (EmitSubscribed post (upstreamAmqpLink s))
        | turned_off_notification => ret tt
        end
    | None => emit (EmitResponse cid (in_data message))
    end.

(** [_onAmqpMessage] *)
Definition onAmqpMessage (message : Inbound) : M t unit :=
    match in_correlationId message, in_data message with
    | Some cid, _ =>
        if String.eqb cid "" then
          match in_data message with
          | Some _ => emit (EmitPost (in_data message))
          | None => ret tt
          end
        else onResponseMessage cid message
    | None, Some _ => emit (EmitPost (in_data message))
    | None, None => ret tt
    end.

Inductive Event :=
  | add_listener (eventName : EventName)
  | remove_listener_of (eventName : EventName)
  | call_sendTwinRequest (method resource properties body : JsValue) (done : option Callback)
  | receiver_attach_result (r : JsError + LinkObject)
  | sender_attach_result (r : JsError + LinkObject)
  | sender_detach_result (err : option JsError)
  | receiver_detach_result (err : option JsError)
  | downstream_detached (l : LinkObject)
  | downstream_message (l : LinkObject) (message : Inbound)
  | send_fulfilled (k : nat) (d : Disposition)
  | send_rejected (k : nat) (err : JsError)
  | tick.

Definition count_listener (eventName : EventName) (f : nat -> nat) : M t unit :=
    match eventName with
    | response => modify (fun s => set_responseListeners (f (responseListeners s)) s)
    | post => modify (fun s => set_postListeners (f (postListeners s)) s)
    | other_event => ret tt
    end.

Definition safeCallback (cb : option Callback) (err : option JsError)
             (result : option Disposition) : M t unit :=
    match cb with
    | Some c => modify (fun s => set_nextTick (nextTick s ++ [(c, err, result)]) s)
    | None => ret tt
    end.

Definition step (e : Event) : M t unit :=
    match e with
    | add_listener eventName =>
        (* 'newListener' is emitted before the listener is added *)
        handle (handleNewListener eventName) ;;
        count_listener eventName S
    | remove_listener_of eventName =>
        (* a registered listener is removed; 'removeListener' is emitted
           after the removal *)
        count_listener eventName pred ;;
        handle (handleRemoveListener eventName)
    | call_sendTwinRequest method resource properties body done =>
        sendTwinRequest_method method resource properties body done
    | receiver_attach_result r =>
        s <- get ;;
        match receiverAttachPending s with
        | S n => modify (set_receiverAttachPending n) ;; receiver_attach_callback r
        | O => ret tt
        end
    | sender_attach_result r =>
        s <- get ;;
        match senderAttachPending s with
        | S n => modify (set_senderAttachPending n) ;; sender_attach_callback r
        | O => ret tt
        end
    | sender_detach_result err =>
        s <- get ;;
        match senderDetachPending s with
        | S n => modify (set_senderDetachPending n) ;; sender_detach_callback err
        | O => ret tt
        end
    | receiver_detach_result err =>
        s <- get ;;
        match receiverDetachPending s with
        | S n => modify (set_receiverDetachPending n)
        | O => ret tt
        end
    | downstream_detached l =>
        s <- get ;;
        modify (set_receiversUp (List.remove Nat.eq_dec l (receiversUp s))) ;;
        repeat_n (count_occ Nat.eq_dec (detachedHooks s) l) (handle handleDownstreamLinkDetach)
    | downstream_message l message =>
        s <- get ;;
        repeat_n (count_occ Nat.eq_dec (messageHooks s) l) (onAmqpMessage message)
    | send_fulfilled k d =>
        s <- get ;;
        match nth_error (inflight s) k with
        | Some cb =>
            modify (set_inflight (remove_nth k (inflight s))) ;;
            safeCallback cb None (Some d)
        | None => ret tt
        end
    | send_rejected k err =>
        s <- get ;;
        match nth_error (inflight s) k with
        | Some cb =>
            modify (set_inflight (remove_nth k (inflight s))) ;;
            safeCallback cb (Some err) None
        | None => ret tt
        end
    | tick =>
        s <- get ;;
        match nextTick s with
        | (cb, err, result) :: rest =>
            modify (set_nextTick rest) ;;
            emit (DoneCallback cb err result)
        | [] => ret tt
        end
    end.

Definition run (es : list Event) (s : t) : t :=
    fold_left (fun s e => exec (step e) s) es s.

End WithConfig.

End Twin.

(** ** AmqpSenderLinkFsm (the sender link state machine of
    unnamed/part_000) *)

Module SenderLinkFsm.

(** The function given to [attach]: a caller's callback, or the closure
      that [detached.send] passes, which fails the queue on an error. *)
Inductive AttachFn :=
  | user_callback (cb : Callback)
  | fail_queue_if_err.

(** Inputs of the state machine.  [send] carries the two arguments that
      follow the message in [_fsm.handle('send', ...)]: the public [send]
      passes its callback as the first of them and nothing as the second;
      [attached._onEnter] passes [toSend.to] and [toSend.callback]. *)
Inductive Input :=
  | attach (callback : option AttachFn)
  | detach (callback : option Callback)
  | send (message : Message) (arg1 arg2 : option Callback).

(** An entry of [_messageQueue]. *)
Record QueueItem := mkItem {
    message : Message;
    to : option Callback;
    callback : option Callback
  }.

Inductive Effect :=
  | CreateSender                              (* _amqp10Client.createSender(...) *)
  | LinkSend (l : LinkObject) (m : Message)   (* _linkObject.send(message) *)
  | ForceDetach (l : LinkObject)              (* _linkObject.forceDetach() *)
  | AttachCallback (cb : Callback) (err : option JsError)
  | DetachCallback (cb : Callback)
  | SendCallback (cb : Callback) (err : option JsError) (result : option Disposition).

Record t := mk {
    state : FsmState;
    inputQueue : list (FsmState * Input);
    linkObject : option LinkObject;
    messageQueue : list QueueItem;
    attachCallback : option AttachFn;
    (* link objects on which [_detachHandler] has been registered; the
       'detached' event of a link object is not part of this model *)
    detachedListeners : list LinkObject;
    (* unsettled createSender promises: the connectionError captured so
       far, and the [callback] of the [detached.attach] call that made it *)
    pendingCreate : list (option JsError * option AttachFn);
    inflight : list (option Callback);
    nextTick : list (Callback * option JsError * option Disposition);
    trace : list Effect;
    (* machina's flag, left set when an [_onExit] handler throws *)
    inExitHandler : bool
  }.

Definition init : t := mk detached [] None [] None [] [] [] [] [] false.

Definition set_state v (s : t) :=
    mk v (inputQueue s) (linkObject s) (messageQueue s) (attachCallback s)
       (detachedListeners s) (pendingCreate s) (inflight s) (nextTick s) (trace s)
       (inExitHandler s).
Definition set_inputQueue v (s : t) :=
    mk (state s) v (linkObject s) (messageQueue s) (attachCallback s)
       (detachedListeners s) (pendingCreate s) (inflight s) (nextTick s) (trace s)
       (inExitHandler s).
Definition set_linkObject v (s : t) :=
    mk (state s) (inputQueue s) v (messageQueue s) (attachCallback s)
       (detachedListeners s) (pendingCreate s) (inflight s) (nextTick s) (trace s)
       (inExitHandler s).
Definition set_messageQueue v (s : t) :=
    mk (state s) (inputQueue s) (linkObject s) v (attachCallback s)
       (detachedListeners s) (pendingCreate s) (inflight s) (nextTick s) (trace s)
       (inExitHandler s).
Definition set_attachCallback v (s : t) :=
    mk (state s) (inputQueue s) (linkObject s) (messageQueue s) v
       (detachedListeners s) (pendingCreate s) (inflight s) (nextTick s) (trace s)
       (inExitHandler s).
Definition set_detachedListeners v (s : t) :=
    mk (state s) (inputQueue s) (linkObject s) (messageQueue s) (attachCallback s)
       v (pendingCreate s) (inflight s) (nextTick s) (trace s) (inExitHandler s).
Definition set_pendingCreate v (s : t) :=
    mk (state s) (inputQueue s) (linkObject s) (messageQueue s) (attachCallback s)
       (detachedListeners s) v (inflight s) (nextTick s) (trace s) (inExitHandler s).
Definition set_inflight v (s : t) :=
    mk (state s) (inputQueue s) (linkObject s) (messageQueue s) (attachCallback s)
       (detachedListeners s) (pendingCreate s) v (nextTick s) (trace s) (inExitHandler s).
Definition set_nextTick v (s : t) :=
    mk (state s) (inputQueue s) (linkObject s) (messageQueue s) (attachCallback s)
       (detachedListeners s) (pendingCreate s) (inflight s) v (trace s) (inExitHandler s).
Definition set_trace v (s : t) :=
    mk (state s) (inputQueue s) (linkObject s) (messageQueue s) (attachCallback s)
       (detachedListeners s) (pendingCreate s) (inflight s) (nextTick s) v (inExitHandler s).
Definition set_inExitHandler v (s : t) :=
    mk (state s) (inputQueue s) (linkObject s) (messageQueue s) (attachCallback s)
       (detachedListeners s) (pendingCreate s) (inflight s) (nextTick s) (trace s) v.

Definition emit (e : Effect) : M t unit :=
    modify (fun s => set_trace (trace s ++ [e]) s).

(** The [shift]/[while (toSend)] loops that fail the queue: each item is
      taken off [_messageQueue] and then [toSend.callback(err)] is called. *)
Fixpoint fail_queue (err : JsError) (q : list QueueItem) : M t unit :=
    match q with
    | [] => ret tt
    | toSend :: rest =>
        modify (set_messageQueue rest) ;;
        (match callback toSend with
         | Some c => emit (SendCallback c (Some err) None)
         | None => throw (not_a_function "toSend.callback")
         end) ;;
        fail_queue err rest
    end.

(** A call of the function given to [attach], with [err]. *)
Definition call_attach_fn (f : AttachFn) (err : option JsError) : M t unit :=
    match f with
    | user_callback cb => emit (AttachCallback cb err)
    | fail_queue_if_err =>
        match err with
        | Some e => s <- get ;; fail_queue e (messageQueue s)
        | None => ret tt
        end
    end.

(** [_attachLink(endpoint, linkOptions, done)], where [done] is the closure
      of [detached.attach] over its [callback]. *)
Definition attachLink (callback : option AttachFn) : M t unit :=
    emit CreateSender ;;
    modify (fun s => set_pendingCreate (pendingCreate s ++ [(None, callback)]) s).

(** [_detachLink] *)
Definition detachLink : M t unit :=
    s <- get ;;
    match linkObject s with
    | None => throw (cannot_read "forceDetach")
    | Some l => emit (ForceDetach l) ;; modify (set_linkObject None)
    end.

(** [attached.send]: its second parameter is the callback. *)
Definition attached_send (m : Message) (cb : option Callback) : M t unit :=
    s <- get ;;
    match linkObject s with
    | None => throw (cannot_read "send")
    | Some l =>
        emit (LinkSend l m) ;;
        modify (fun s => set_inflight (inflight s ++ [cb]) s)
    end.

(** The loop of [attached._onEnter]: the machine is in ['attached'], so
      [_fsm.handle('send', toSend.message, toSend.to, toSend.callback)] runs
      [attached.send] with [toSend.to] as its callback. *)
Fixpoint drain_queue (q : list QueueItem) : M t unit :=
    match q with
    | [] => ret tt
    | toSend :: rest =>
        modify (set_messageQueue rest) ;;
        attached_send (message toSend) (to toSend) ;;
        drain_queue rest
    end.

(** [attached._onEnter] *)
Definition attached_onEnter : M t unit :=
    s <- get ;;
    match linkObject s with
    | None => throw (cannot_read "on")
    | Some l =>
        modify (fun s => set_detachedListeners (detachedListeners s ++ [l]) s) ;;
        (match attachCallback s with
         | Some f => call_attach_fn f None
         | None => ret tt
         end) ;;
        s1 <- get ;;
        drain_queue (messageQueue s1)
    end.

(** [attached._onExit] *)
Definition attached_onExit : M t unit :=
    s <- get ;;
    match linkObject s with
    | None => throw (cannot_read "removeListener")
    | Some l =>
        modify (fun s => set_detachedListeners
                           (remove_listener l (detachedListeners s)) s)
    end.

(** [new Error('link is being detached')] *)
Definition being_detached_error : JsError := mkError Error "link is being detached".

(** [detaching._onEnter] *)
Definition detaching_onEnter : M t unit :=
    s <- get ;; fail_queue being_detached_error (messageQueue s).

(** How machina runs an [_onExit] handler. *)
Definition in_exit_handler (onExit : M t unit) : M t unit :=
    try_catch onExit
              (fun e => modify (set_inExitHandler true) ;; throw e).

(** machina's [transition] up to and including [_onEnter]. *)
Definition transition_core (newState : FsmState) : M t unit :=
    s <- get ;;
    if inExitHandler s || FsmState_eqb (state s) newState then ret tt
    else
      (match state s with
       | attached => in_exit_handler attached_onExit
       | _ => ret tt
       end) ;;
      modify (set_state newState) ;;
      match newState with
      | attached => attached_onEnter
      | detaching => detaching_onEnter
      | detached | attaching => ret tt
      end.

Definition deferUntilTransition (untilState : FsmState) (i : Input) : M t unit :=
    modify (fun s => set_inputQueue (inputQueue s ++ [(untilState, i)]) s).

(** [detached.attach] *)
Definition detached_attach (transition : FsmState -> M t unit)
             (callback : option AttachFn) : M t unit :=
    modify (set_attachCallback callback) ;;
    transition attaching ;;
    attachLink callback.

(** The handler table, over the [transition] function its handlers use.
      A state without a handler for an input, and without ['*'], ignores it. *)
Definition handle_with (transition : FsmState -> M t unit) (i : Input) : M t unit :=
    s <- get ;;
    if inExitHandler s then ret tt else
    match state s, i with
    | detached, attach cb => detached_attach transition cb
    | detached, detach cb =>
        match cb with
        | Some c => emit (DetachCallback c)
        | None => ret tt
        end
    | detached, send m to_ callback_ =>
        modify (fun s => set_messageQueue
                           (messageQueue s ++ [mkItem m to_ callback_]) s) ;;
        (* this._fsm.handle('attach', closure): the machine is 'detached' *)
        detached_attach transition (Some fail_queue_if_err)
    | attaching, detach _ =>
        transition detaching ;;
        detachLink ;;
        transition detached
    | attaching, attach _ => deferUntilTransition attached i
    | attaching, send _ _ _ => ret tt      (* no handler *)
    | attached, attach cb =>
        match cb with
        | Some f => call_attach_fn f None
        | None => throw (not_a_function "callback")
        end
    | attached, detach _ =>
        transition detaching ;;
        detachLink ;;
        transition detached
    | attached, send m callback_ _ => attached_send m callback_
    | detaching, _ => deferUntilTransition detached i
    end.

Definition processQueue (handle : Input -> M t unit) : M t unit :=
    s <- get ;;
    let ready := filter (fun p => FsmState_eqb (fst p) (state s)) (inputQueue s) in
    let rest := filter (fun p => negb (FsmState_eqb (fst p) (state s))) (inputQueue s) in
    modify (set_inputQueue rest) ;;
    for_each (fun p => handle (snd p)) ready.

(** machina's [transition].  Inputs are deferred until ['attached'] or
      ['detached'] only; a handler replayed in ['attached'] makes no
      transition, and one replayed on arrival in ['detached'] moves at most
      to ['attaching'] or ['detaching'], for which nothing is deferred. *)
Definition transition (newState : FsmState) : M t unit :=
    s <- get ;;
    if inExitHandler s || FsmState_eqb (state s) newState then ret tt
    else
      transition_core newState ;;
      processQueue (handle_with transition_core).

Definition handle : Input -> M t unit := handle_with transition.

(** [new errors.NotConnectedError('AMQP: Could not create sender')] *)
Definition could_not_create_sender : JsError :=
    mkError NotConnectedError "AMQP: Could not create sender".

(** The [done] closure that [detached.attach] gives to [_attachLink]. *)
Definition attach_done (callback : option AttachFn) (err : option JsError) : M t unit :=
    let newState := match err with Some _ => detaching | None => attached end in
    transition newState ;;
    match callback with
    | Some f => call_attach_fn f err
    | None => ret tt
    end.

(** The [then] and [catch] continuations of [createSender] in [_attachLink]. *)
Definition createSender_then (connectionError : option JsError)
             (callback : option AttachFn) (sender : LinkObject) : M t unit :=
    try_catch
      (modify (fun s => set_detachedListeners (detachedListeners s ++ [sender]) s) ;;
       (match connectionError with
        | None => modify (set_linkObject (Some sender))
        | Some _ => ret tt
        end) ;;
       attach_done callback connectionError)
      (fun _ => attach_done callback (Some could_not_create_sender)).

Definition createSender_catch (callback : option AttachFn) : M t unit :=
    attach_done callback (Some could_not_create_sender).

Definition safeCallback (cb : option Callback) (err : option JsError)
             (result : option Disposition) : M t unit :=
    match cb with
    | Some c => modify (fun s => set_nextTick (nextTick s ++ [(c, err, result)]) s)
    | None => ret tt
    end.

(** Public methods. *)
Definition attach_method (cb : option Callback) : M t unit :=
    handle (attach (option_map user_callback cb)).
Definition detach_method : M t unit := handle (detach None).
Definition send_method (m : Message) (cb : option Callback) : M t unit :=
    handle (send m cb None).

Inductive Event :=
  | call_attach (cb : option Callback)
  | call_detach
  | call_send (m : Message) (cb : option Callback)
  | createSender_resolved (k : nat) (sender : LinkObject)
  | createSender_rejected (k : nat) (err : JsError)
  | client_errorReceived (err : JsError)
  | send_fulfilled (k : nat) (d : Disposition)
  | send_rejected (k : nat) (err : JsError)
  | tick.

Definition step (e : Event) : M t unit :=
    match e with
    | call_attach cb => attach_method cb
    | call_detach => detach_method
    | call_send m cb => send_method m cb
    | createSender_resolved k sender =>
        s <- get ;;
        match nth_error (pendingCreate s) k with
        | Some (connectionError, callback) =>
            modify (set_pendingCreate (remove_nth k (pendingCreate s))) ;;
            createSender_then connectionError callback sender
        | None => ret tt
        end
    | createSender_rejected k err =>
        s <- get ;;
        match nth_error (pendingCreate s) k with
        | Some (_, callback) =>
            modify (set_pendingCreate (remove_nth k (pendingCreate s))) ;;
            createSender_catch callback
        | None => ret tt
        end
    | client_errorReceived err =>
        modify (fun s => set_pendingCreate
                           (map (fun p => (Some err, snd p)) (pendingCreate s)) s)
    | send_fulfilled k d =>
        s <- get ;;
        match nth_error (inflight s) k with
        | Some cb =>
            modify (set_inflight (remove_nth k (inflight s))) ;;
            safeCallback cb None (Some d)
        | None => ret tt
        end
    | send_rejected k err =>
        s <- get ;;
        match nth_error (inflight s) k with
        | Some cb =>
            modify (set_inflight (remove_nth k (inflight s))) ;;
            safeCallback cb (Some err) None
        | None => ret tt
        end
    | tick =>
        s <- get ;;
        match nextTick s with
        | (cb, err, result) :: rest =>
            modify (set_nextTick rest) ;;
            emit (SendCallback cb err result)
        | [] => ret tt
        end
    end.

Definition run (es : list Event) (s : t) : t :=
    fold_left (fun s e => exec (step e) s) es s.

End SenderLinkFsm.

(** * Properties *)

Local Open Scope list_scope.

(** ** Reasoning about computations *)

Lemma FsmState_eqb_spec a b : reflect (a = b) (FsmState_eqb a b).
Proof. destruct a, b; simpl; constructor; congruence. Qed.

(** [preserves P c]: [P] survives [c], whether [c] completes or throws. *)
Definition preserves {S A} (P : S -> Prop) (c : M S A) : Prop :=
  forall s, P s -> P (snd (c s)).

Section Preserves.
Context {S : Type} (P : S -> Prop).

Lemma preserves_ret {A} (a : A) : preserves P (ret a).
Proof. intros s H; exact H. Qed.

Lemma preserves_throw {A} e : preserves P (@throw S A e).
Proof. intros s H; exact H. Qed.

Lemma preserves_get : preserves P get.
Proof. intros s H; exact H. Qed.

Lemma preserves_modify f : (forall s, P s -> P (f s)) -> preserves P (modify f).
Proof. intros Hf s H; simpl; auto. Qed.

Lemma preserves_bind {A B} (c : M S A) (k : A -> M S B) :
    preserves P c -> (forall a, preserves P (k a)) -> preserves P (bind c k).
Proof.
    intros Hc Hk s H. unfold bind.
    specialize (Hc s H). destruct (c s) as [[a|e] s']; simpl in *; auto.
    apply Hk; auto.
Qed.

Lemma preserves_get_bind {B} (k : S -> M S B) :
    (forall s0, P s0 -> preserves P (k s0)) -> preserves P (bind get k).
Proof. intros Hk s H. unfold bind, get. apply (Hk s H s H). Qed.

Lemma preserves_try_catch {A} (c : M S A) h :
    preserves P c -> (forall e, preserves P (h e)) -> preserves P (try_catch c h).
Proof.
    intros Hc Hh s H. unfold try_catch.
    specialize (Hc s H). destruct (c s) as [[a|e] s']; simpl in *; auto.
    apply Hh; auto.
Qed.

Lemma preserves_for_each {A} (body : A -> M S unit) xs :
    (forall x, preserves P (body x)) -> preserves P (for_each body xs).
Proof.
    intros Hb. induction xs as [|x xs IH]; simpl.
    - apply preserves_ret.
    - apply preserves_bind; auto.
Qed.

Lemma preserves_repeat_n n (body : M S unit) :
    preserves P body -> preserves P (repeat_n n body).
Proof.
    intros Hb. induction n as [|n IH]; simpl.
    - apply preserves_ret.
    - apply preserves_bind; auto.
Qed.

End Preserves.

(** One syntax-directed step of a [preserves] proof. *)
Ltac pres_step :=
  match goal with
  | |- preserves _ (ret _) => apply preserves_ret
  | |- preserves _ (throw _) => apply preserves_throw
  | |- preserves _ get => apply preserves_get
  | |- preserves _ (bind get _) => apply preserves_get_bind; intros ? ?
  | |- preserves _ (bind _ _) => apply preserves_bind; [| intro]
  | |- preserves _ (try_catch _ _) => apply preserves_try_catch; [| intro]
  | |- preserves _ (for_each _ _) => apply preserves_for_each; intro
  | |- preserves _ (repeat_n _ _) => apply preserves_repeat_n
  | |- preserves _ (match ?x with _ => _ end) => destruct x
  | |- preserves _ (let (_, _) := ?x in _) => destruct x
  end.

Ltac pres := repeat pres_step.

(** ** C10: attach on an attached link or agent *)


(** Identifiers for concrete runs. *)
Definition test_uuid (n : nat) : string :=
  ("uuid-" ++ Z_to_string (Z.of_nat n))%string.

(** Attached instances reached from the constructors. *)
Definition attached_sender : SenderLink.t :=
  SenderLink.run [SenderLink.call_attach (Some 1); SenderLink.createSender_resolved 0 7]
                 SenderLink.init.

Definition attached_receiver : ReceiverLink.t :=
  ReceiverLink.run [ReceiverLink.call_attach (Some 1);
                    ReceiverLink.createReceiver_resolved 0 8;
                    ReceiverLink.tick]
                   ReceiverLink.init.

Definition attached_agent : Cbs.t :=
  Cbs.run test_uuid
          [Cbs.call_attach 0 (Some 1); Cbs.sender_attached 0 None;
           Cbs.receiver_attached 0 None]
          Cbs.init.


(** ** C3: detach on an attached agent *)

(** The ['detach'] input itself, handled in ['attached'], does detach both
    links and leaves the agent detached. *)
Lemma cbs_detach_input_detaches (uuid_v4 : nat -> string) (now : Z) (a : Cbs.t) :
  Cbs.state a = attached ->
  Cbs.inputQueue a = [] ->
  Cbs.handle uuid_v4 now Cbs.detach a
  = (Normal tt,
     Cbs.set_state detached
       (Cbs.set_trace (Cbs.trace a ++ [Cbs.SenderDetach; Cbs.ReceiverDetach]) a)).
Proof.
  intros Hs Hq. destruct a; simpl in *; subst.
  unfold Cbs.handle, Cbs.transition, bind, get; simpl.
  rewrite <- app_assoc. reflexivity.
Qed.

(** C3.  The public [detach(callback)] of ClaimsBasedSecurityAgent hands the
    input ['attach'] to the state machine.  On the attached agent reached by
    a successful attach it therefore calls [callback] and changes nothing
    else: the agent stays ['attached'] and neither link is asked to detach. *)
Theorem cbs_detach_stays_attached :
  Cbs.state attached_agent = attached
  /\ Cbs.detach_method test_uuid 0 (Some 9) attached_agent
     = (Normal tt,
        Cbs.set_trace (Cbs.trace attached_agent ++ [Cbs.AttachCallback 9 None])
                      attached_agent)
  /\ Cbs.state (exec (Cbs.detach_method test_uuid 0 (Some 9)) attached_agent) = attached
  /\ ~ In Cbs.SenderDetach
          (Cbs.trace (exec (Cbs.detach_method test_uuid 0 (Some 9)) attached_agent))
  /\ ~ In Cbs.ReceiverDetach
          (Cbs.trace (exec (Cbs.detach_method test_uuid 0 (Some 9)) attached_agent)).
Proof.
  repeat split; try reflexivity.
  - vm_compute. intros H. repeat (destruct H as [H | H]; [discriminate H |]). exact H.
  - vm_compute. intros H. repeat (destruct H as [H | H]; [discriminate H |]). exact H.
Qed.

(** ** C5: responses on the receiver link *)

Lemma remove_first_found cid before op after :
  Cbs.correlationId op = cid ->
  Forall (fun o => Cbs.correlationId o <> cid) before ->
  Cbs.remove_first (Some cid) (before ++ op :: after) = Some (op, before ++ after).
Proof.
  intros Hop Hb. induction before as [|b before IH]; simpl.
  - subst cid. rewrite String.eqb_refl. reflexivity.
  - inversion Hb as [|? ? Hne Hb']; subst.
    destruct (String.eqb_spec (Cbs.correlationId op) (Cbs.correlationId b)) as [E|E].
    + exfalso. apply Hne. symmetry. exact E.
    + rewrite (IH Hb'). reflexivity.
Qed.

Lemma remove_first_absent cid ops :
  (forall op, In op ops -> Some (Cbs.correlationId op) <> cid) ->
  Cbs.remove_first cid ops = None.
Proof.
  intros H. induction ops as [|b ops IH]; simpl; [reflexivity |].
  destruct cid as [c|].
  - destruct (String.eqb_spec c (Cbs.correlationId b)) as [E|E].
    + exfalso. apply (H b); [left; reflexivity | congruence].
    + rewrite IH; [reflexivity |]. intros op Hin. apply H. right. exact Hin.
  - rewrite IH; [reflexivity |]. intros op Hin. apply H. right. exact Hin.
Qed.

Lemma is_200_iff v : Cbs.is_200 v = true <-> v = Cbs.number 200.
Proof.
  destruct v; simpl; split; intros H; try discriminate.
  - apply Z.eqb_eq in H. congruence.
  - inversion H. reflexivity.
Qed.

(** What the message handler calls for a completed operation. *)
Definition response_call (op : Cbs.PutTokenOperation) (msg : Cbs.Response)
  : list Cbs.Effect :=
  match Cbs.putTokenCallback op with
  | Some cb =>
      [Cbs.PutTokenCallback cb
         (if Cbs.is_200 (Cbs.status_code msg) then Cbs.no_error
          else Cbs.unauthorized (Cbs.status_description msg))]
  | None => []
  end.

(** C5.  For a message delivered on the receiver link: when its
    correlationId is that of a pending put-token operation, the first such
    operation is taken out of the list and its callback (when it has one) is
    called once, with null exactly when the status-code is the number 200
    and with an UnauthorizedError carrying the status-description
    otherwise; when no pending operation matches, the list is left alone
    and no callback is called.  In both cases the message is then accepted
    on the receiver link. *)
Theorem cbs_response_demultiplex (a : Cbs.t) (msg : Cbs.Response) :
  (forall cid before op after,
      Cbs.msg_correlationId msg = Some cid ->
      Cbs.outstandingPutTokens a = before ++ op :: after ->
      Cbs.correlationId op = cid ->
      Forall (fun o => Cbs.correlationId o <> cid) before ->
      Cbs.on_message msg a
      = (Normal tt,
         Cbs.set_trace
           (Cbs.trace a ++ response_call op msg ++ [Cbs.ReceiverAccept (Cbs.msg_id msg)])
           (Cbs.set_outstandingPutTokens (before ++ after) a))
      /\ (forall cb, Cbs.putTokenCallback op = Some cb ->
            (Cbs.status_code msg = Cbs.number 200 ->
             response_call op msg = [Cbs.PutTokenCallback cb Cbs.no_error])
            /\ (Cbs.status_code msg <> Cbs.number 200 ->
                response_call op msg
                = [Cbs.PutTokenCallback cb
                     (Cbs.unauthorized (Cbs.status_description msg))])))
  /\ ((forall op, In op (Cbs.outstandingPutTokens a) ->
                  Some (Cbs.correlationId op) <> Cbs.msg_correlationId msg) ->
      Cbs.on_message msg a
      = (Normal tt,
         Cbs.set_trace (Cbs.trace a ++ [Cbs.ReceiverAccept (Cbs.msg_id msg)]) a)).
Proof.
  split.
  - intros cid before op after Hcid Hops Hop Hbefore. split.
    + unfold Cbs.on_message, bind, get. rewrite Hcid, Hops.
      rewrite (remove_first_found cid before op after Hop Hbefore).
      unfold response_call. destruct a; simpl.
      destruct (Cbs.putTokenCallback op);
        unfold Cbs.emit, modify, bind, ret; simpl.
      * rewrite <- app_assoc. reflexivity.
      * reflexivity.
    + intros cb Hcb. unfold response_call. rewrite Hcb. split; intros H.
      * apply is_200_iff in H. rewrite H. reflexivity.
      * destruct (Cbs.is_200 (Cbs.status_code msg)) eqn:E; [| reflexivity].
        apply is_200_iff in E. contradiction.
  - intros Habsent. unfold Cbs.on_message, bind, get.
    rewrite (remove_first_absent _ _ Habsent). destruct a; reflexivity.
Qed.

Definition two_pending : Cbs.t :=
  Cbs.set_outstandingPutTokens
    [Cbs.mkOp (Some 11) 120 "a"; Cbs.mkOp (Some 12) 121 "b"] attached_agent.

Lemma cbs_response_demultiplex_witness :
  Cbs.on_message (Cbs.mkResponse 3 (Some "b") (Cbs.number 200) Cbs.undefined) two_pending
  = (Normal tt,
     Cbs.set_trace
       (Cbs.trace two_pending
        ++ [Cbs.PutTokenCallback 12 Cbs.no_error] ++ [Cbs.ReceiverAccept 3])
       (Cbs.set_outstandingPutTokens ([Cbs.mkOp (Some 11) 120 "a"] ++ []) two_pending))
  /\ Cbs.on_message (Cbs.mkResponse 4 (Some "zz") (Cbs.number 200) Cbs.undefined) two_pending
     = (Normal tt,
        Cbs.set_trace (Cbs.trace two_pending ++ [Cbs.ReceiverAccept 4]) two_pending).
Proof.
  split.
  - apply (proj1 (cbs_response_demultiplex two_pending
                    (Cbs.mkResponse 3 (Some "b") (Cbs.number 200) Cbs.undefined))
                 "b" [Cbs.mkOp (Some 11) 120 "a"] (Cbs.mkOp (Some 12) 121 "b") []).
    + reflexivity.
    + reflexivity.
    + reflexivity.
    + constructor; [simpl; discriminate | constructor].
  - apply (proj2 (cbs_response_demultiplex two_pending
                    (Cbs.mkResponse 4 (Some "zz") (Cbs.number 200) Cbs.undefined))).
    simpl. intros op [H | [H | H]]; subst; simpl; try discriminate. contradiction.
Defined.

(** ** C4: the timeout sweep *)


Definition by_expiration (x y : Cbs.PutTokenOperation) : Prop :=
  (Cbs.expirationTime x <= Cbs.expirationTime y)%Z.

Lemma split_expired_app now ops :
  fst (Cbs.split_expired now ops) ++ snd (Cbs.split_expired now ops) = ops.
Proof.
  induction ops as [|op ops IH]; simpl; [reflexivity |].
  destruct (Z.ltb_spec (Cbs.expirationTime op) now); [| reflexivity].
  destruct (Cbs.split_expired now ops) as [expired kept]; simpl in *.
  rewrite IH. reflexivity.
Qed.




(** The call made for a timed out operation. *)
Definition timeout_call (op : Cbs.PutTokenOperation) (e : Cbs.Effect) : Prop :=
  exists cb, Cbs.putTokenCallback op = Some cb
             /\ e = Cbs.PutTokenCallback cb (Cbs.timeout Cbs.timeout_message).

Lemma timeout_calls_run ops :
  Forall (fun op => Cbs.putTokenCallback op <> None) ops ->
  exists calls,
    Forall2 timeout_call ops calls
    /\ forall a,
        for_each (fun op => Cbs.call_putTokenCallback (Cbs.putTokenCallback op)
                              (Cbs.timeout Cbs.timeout_message)) ops a
        = (Normal tt, Cbs.set_trace (Cbs.trace a ++ calls) a).
Proof.
  induction ops as [|op ops IH]; intros Hcb.
  - exists []. split; [constructor |]. intros a. simpl.
    rewrite app_nil_r. destruct a; reflexivity.
  - inversion Hcb as [|? ? Hop Hops]; subst.
    destruct (IH Hops) as [calls [Hcalls Hrun]].
    destruct (Cbs.putTokenCallback op) as [cb|] eqn:E; [| contradiction].
    exists (Cbs.PutTokenCallback cb (Cbs.timeout Cbs.timeout_message) :: calls).
    split.
    + constructor; [exists cb; auto | exact Hcalls].
    + intros a. simpl. rewrite E. unfold bind, Cbs.call_putTokenCallback, Cbs.emit, modify.
      rewrite Hrun. destruct a; simpl. rewrite <- app_assoc. reflexivity.
Qed.




(** ** C6: entering ['detached'] with queued requests *)

(** The calls that fail the requests of a queue with [err]. *)
Definition failure_call (err : JsError) (item : SenderLink.QueueItem)
           (e : SenderLink.Effect) : Prop :=
  exists cb, SenderLink.callback item = Some cb
             /\ e = SenderLink.SendCallback cb (Some err) None.

Lemma fail_queue_run err q :
  Forall (fun item => SenderLink.callback item <> None) q ->
  exists calls,
    Forall2 (failure_call err) q calls
    /\ forall s,
        SenderLink.messageQueue s = q ->
        SenderLink.fail_queue err q s
        = (Normal tt,
           SenderLink.set_messageQueue []
             (SenderLink.set_trace (SenderLink.trace s ++ calls) s)).
Proof.
  induction q as [|item q IH]; intros Hcb.
  - exists []. split; [constructor |]. intros s Hq. simpl.
    rewrite app_nil_r. destruct s; simpl in *; subst. reflexivity.
  - inversion Hcb as [|? ? Hitem Hq']; subst.
    destruct (IH Hq') as [calls [Hcalls Hrun]].
    destruct (SenderLink.callback item) as [cb|] eqn:E; [| contradiction].
    exists (SenderLink.SendCallback cb (Some err) None :: calls). split.
    + constructor; [exists cb; auto | exact Hcalls].
    + intros s Hs. simpl. rewrite E.
      unfold bind, modify, SenderLink.call_send_callback, SenderLink.emit.
      cbn. rewrite Hrun by (destruct s; reflexivity).
      destruct s; simpl. rewrite <- app_assoc. reflexivity.
Qed.






(** ** C2: where the twin request puts the caller's properties *)

Lemma obj_get_set_same k v o : obj_get k (obj_set k v o) = Some v.
Proof.
  induction o as [|[k' v'] o IH]; simpl.
  - rewrite String.eqb_refl. reflexivity.
  - destruct (String.eqb_spec k k') as [E|E]; simpl.
    + rewrite String.eqb_refl. reflexivity.
    + destruct (String.eqb_spec k k'); [contradiction | exact IH].
Qed.

Lemma obj_get_set_other k k' v o :
  k <> k' -> obj_get k (obj_set k' v o) = obj_get k o.
Proof.
  intros Hne. induction o as [|[k0 v0] o IH]; simpl.
  - destruct (String.eqb_spec k k'); [contradiction | reflexivity].
  - destruct (String.eqb_spec k' k0) as [E|E]; simpl.
    + subst k0. destruct (String.eqb_spec k k'); [contradiction | reflexivity].
    + destruct (String.eqb_spec k k0); [reflexivity | exact IH].
Qed.

(** The reading of the specification: every property other than [$rid]
    ends up in the [properties] map of the message. *)
Definition custom_properties_in_properties_map : Prop :=
  forall method resource fields body m,
    Twin.twin_request_message method resource (JsObj fields) body = Normal m ->
    forall k v, In (k, v) fields -> k <> "$rid"%string ->
                obj_get k (Twin.properties m) = Some v.

(** The request of a caller with one custom property. *)
Lemma custom_property_not_in_properties_map :
  ~ custom_properties_in_properties_map.
Proof.
  intros H.
  specialize (H (JsStr "GET") (JsStr "/properties/reported/")
                [("foo"%string, JsStr "bar")] (JsStr " ") _ eq_refl
                "foo"%string (JsStr "bar") (or_introl eq_refl)).
  simpl in H. assert (E : None = Some (JsStr "bar")) by (apply H; discriminate).
  discriminate E.
Qed.

(** One step of the [forEach] that completes normally. *)
Lemma encode_property_normal k v m m' :
  Twin.encode_property (k, v) m = (Normal tt, m') ->
  (k = "$rid"%string ->
   exists str, toString v = Normal str
               /\ Twin.messageAnnotations m' = Twin.messageAnnotations m
               /\ Twin.properties m' = obj_set "correlationId" (JsStr str) (Twin.properties m))
  /\ (k <> "$rid"%string ->
      Twin.messageAnnotations m' = obj_set k v (Twin.messageAnnotations m)
      /\ Twin.properties m' = Twin.properties m).
Proof.
  unfold Twin.encode_property.
  destruct (negb (isString v) && negb (isNumber v) && negb (isBoolean v));
    [discriminate |].
  destruct (String.eqb_spec k "$rid") as [E|E]; intros H.
  - split; [| contradiction]. intros _.
    unfold bind, Twin.lift in H. destruct (toString v) as [str|e]; [| discriminate].
    exists str. inversion H; subst. auto.
  - split; [contradiction |]. intros _. inversion H; subst. auto.
Qed.

Lemma encode_properties_normal fields :
  NoDup (keys fields) ->
  forall m m',
    for_each Twin.encode_property fields m = (Normal tt, m') ->
    (forall k v, In (k, v) fields -> k <> "$rid"%string ->
                 obj_get k (Twin.messageAnnotations m') = Some v)
    /\ (forall v, In ("$rid"%string, v) fields ->
                  exists str, toString v = Normal str
                              /\ obj_get "correlationId" (Twin.properties m')
                                 = Some (JsStr str))
    /\ (forall k, ~ In k (keys fields) ->
                  obj_get k (Twin.messageAnnotations m')
                  = obj_get k (Twin.messageAnnotations m))
    /\ (forall k, k <> "correlationId"%string ->
                  obj_get k (Twin.properties m') = obj_get k (Twin.properties m))
    /\ (~ In "$rid"%string (keys fields) -> Twin.properties m' = Twin.properties m)
    /\ Twin.body m' = Twin.body m.
Proof.
  induction fields as [|[k0 v0] fields IH]; intros Hnd m m' Hrun.
  - simpl in Hrun. unfold ret in Hrun. inversion Hrun; subst.
    repeat split; auto; intros; contradiction.
  - simpl in Hnd. inversion Hnd as [|? ? Hnotin Hnd']; subst.
    cbn [for_each] in Hrun. unfold bind in Hrun.
    destruct (Twin.encode_property (k0, v0) m) as [[[]|e] m1] eqn:E1;
      [| discriminate Hrun].
    destruct (IH Hnd' m1 m' Hrun) as [Hann [Hrid [Hkeep [Hprops [Hnorid Hbody]]]]].
    destruct (encode_property_normal k0 v0 m m1 E1) as [Hisrid Hnotrid].
    assert (Hb1 : Twin.body m1 = Twin.body m).
    { clear - E1. unfold Twin.encode_property in E1.
      destruct (negb (isString v0) && negb (isNumber v0) && negb (isBoolean v0));
        [discriminate |].
      destruct (String.eqb k0 "$rid").
      - unfold bind, Twin.lift in E1. destruct (toString v0); [| discriminate].
        inversion E1; reflexivity.
      - inversion E1; reflexivity. }
    repeat split.
    + intros k v [Heq | Hin] Hne.
      * inversion Heq; subst. rewrite Hkeep by exact Hnotin.
        destruct (Hnotrid Hne) as [Ha _]. rewrite Ha. apply obj_get_set_same.
      * apply Hann; assumption.
    + intros v [Heq | Hin].
      * inversion Heq; subst. destruct (Hisrid eq_refl) as [str [Hs [_ Hp]]].
        exists str. split; [exact Hs |].
        rewrite Hnorid by exact Hnotin. rewrite Hp. apply obj_get_set_same.
      * apply Hrid. exact Hin.
    + intros k Hk. simpl in Hk.
      rewrite Hkeep by tauto.
      destruct (String.eqb_spec k0 "$rid") as [E|E].
      * destruct (Hisrid E) as [str [_ [Ha _]]]. rewrite Ha. reflexivity.
      * destruct (Hnotrid E) as [Ha _]. rewrite Ha.
        apply obj_get_set_other. intros Heq. apply Hk. left. congruence.
    + intros k Hk. rewrite Hprops by exact Hk.
      destruct (String.eqb_spec k0 "$rid") as [E|E].
      * destruct (Hisrid E) as [str [_ [_ Hp]]]. rewrite Hp.
        apply obj_get_set_other. exact Hk.
      * destruct (Hnotrid E) as [_ Hp]. rewrite Hp. reflexivity.
    + intros Hk. simpl in Hk. rewrite Hnorid by tauto.
      destruct (String.eqb_spec k0 "$rid") as [E|E]; [exfalso; apply Hk; left; exact E |].
      destruct (Hnotrid E) as [_ Hp]. exact Hp.
    + congruence.
Qed.

Lemma bind_normal_inv {S A B} (c : M S A) (k : A -> M S B) s b s' :
  bind c k s = (Normal b, s') ->
  exists a s1, c s = (Normal a, s1) /\ k a s1 = (Normal b, s').
Proof.
  unfold bind. destruct (c s) as [[a|e] s1]; intros H; [| discriminate H].
  exists a, s1. auto.
Qed.

Lemma preserves_result {S A} (P : S -> Prop) (c : M S A) s r s' :
  preserves P c -> c s = (r, s') -> P s -> P s'.
Proof. intros Hc E H. specialize (Hc s H). rewrite E in Hc. exact Hc. Qed.

Lemma set_annotation_keeps_properties k v :
  preserves (fun m => Twin.properties m = []) (Twin.set_annotation k v).
Proof. apply preserves_modify. intros m H. exact H. Qed.

(** C2.  For a properties object with distinct keys that passes the checks
    of [_sendTwinRequest]: the value of the key [$rid] is assigned, as a
    string, to [properties.correlationId] of the AMQP message; every other
    key/value pair is assigned into the [messageAnnotations] map of the
    message; and [properties] holds nothing but [correlationId]. *)
Theorem twin_request_properties method resource fields body m :
  NoDup (keys fields) ->
  Twin.twin_request_message method resource (JsObj fields) body = Normal m ->
  (forall v, In ("$rid"%string, v) fields ->
             exists str, toString v = Normal str
                         /\ obj_get "correlationId" (Twin.properties m) = Some (JsStr str))
  /\ (forall k v, In (k, v) fields -> k <> "$rid"%string ->
                  obj_get k (Twin.messageAnnotations m) = Some v)
  /\ (forall k, k <> "correlationId"%string -> obj_get k (Twin.properties m) = None).
Proof.
  intros Hnd Hmsg. unfold Twin.twin_request_message in Hmsg.
  destruct (Twin.encode_twin_request method resource (JsObj fields) body
                                     Twin.empty_message) as [[[]|e] m'] eqn:Hrun;
    [| discriminate Hmsg].
  inversion Hmsg; subst m'. clear Hmsg.
  unfold Twin.encode_twin_request in Hrun.
  destruct (negb (truthy method) || negb (truthy resource)
            || negb (truthy (JsObj fields)) || negb (truthy body));
    [discriminate Hrun |].
  destruct (negb (isString method) || negb (isString resource));
    [discriminate Hrun |].
  destruct method as [| | | |ms|]; try discriminate Hrun.
  destruct resource as [| | | |rs|]; try discriminate Hrun.
  apply bind_normal_inv in Hrun. destruct Hrun as [[] [m1 [H1 Hrun]]].
  apply bind_normal_inv in Hrun. destruct Hrun as [[] [m2 [H2 Hrun]]].
  apply bind_normal_inv in Hrun. destruct Hrun as [[] [m3 [H3 Hrun]]].
  apply bind_normal_inv in Hrun. destruct Hrun as [[] [m4 [H4 Hrun]]].
  apply bind_normal_inv in Hrun. destruct Hrun as [b [m5 [H5 H6]]].
  assert (P3 : Twin.properties m3 = []).
  { refine (preserves_result (fun m => Twin.properties m = []) _ _ _ _ _ H3 _).
    { pres; try apply set_annotation_keeps_properties. }
    refine (preserves_result (fun m => Twin.properties m = []) _ _ _ _ _ H2 _).
    { pres; try apply set_annotation_keeps_properties. }
    refine (preserves_result (fun m => Twin.properties m = []) _ _ _ _ _ H1 _).
    { apply set_annotation_keeps_properties. }
    reflexivity. }
  assert (Hm : Twin.messageAnnotations m = Twin.messageAnnotations m4
               /\ Twin.properties m = Twin.properties m4).
  { unfold Twin.lift in H5. inversion H5; subst.
    unfold Twin.set_body, modify in H6. inversion H6; subst. auto. }
  destruct Hm as [Ha Hp]. rewrite Ha, Hp.
  destruct (encode_properties_normal fields Hnd m3 m4 H4)
    as [Hann [Hrid [_ [Hprops _]]]].
  repeat split.
  - exact Hrid.
  - exact Hann.
  - intros k Hk. rewrite Hprops by exact Hk. rewrite P3. reflexivity.
Qed.

Lemma twin_request_properties_witness :
  (forall v, In ("$rid"%string, v) [("$rid"%string, JsNum 7); ("foo"%string, JsStr "bar")] ->
             exists str, toString v = Normal str
                         /\ obj_get "correlationId"
                              (Twin.properties
                                 (Twin.mkMessage
                                    [("operation"%string, JsStr "PATCH");
                                     ("resource"%string, JsStr "/properties/reported");
                                     ("version"%string, JsNull);
                                     ("foo"%string, JsStr "bar")]
                                    [("correlationId"%string, JsStr "7")]
                                    (Some "{}"%string)))
                            = Some (JsStr str))
  /\ (forall k v, In (k, v) [("$rid"%string, JsNum 7); ("foo"%string, JsStr "bar")] ->
                  k <> "$rid"%string ->
                  obj_get k
                    (Twin.messageAnnotations
                       (Twin.mkMessage
                          [("operation"%string, JsStr "PATCH");
                           ("resource"%string, JsStr "/properties/reported");
                           ("version"%string, JsNull);
                           ("foo"%string, JsStr "bar")]
                          [("correlationId"%string, JsStr "7")]
                          (Some "{}"%string)))
                  = Some v)
  /\ (forall k, k <> "correlationId"%string ->
                obj_get k
                  (Twin.properties
                     (Twin.mkMessage
                        [("operation"%string, JsStr "PATCH");
                         ("resource"%string, JsStr "/properties/reported");
                         ("version"%string, JsNull);
                         ("foo"%string, JsStr "bar")]
                        [("correlationId"%string, JsStr "7")]
                        (Some "{}"%string)))
                = None).
Proof.
  apply (twin_request_properties (JsStr "PATCH") (JsStr "/properties/reported/")
           [("$rid"%string, JsNum 7); ("foo"%string, JsStr "bar")] (JsStr "{}")).
  - simpl. repeat constructor; simpl; intuition discriminate.
  - reflexivity.
Defined.

(** ** C8: where the argument checks of [sendTwinRequest] run *)

Definition twin_endpoint : string := "/devices/d/twin/".

(** A twin client with one ['response'] listener and both links attached. *)
Definition connected_twin : Twin.t :=
  Twin.run test_uuid twin_endpoint
           [Twin.add_listener Twin.response;
            Twin.receiver_attach_result (inr 5);
            Twin.sender_attach_result (inr 6)]
           Twin.init.

(** Three calls the checks of [_sendTwinRequest] reject: a falsy method, a
    method that is not a string, and a property value that is an object. *)
Definition falsy_method_request : Twin.Input :=
  Twin.sendTwinRequest JsNull (JsStr "/properties/reported/") (JsObj []) (JsStr " ") None.
Definition number_method_request : Twin.Input :=
  Twin.sendTwinRequest (JsNum 5) (JsStr "/properties/reported/") (JsObj []) (JsStr " ") None.
Definition object_property_request : Twin.Input :=
  Twin.sendTwinRequest (JsStr "GET") (JsStr "/properties/reported/")
                       (JsObj [("$rid"%string, JsObj [])]) (JsStr " ") None.

(** C8.  On a twin client that is not connected, [sendTwinRequest] with
    arguments that [_sendTwinRequest] rejects raises nothing: the call
    completes normally, the input is deferred until ['connected'] and the
    machine starts connecting.  The checks only run in the handler of the
    ['connected'] state, where the same calls throw. *)
Theorem twin_invalid_request_deferred_when_disconnected :
  Twin.state Twin.init = Twin.disconnected
  /\ Twin.twin_request_message JsNull (JsStr "/properties/reported/") (JsObj []) (JsStr " ")
     = Thrown Twin.missing_parameter
  /\ Twin.twin_request_message (JsNum 5) (JsStr "/properties/reported/") (JsObj []) (JsStr " ")
     = Thrown Twin.not_a_string
  /\ Twin.twin_request_message (JsStr "GET") (JsStr "/properties/reported/")
                               (JsObj [("$rid"%string, JsObj [])]) (JsStr " ")
     = Thrown Twin.non_string_properties
  /\ (forall i,
         In i [falsy_method_request; number_method_request; object_property_request] ->
         fst (Twin.handle test_uuid twin_endpoint i Twin.init) = Normal tt
         /\ Twin.state (exec (Twin.handle test_uuid twin_endpoint i) Twin.init)
            = Twin.connecting
         /\ Twin.inputQueue (exec (Twin.handle test_uuid twin_endpoint i) Twin.init)
            = [(Twin.connected, i)])
  /\ Twin.state connected_twin = Twin.connected
  /\ fst (Twin.handle test_uuid twin_endpoint falsy_method_request connected_twin)
     = Thrown Twin.missing_parameter
  /\ fst (Twin.handle test_uuid twin_endpoint number_method_request connected_twin)
     = Thrown Twin.not_a_string
  /\ fst (Twin.handle test_uuid twin_endpoint object_property_request connected_twin)
     = Thrown Twin.non_string_properties.
Proof.
  repeat split; try reflexivity.
  all: simpl in H; repeat (destruct H as [H | H]; [subst i; reflexivity |]);
    contradiction.
Qed.

(** The deferred call is replayed, and only then rejected, when the sender
    link attaches: the exception surfaces in the attach callback. *)
Lemma twin_deferred_request_throws_on_connect :
  fst (Twin.step test_uuid twin_endpoint (Twin.sender_attach_result (inr 6))
         (Twin.run test_uuid twin_endpoint
                   [Twin.call_sendTwinRequest JsNull (JsStr "/properties/reported/")
                                              (JsObj []) (JsStr " ") None;
                    Twin.receiver_attach_result (inr 5)]
                   Twin.init))
  = Thrown Twin.missing_parameter.
Proof. reflexivity. Qed.

(** ** C7: the two links of the twin client *)

(** The fields the connection invariant reads. *)
Definition same_links (s s' : Twin.t) : Prop :=
  Twin.state s' = Twin.state s
  /\ Twin.upstreamAmqpLink s' = Twin.upstreamAmqpLink s
  /\ Twin.downstreamAmqpLink s' = Twin.downstreamAmqpLink s
  /\ Twin.senderAttachPending s' = Twin.senderAttachPending s.

Section TwinMachinePreserves.

Variable uuid_v4 : nat -> string.
Variable twinEndpoint : string.

(** A property of the client that only reads the fields above and is
    stable when the machine moves to an [allowed] state. *)
Variable P : Twin.t -> Prop.
Variable allowed : Twin.TwinState -> Prop.
Hypothesis P_frame : forall s s', same_links s s' -> P s -> P s'.
Hypothesis P_state : forall st s, allowed st -> P s -> P (Twin.set_state st s).
Hypothesis allowed_not_connected : forall st, st <> Twin.connected -> allowed st.

Ltac frame_leaf :=
  apply preserves_modify; intros [] ?; eapply P_frame; [| eassumption];
  repeat split.

Ltac state_leaf :=
  apply preserves_modify; intros ? ?; apply P_state;
  [first [assumption | apply allowed_not_connected; discriminate] | assumption].

Lemma emit_preserves e : preserves P (Twin.emit e).
Proof. unfold Twin.emit. frame_leaf. Qed.

Lemma send_preserves m done : preserves P (Twin.send m done).
Proof.
  unfold Twin.send. pres; try apply emit_preserves. frame_leaf.
Qed.

Lemma sendTwinRequest_preserves method resource properties body done :
  preserves P (Twin._sendTwinRequest method resource properties body done).
Proof. unfold Twin._sendTwinRequest. pres. apply send_preserves. Qed.

Lemma fresh_uuid_preserves : preserves P (Twin.fresh_uuid uuid_v4).
Proof. unfold Twin.fresh_uuid. pres. frame_leaf. Qed.

Lemma internal_request_preserves method k :
  preserves P (Twin.internal_request uuid_v4 method k).
Proof.
  unfold Twin.internal_request. pres.
  - apply fresh_uuid_preserves.
  - frame_leaf.
  - apply sendTwinRequest_preserves.
Qed.

Lemma to_connecting_preserves : preserves P (Twin.to_connecting uuid_v4 twinEndpoint).
Proof.
  unfold Twin.to_connecting, Twin.connecting_onEnter. pres;
    try apply emit_preserves; try apply fresh_uuid_preserves;
    try state_leaf; frame_leaf.
Qed.

Lemma to_disconnected_preserves : preserves P (Twin.to_disconnected uuid_v4 twinEndpoint).
Proof.
  unfold Twin.to_disconnected. pres;
    try apply emit_preserves; try apply to_connecting_preserves; state_leaf.
Qed.

Lemma to_disconnecting_preserves : preserves P (Twin.to_disconnecting uuid_v4 twinEndpoint).
Proof.
  unfold Twin.to_disconnecting. pres;
    try apply emit_preserves; try apply to_disconnected_preserves;
    try state_leaf; frame_leaf.
Qed.

Lemma connected_onExit_preserves : preserves P Twin.connected_onExit.
Proof. unfold Twin.connected_onExit. pres. frame_leaf. Qed.

Lemma to_connected_preserves :
  allowed Twin.connected -> preserves P Twin.to_connected.
Proof.
  intros Hc. unfold Twin.to_connected, Twin.connected_onEnter. pres;
    try apply emit_preserves; try state_leaf; frame_leaf.
Qed.

Lemma transition_core_preserves newState :
  allowed newState -> preserves P (Twin.transition_core uuid_v4 twinEndpoint newState).
Proof.
  intros Ha. unfold Twin.transition_core. pres;
    try apply connected_onExit_preserves;
    try apply to_disconnected_preserves; try apply to_connecting_preserves;
    try apply to_disconnecting_preserves; apply to_connected_preserves; exact Ha.
Qed.

Lemma handle_with_preserves (tr : Twin.TwinState -> M Twin.t unit) i :
  (forall st, st <> Twin.connected -> preserves P (tr st)) ->
  preserves P (Twin.handle_with uuid_v4 tr i).
Proof.
  intros Htr. unfold Twin.handle_with, Twin.deferUntilTransition. pres;
    try apply emit_preserves; try apply internal_request_preserves;
    try apply sendTwinRequest_preserves;
    try (apply Htr; discriminate); frame_leaf.
Qed.

Lemma processQueue_preserves h :
  (forall i, preserves P (h i)) -> preserves P (Twin.processQueue h).
Proof.
  intros Hh. unfold Twin.processQueue. pres; [frame_leaf | apply Hh].
Qed.

Lemma transition_preserves newState :
  allowed newState -> preserves P (Twin.transition uuid_v4 twinEndpoint newState).
Proof.
  intros Ha. unfold Twin.transition. pres;
    try (apply transition_core_preserves; assumption).
  apply processQueue_preserves. intro i. apply handle_with_preserves.
  intros st Hst. apply transition_core_preserves. apply allowed_not_connected, Hst.
Qed.

Lemma handle_preserves i : preserves P (Twin.handle uuid_v4 twinEndpoint i).
Proof.
  apply handle_with_preserves. intros st Hst.
  apply transition_preserves. apply allowed_not_connected, Hst.
Qed.

End TwinMachinePreserves.

(** Both link objects are present. *)
Definition both_links (s : Twin.t) : Prop :=
  Twin.upstreamAmqpLink s <> None /\ Twin.downstreamAmqpLink s <> None.

(** The connection invariant: a connected client holds both link objects,
    and a sender attach is only under way once the receiver link is.  *)
Definition twin_inv (s : Twin.t) : Prop :=
  (Twin.state s = Twin.connected -> both_links s)
  /\ (0 < Twin.senderAttachPending s -> Twin.downstreamAmqpLink s <> None).

Lemma twin_inv_frame s s' : same_links s s' -> twin_inv s -> twin_inv s'.
Proof.
  unfold same_links, twin_inv, both_links. intros [E1 [E2 [E3 E4]]] H.
  rewrite E1, E2, E3, E4. exact H.
Qed.

Lemma twin_inv_state st s :
  st <> Twin.connected -> twin_inv s -> twin_inv (Twin.set_state st s).
Proof.
  unfold twin_inv, both_links. intros Hst [H1 H2]. destruct s; simpl in *.
  split; [intros E; contradiction | exact H2].
Qed.

Lemma both_links_frame s s' : same_links s s' -> both_links s -> both_links s'.
Proof.
  unfold same_links, both_links. intros [_ [E2 [E3 _]]] H. rewrite E2, E3. exact H.
Qed.

Lemma both_links_state st s : True -> both_links s -> both_links (Twin.set_state st s).
Proof. unfold both_links. intros _ H. destruct s; exact H. Qed.

Lemma both_links_inv s : both_links s -> twin_inv s.
Proof. unfold twin_inv, both_links. intros H. split; intros _; tauto. Qed.

Ltac twin_frame :=
  apply preserves_modify; intros [] ?; eapply twin_inv_frame; [| eassumption];
  repeat split.

Lemma twin_inv_handle uuid_v4 twinEndpoint i :
  preserves twin_inv (Twin.handle uuid_v4 twinEndpoint i).
Proof.
  apply (handle_preserves uuid_v4 twinEndpoint twin_inv (fun st => st <> Twin.connected)).
  - exact twin_inv_frame.
  - exact twin_inv_state.
  - auto.
Qed.

Lemma twin_inv_transition uuid_v4 twinEndpoint st :
  st <> Twin.connected ->
  preserves twin_inv (Twin.transition uuid_v4 twinEndpoint st).
Proof.
  intros Hst.
  apply (transition_preserves uuid_v4 twinEndpoint twin_inv
                              (fun st => st <> Twin.connected)).
  - exact twin_inv_frame.
  - exact twin_inv_state.
  - auto.
  - exact Hst.
Qed.

Lemma both_links_transition uuid_v4 twinEndpoint st :
  preserves both_links (Twin.transition uuid_v4 twinEndpoint st).
Proof.
  apply (transition_preserves uuid_v4 twinEndpoint both_links (fun _ => True)).
  - exact both_links_frame.
  - exact both_links_state.
  - auto.
  - exact I.
Qed.

Lemma twin_inv_emit e : preserves twin_inv (Twin.emit e).
Proof. unfold Twin.emit. twin_frame. Qed.

Lemma twin_inv_step uuid_v4 twinEndpoint e :
  preserves twin_inv (Twin.step uuid_v4 twinEndpoint e).
Proof.
  destruct e; unfold Twin.step.
  - (* add_listener *)
    unfold Twin.count_listener. pres; try apply twin_inv_handle; twin_frame.
  - (* remove_listener_of *)
    unfold Twin.count_listener. pres; try apply twin_inv_handle; twin_frame.
  - (* call_sendTwinRequest *)
    apply twin_inv_handle.
  - (* receiver_attach_result *)
    intros s Hs. unfold bind, get.
    destruct (Twin.receiverAttachPending s) as [|n] eqn:En; [exact Hs |].
    destruct r as [err | l].
    + revert s Hs En. 
      assert (Hp : forall n, preserves twin_inv
                     (bind (modify (Twin.set_receiverAttachPending n))
                           (fun _ => Twin.receiver_attach_callback uuid_v4 twinEndpoint
                                       (inl err)))).
      { intros n0. unfold Twin.receiver_attach_callback, Twin.handleError. pres;
          try apply twin_inv_emit;
          try (apply twin_inv_transition; discriminate); twin_frame. }
      intros s Hs En. apply (Hp n s Hs).
    + destruct Hs as [H1 H2]. destruct s; simpl in *.
      unfold twin_inv, both_links; simpl. split.
      * intros E. destruct (H1 E) as [Hu _]. split; [exact Hu | discriminate].
      * intros _. discriminate.
  - (* sender_attach_result *)
    intros s Hs. unfold bind, get.
    destruct (Twin.senderAttachPending s) as [|n] eqn:En; [exact Hs |].
    destruct r as [err | l].
    + assert (Hs' : twin_inv (Twin.set_senderAttachPending n s)).
      { destruct Hs as [H1 H2]. destruct s; simpl in *. split; [exact H1 |].
        simpl. intros _. apply H2. lia. }
      assert (Hp : preserves twin_inv
                     (Twin.sender_attach_callback uuid_v4 twinEndpoint (inl err))).
      { unfold Twin.sender_attach_callback, Twin.handleError. pres;
          try apply twin_inv_emit; apply twin_inv_transition; discriminate. }
      apply (Hp _ Hs').
    + apply both_links_inv.
      assert (Hdown : Twin.downstreamAmqpLink s <> None).
      { apply (proj2 Hs). rewrite En. lia. }
      unfold modify. cbn beta iota. unfold Twin.sender_attach_callback.
      unfold bind at 1 2, modify. cbn beta iota.
      apply (both_links_transition uuid_v4 twinEndpoint Twin.connected).
      destruct s; simpl in *. split; [discriminate | exact Hdown].
  - (* sender_detach_result *)
    unfold Twin.sender_detach_callback. pres; try apply twin_inv_emit; twin_frame.
  - (* receiver_detach_result *)
    pres; twin_frame.
  - (* downstream_detached *)
    pres; try apply twin_inv_handle; twin_frame.
  - (* downstream_message *)
    unfold Twin.onAmqpMessage, Twin.onResponseMessage.
    pres; try apply twin_inv_emit; twin_frame.
  - (* send_fulfilled *)
    unfold Twin.safeCallback. pres; twin_frame.
  - (* send_rejected *)
    unfold Twin.safeCallback. pres; twin_frame.
  - (* tick *)
    pres; try apply twin_inv_emit; twin_frame.
Qed.

Lemma twin_inv_run uuid_v4 twinEndpoint es :
  forall s, twin_inv s -> twin_inv (Twin.run uuid_v4 twinEndpoint es s).
Proof.
  induction es as [|e es IH]; intros s Hs; simpl; [exact Hs |].
  apply IH. apply (twin_inv_step uuid_v4 twinEndpoint e s Hs).
Qed.

Lemma twin_inv_init : twin_inv Twin.init.
Proof. split; simpl; [discriminate | lia]. Qed.



(** A listener is added, the receiver link attaches, the sender link fails
    to attach. *)
Definition sender_attach_fails : list Twin.Event :=
  [Twin.add_listener Twin.response;
   Twin.receiver_attach_result (inr 5);
   Twin.sender_attach_result (inl (mkError Error "amqp:unauthorized-access"))].


(** What the run above leaves behind: the receiver link is up alone, the
    machine never was in ['disconnecting'] and no detach was asked for. *)
Lemma sender_attach_failure_trace :
  let s := Twin.run test_uuid twin_endpoint sender_attach_fails Twin.init in
  Twin.receiversUp s = [5]
  /\ Twin.sendersUp s = []
  /\ Twin.trace s
     = [Twin.Transition Twin.connecting;
        Twin.AttachReceiverLink twin_endpoint "twin:uuid-0";
        Twin.AttachSenderLink twin_endpoint "twin:uuid-0";
        Twin.EmitError (mkError Error "amqp:unauthorized-access");
        Twin.Transition Twin.disconnected;
        Twin.Transition Twin.connecting;
        Twin.AttachReceiverLink twin_endpoint "twin:uuid-1";
        Twin.EmitErrorReceived None].
Proof. vm_compute. repeat split. Qed.



(** ** C1 and C9: callbacks of the SenderLink *)

(** Every deferred input of a SenderLink waits for ['detached']. *)
Definition deferred_until_detached (s : SenderLink.t) : Prop :=
  Forall (fun p => fst p = detached) (SenderLink.inputQueue s).

(** The link is not attached (and its deferred inputs wait for ['detached']). *)
Definition not_attached (s : SenderLink.t) : Prop :=
  deferred_until_detached s /\ SenderLink.state s <> attached.

(** An attached link has drained its queue and holds its link object. *)
Definition sender_inv (s : SenderLink.t) : Prop :=
  deferred_until_detached s
  /\ (SenderLink.state s = attached ->
      SenderLink.messageQueue s = [] /\ SenderLink.linkObject s <> None).

Lemma not_attached_inv s : not_attached s -> sender_inv s.
Proof. intros [H1 H2]. split; [exact H1 | intros E; contradiction]. Qed.

Lemma Forall_filter_keep {A} (Q : A -> Prop) f (l : list A) :
  Forall Q l -> Forall Q (filter f l).
Proof.
  induction 1 as [|x l Hx Hl IH]; simpl; [constructor |].
  destruct (f x); [constructor; assumption | assumption].
Qed.

Ltac na_leaf :=
  apply preserves_modify;
  let s := fresh "s" in
  let H1 := fresh "H" in
  let H2 := fresh "H" in
  intros s [H1 H2]; destruct s; unfold not_attached, deferred_until_detached in *;
  simpl in *; split;
  [ first [ assumption
          | apply Forall_filter_keep; tauto
          | apply Forall_app; split; [assumption | repeat constructor] ]
  | first [ assumption | discriminate ] ].

Lemma na_emit e : preserves not_attached (SenderLink.emit e).
Proof. unfold SenderLink.emit. na_leaf. Qed.

Lemma na_attachLink : preserves not_attached SenderLink.attachLink.
Proof. unfold SenderLink.attachLink. pres; [apply na_emit | na_leaf]. Qed.

Lemma na_detachLink : preserves not_attached SenderLink.detachLink.
Proof. unfold SenderLink.detachLink. pres; [apply na_emit | na_leaf]. Qed.

Lemma na_pushToQueue m cb : preserves not_attached (SenderLink.pushToQueue m cb).
Proof. unfold SenderLink.pushToQueue. na_leaf. Qed.

Lemma na_attached_send m cb : preserves not_attached (SenderLink.attached_send m cb).
Proof. unfold SenderLink.attached_send. pres; [apply na_emit | na_leaf]. Qed.

Lemma na_fail_queue err q : preserves not_attached (SenderLink.fail_queue err q).
Proof.
  induction q as [|item q IH]; simpl; pres; try apply na_emit; try exact IH.
  all: try na_leaf.
  unfold SenderLink.call_send_callback. pres. apply na_emit.
Qed.

Lemma na_detached_onEnter : preserves not_attached SenderLink.detached_onEnter.
Proof. unfold SenderLink.detached_onEnter. pres; apply na_fail_queue. Qed.

Lemma na_attached_onExit : preserves not_attached SenderLink.attached_onExit.
Proof. unfold SenderLink.attached_onExit. pres. na_leaf. Qed.

Lemma na_transition_core st :
  st <> attached -> preserves not_attached (SenderLink.transition_core st).
Proof.
  intros Hst. unfold SenderLink.transition_core. pres;
    try apply na_attached_onExit; try apply na_detached_onEnter;
    try apply na_attachLink; try contradiction; na_leaf.
Qed.

Lemma na_handle_with (tr : FsmState -> M SenderLink.t unit) i :
  (forall st, st <> attached -> preserves not_attached (tr st)) ->
  preserves not_attached (SenderLink.handle_with tr i).
Proof.
  intros Htr. unfold SenderLink.handle_with, SenderLink.deferUntilTransition. pres;
    try apply na_emit; try apply na_pushToQueue; try apply na_detachLink;
    try apply na_attached_send; try (apply Htr; discriminate); na_leaf.
Qed.

Lemma na_processQueue h :
  (forall i, preserves not_attached (h i)) ->
  preserves not_attached (SenderLink.processQueue h).
Proof.
  intros Hh. unfold SenderLink.processQueue. pres; [na_leaf | apply Hh].
Qed.

Lemma na_transition st :
  st <> attached -> preserves not_attached (SenderLink.transition st).
Proof.
  intros Hst. unfold SenderLink.transition. pres.
  - apply na_transition_core, Hst.
  - apply na_processQueue. intro i. apply na_handle_with. apply na_transition_core.
Qed.

Lemma na_handle i : preserves not_attached (SenderLink.handle i).
Proof. apply na_handle_with. apply na_transition. Qed.

Lemma post_bind {S A B} (P Q : S -> Prop) (c : M S A) (k : A -> M S B) :
  (forall s, P s -> Q (snd (c s))) ->
  (forall a, preserves Q (k a)) ->
  forall s, P s -> Q (snd (bind c k s)).
Proof.
  intros Hc Hk s H. unfold bind. specialize (Hc s H).
  destruct (c s) as [[a|e] s']; simpl in *; [apply Hk; exact Hc | exact Hc].
Qed.

(** Leaving ['attached']: [_onExit] takes the detach listener off the link
    object, then the new state is entered. *)
Lemma transition_from_attached st s l :
  SenderLink.state s = attached ->
  SenderLink.linkObject s = Some l ->
  st <> attached ->
  SenderLink.transition st s
  = bind (match st with
          | detached => SenderLink.detached_onEnter
          | attaching => SenderLink.attachLink
          | attached => SenderLink.attached_onEnter
          | detaching => ret tt
          end)
         (fun _ => SenderLink.processQueue
                     (SenderLink.handle_with SenderLink.transition_core))
         (SenderLink.set_state st
            (SenderLink.set_detachedListeners
               (remove_listener l (SenderLink.detachedListeners s)) s)).
Proof.
  intros Hs Hl Hst. destruct s; simpl in Hs, Hl; subst.
  destruct st; try contradiction; reflexivity.
Qed.

Lemma inv_transition st :
  st <> attached ->
  forall s, sender_inv s -> not_attached (snd (SenderLink.transition st s)).
Proof.
  intros Hst s [Hq Hatt].
  destruct (FsmState_eqb_spec (SenderLink.state s) attached) as [E|E].
  - destruct (Hatt E) as [_ Hl].
    destruct (SenderLink.linkObject s) as [l|] eqn:El; [| contradiction].
    rewrite (transition_from_attached st s l E El Hst).
    assert (Hna : not_attached
                    (SenderLink.set_state st
                       (SenderLink.set_detachedListeners
                          (remove_listener l (SenderLink.detachedListeners s)) s))).
    { destruct s; split; simpl in *; assumption. }
    revert Hna. generalize (SenderLink.set_state st
                       (SenderLink.set_detachedListeners
                          (remove_listener l (SenderLink.detachedListeners s)) s)).
    change (preserves not_attached
              (bind (match st with
                     | detached => SenderLink.detached_onEnter
                     | attaching => SenderLink.attachLink
                     | attached => SenderLink.attached_onEnter
                     | detaching => ret tt
                     end)
                    (fun _ => SenderLink.processQueue
                                (SenderLink.handle_with SenderLink.transition_core)))).
    pres; try apply na_detached_onEnter; try apply na_attachLink;
      try contradiction.
    all: apply na_processQueue; intro i; apply na_handle_with; apply na_transition_core.
  - apply na_transition; [exact Hst | split; assumption].
Qed.

Ltac inv_frame :=
  apply preserves_modify;
  let s := fresh "s" in
  let H := fresh "H" in
  intros s H; destruct s; exact H.

Lemma inv_emit e : preserves sender_inv (SenderLink.emit e).
Proof. unfold SenderLink.emit. inv_frame. Qed.

Lemma inv_handle i : preserves sender_inv (SenderLink.handle i).
Proof.
  intros s H.
  destruct (FsmState_eqb_spec (SenderLink.state s) attached) as [E|E].
  - destruct i as [cb | | m cb].
    + assert (Hrun : SenderLink.handle (SenderLink.attach cb) s
                     = match cb with
                       | Some c => SenderLink.emit (SenderLink.AttachCallback c None) s
                       | None => throw (not_a_function "callback") s
                       end).
      { unfold SenderLink.handle, SenderLink.handle_with, bind at 1, get.
        rewrite E. destruct cb; reflexivity. }
      rewrite Hrun. destruct cb; [apply inv_emit; exact H | exact H].
    + assert (Hrun : SenderLink.handle SenderLink.detach s
                     = bind (SenderLink.transition detaching)
                            (fun _ => bind SenderLink.detachLink
                                        (fun _ => SenderLink.transition detached)) s).
      { unfold SenderLink.handle, SenderLink.handle_with, bind at 1, get.
        rewrite E. reflexivity. }
      rewrite Hrun. apply not_attached_inv.
      apply (post_bind sender_inv not_attached); [| | exact H].
      * apply inv_transition. discriminate.
      * intros _. pres; [apply na_detachLink | apply na_transition; discriminate].
    + assert (Hrun : SenderLink.handle (SenderLink.send m cb) s
                     = SenderLink.attached_send m cb s).
      { unfold SenderLink.handle, SenderLink.handle_with, bind at 1, get.
        rewrite E. reflexivity. }
      rewrite Hrun. revert s H E Hrun.
      assert (Hp : preserves sender_inv (SenderLink.attached_send m cb)).
      { unfold SenderLink.attached_send. pres; [apply inv_emit | inv_frame]. }
      intros s H _ _. apply Hp, H.
  - apply not_attached_inv. apply na_handle. destruct H as [Hq _]. split; assumption.
Qed.

Lemma inv_attach_failure e :
  forall s, sender_inv s ->
            not_attached (snd (SenderLink.attach_completion (Some e) s)).
Proof.
  intros s H. unfold SenderLink.attach_completion.
  unfold bind at 1, modify. cbn beta iota.
  apply (post_bind sender_inv not_attached).
  - apply inv_transition. discriminate.
  - intros _. pres; [na_leaf | apply na_emit].
  - destruct s; exact H.
Qed.

Lemma filter_until_other (l : list (FsmState * SenderLink.Input)) st :
  Forall (fun p => fst p = detached) l ->
  st <> detached ->
  filter (fun p => FsmState_eqb (fst p) st) l = []
  /\ filter (fun p => negb (FsmState_eqb (fst p) st)) l = l.
Proof.
  intros Hl Hst. induction Hl as [|p l Hp Hl IH]; simpl; [auto |].
  destruct IH as [IH1 IH2]. rewrite Hp.
  destruct (FsmState_eqb_spec detached st) as [E|E]; [congruence |].
  simpl. rewrite IH1, IH2. auto.
Qed.

Lemma filter_until_detached (l : list (FsmState * SenderLink.Input)) :
  Forall (fun p => fst p = detached) l ->
  filter (fun p => FsmState_eqb (fst p) detached) l = l
  /\ filter (fun p => negb (FsmState_eqb (fst p) detached)) l = [].
Proof.
  intros Hl. induction Hl as [|p l Hp Hl IH]; simpl; [auto |].
  destruct IH as [IH1 IH2]. rewrite Hp. simpl. rewrite IH1, IH2. auto.
Qed.

(** Outside ['detached'] no deferred input is ready. *)
Lemma processQueue_none h s :
  deferred_until_detached s ->
  SenderLink.state s <> detached ->
  SenderLink.processQueue h s = (Normal tt, s).
Proof.
  intros Hq Hst. unfold SenderLink.processQueue, bind at 1, get.
  destruct (filter_until_other _ _ Hq Hst) as [E1 E2]. rewrite E1, E2.
  destruct s; reflexivity.
Qed.

Definition no_callback (e : SenderLink.Effect) : Prop :=
  SenderLink.is_callback e = false.

(** Draining the queue on a link object completes and calls nothing back. *)
Lemma drain_queue_run q :
  forall s l,
    SenderLink.linkObject s = Some l ->
    exists s',
      SenderLink.drain_queue q s = (Normal tt, s')
      /\ SenderLink.state s' = SenderLink.state s
      /\ SenderLink.inputQueue s' = SenderLink.inputQueue s
      /\ SenderLink.linkObject s' = Some l
      /\ SenderLink.messageQueue s'
         = match q with [] => SenderLink.messageQueue s | _ => [] end
      /\ exists more, SenderLink.trace s' = SenderLink.trace s ++ more
                      /\ Forall no_callback more.
Proof.
  induction q as [|item q IH]; intros s l Hl.
  - exists s. repeat split; auto. exists []. rewrite app_nil_r. auto.
  - cbn [SenderLink.drain_queue].
    set (s1 := SenderLink.set_inflight
                 (SenderLink.inflight s ++ [SenderLink.callback item])
                 (SenderLink.set_trace
                    (SenderLink.trace s ++ [SenderLink.LinkSend l (SenderLink.message item)])
                    (SenderLink.set_messageQueue q s))).
    assert (Hstep : bind (modify (SenderLink.set_messageQueue q))
                         (fun _ => SenderLink.attached_send (SenderLink.message item)
                                                            (SenderLink.callback item)) s
                    = (Normal tt, s1)).
    { destruct s; simpl in Hl; subst. reflexivity. }
    destruct (IH s1 l) as [s' [Hrun [Hst [Hiq [Hlo [Hmq [more [Htr Hmore]]]]]]]].
    { destruct s; exact Hl. }
    exists s'. split.
    + unfold bind in *. 
      destruct (modify (SenderLink.set_messageQueue q) s) as [[[]|e] s0] eqn:E0;
        [| discriminate Hstep].
      rewrite Hstep. exact Hrun.
    + rewrite Hst, Hiq, Hlo, Hmq, Htr. destruct s; simpl. repeat split.
      * destruct q; reflexivity.
      * exists (SenderLink.LinkSend l (SenderLink.message item) :: more).
        split; [rewrite <- app_assoc; reflexivity |].
        constructor; [reflexivity | exact Hmore].
Qed.

(** A successful attach: the queue is drained and the link is attached. *)
Lemma attach_success s l :
  sender_inv s ->
  SenderLink.linkObject s = Some l ->
  exists s', SenderLink.attach_completion None s = (Normal tt, s')
             /\ sender_inv s'.
Proof.
  intros [Hq Hatt] Hl.
  assert (Htrans : exists s1,
             SenderLink.transition attached (SenderLink.set_attachError None s)
             = (Normal tt, s1)
             /\ deferred_until_detached s1
             /\ SenderLink.state s1 = attached
             /\ SenderLink.messageQueue s1 = []
             /\ SenderLink.linkObject s1 = Some l).
  { destruct (FsmState_eqb_spec (SenderLink.state s) attached) as [E|E].
    - exists (SenderLink.set_attachError None s). destruct (Hatt E) as [Hmq _].
      destruct s; simpl in *; subst. repeat split; auto.
    - set (s0 := SenderLink.set_state attached (SenderLink.set_attachError None s)).
      destruct (drain_queue_run (SenderLink.messageQueue s0) s0 l)
        as [s1 [Hrun [Hst [Hiq [Hlo [Hmq _]]]]]].
      { destruct s; exact Hl. }
      exists s1.
      assert (Hq1 : deferred_until_detached s1).
      { unfold deferred_until_detached. rewrite Hiq. destruct s; exact Hq. }
      assert (Hst1 : SenderLink.state s1 = attached).
      { rewrite Hst. destruct s; reflexivity. }
      split; [| repeat split; auto].
      + assert (Hcore : SenderLink.transition_core attached
                          (SenderLink.set_attachError None s) = (Normal tt, s1)).
        { rewrite <- Hrun. destruct s; simpl in E |- *.
          destruct state; try contradiction; reflexivity. }
        unfold SenderLink.transition, bind at 1, get.
        assert (Hne : FsmState_eqb
                        (SenderLink.state (SenderLink.set_attachError None s)) attached
                      = false).
        { destruct s; simpl in E |- *. destruct state; try contradiction; reflexivity. }
        rewrite Hne. unfold bind. rewrite Hcore.
        apply processQueue_none; [exact Hq1 | rewrite Hst1; discriminate].
      + rewrite Hmq. destruct (SenderLink.messageQueue s0); reflexivity. }
  destruct Htrans as [s1 [Hrun [Hq1 [Hst1 [Hmq1 Hlo1]]]]].
  unfold SenderLink.attach_completion, bind at 1, modify. cbn beta iota.
  unfold bind at 1. rewrite Hrun. unfold bind at 1, get.
  destruct (SenderLink.attachCallback s1) as [cb|] eqn:Ecb.
  - eexists. split; [reflexivity |].
    destruct s1; simpl in *; subst. split; [exact Hq1 |].
    intros _. split; [reflexivity | discriminate].
  - exists s1. split; [reflexivity |].
    split; [exact Hq1 |]. intros _. rewrite Hmq1, Hlo1. split; [reflexivity | discriminate].
Qed.

Lemma inv_step e : preserves sender_inv (SenderLink.step e).
Proof.
  destruct e; unfold SenderLink.step, SenderLink.attach_method,
                SenderLink.detach_method, SenderLink.send_method.
  - apply inv_handle.
  - apply inv_handle.
  - apply inv_handle.
  - (* createSender_resolved *)
    intros s H. unfold bind at 1, get.
    destruct (nth_error (SenderLink.pendingCreate s) k) as [connectionError|];
      [| exact H].
    unfold bind at 1, modify. cbn beta iota.
    set (s0 := SenderLink.set_pendingCreate
                 (remove_nth k (SenderLink.pendingCreate s)) s).
    assert (H0 : sender_inv s0) by (destruct s; exact H).
    clearbody s0. clear H s.
    unfold SenderLink.createSender_then, try_catch.
    destruct connectionError as [e|].
    + unfold bind at 1, ret.
      pose proof (inv_attach_failure e s0 H0) as Hna.
      destruct (SenderLink.attach_completion (Some e) s0) as [[[]|err] s1];
        simpl in Hna |- *.
      * apply not_attached_inv, Hna.
      * apply not_attached_inv. apply inv_attach_failure. apply not_attached_inv, Hna.
    + set (s1 := SenderLink.set_errorListeners
                   (SenderLink.errorListeners s0 ++ [amqp10link])
                   (SenderLink.set_detachedListeners
                      (SenderLink.detachedListeners s0 ++ [amqp10link])
                      (SenderLink.set_linkObject (Some amqp10link) s0))).
      assert (H1 : sender_inv s1).
      { destruct H0 as [Hq Hatt]. destruct s0; split; [exact Hq |].
        simpl in *. intros E. destruct (Hatt E) as [Hmq _].
        split; [exact Hmq | discriminate]. }
      destruct (attach_success s1 amqp10link H1) as [s2 [Hrun H2]].
      { destruct s0; reflexivity. }
      assert (Hbody : bind
                        (bind (modify (SenderLink.set_linkObject (Some amqp10link)))
                              (fun _ =>
                                 bind (modify (fun s =>
                                         SenderLink.set_detachedListeners
                                           (SenderLink.detachedListeners s ++ [amqp10link]) s))
                                      (fun _ =>
                                         modify (fun s =>
                                           SenderLink.set_errorListeners
                                             (SenderLink.errorListeners s ++ [amqp10link]) s))))
                        (fun _ => SenderLink.attach_completion None) s0
                      = (Normal tt, s2)).
      { rewrite <- Hrun. destruct s0; reflexivity. }
      rewrite Hbody. exact H2.
  - (* createSender_rejected *)
    intros s H. unfold bind at 1, get.
    destruct (nth_error (SenderLink.pendingCreate s) k); [| exact H].
    unfold bind at 1, modify. cbn beta iota.
    apply not_attached_inv. apply inv_attach_failure. destruct s; exact H.
  - (* client_errorReceived *)
    inv_frame.
  - (* link_detached *)
    pres. unfold SenderLink.detachHandler.
    intros s1 Hs1. apply not_attached_inv.
    apply (post_bind sender_inv not_attached); [| | exact Hs1].
    + apply inv_transition. discriminate.
    + intros _. pres; [na_leaf | apply na_transition; discriminate].
  - (* link_errorReceived *)
    pres. apply inv_emit.
  - (* send_fulfilled *)
    unfold SenderLink.safeCallback. pres; inv_frame.
  - (* send_rejected *)
    unfold SenderLink.safeCallback. pres; inv_frame.
  - (* tick *)
    pres; [inv_frame | apply inv_emit].
Qed.

Lemma sender_inv_init : sender_inv SenderLink.init.
Proof. split; [constructor | simpl; discriminate]. Qed.

Lemma sender_inv_run es :
  forall s, sender_inv s -> sender_inv (SenderLink.run es s).
Proof.
  induction es as [|e es IH]; intros s H; simpl; [exact H |].
  apply IH. apply (inv_step e s H).
Qed.

(** [s'] continues the trace of [s] without calling anything back. *)
Definition extends_quietly (s s' : SenderLink.t) : Prop :=
  exists more, SenderLink.trace s' = SenderLink.trace s ++ more
               /\ Forall no_callback more.

Lemma extends_quietly_refl s : extends_quietly s s.
Proof. exists []. rewrite app_nil_r. auto. Qed.

Lemma extends_quietly_trans s1 s2 s3 :
  extends_quietly s1 s2 -> extends_quietly s2 s3 -> extends_quietly s1 s3.
Proof.
  intros [m1 [E1 H1]] [m2 [E2 H2]]. exists (m1 ++ m2). split.
  - rewrite E2, E1, app_assoc. reflexivity.
  - apply Forall_app. auto.
Qed.

Lemma effects_of_extension (c : M SenderLink.t unit) s more :
  SenderLink.trace (exec c s) = SenderLink.trace s ++ more ->
  SenderLink.effects_of c s = more.
Proof.
  intros E. unfold SenderLink.effects_of. rewrite E.
  rewrite skipn_app, skipn_all, Nat.sub_diag. reflexivity.
Qed.

Ltac quiet :=
  first [ exists []; split; [symmetry; apply app_nil_r | constructor]
        | eexists; split; [reflexivity | repeat constructor] ].

(** A replayed input on a link that is not attached and holds no link
    object: no state is entered in which requests are failed. *)
Lemma replayed_handler_quiet i s :
  SenderLink.state s <> attached ->
  SenderLink.linkObject s = None ->
  let s' := snd (SenderLink.handle_with SenderLink.transition_core i s) in
  SenderLink.state s' <> attached
  /\ SenderLink.linkObject s' = None
  /\ extends_quietly s s'.
Proof.
  intros Hst Hl. destruct s as [st iq lo mq ae ac dl el pc inf nt tr].
  simpl in Hst, Hl. subst lo.
  destruct st; try contradiction; destruct i; cbn;
    (split; [discriminate | split; [reflexivity | unfold extends_quietly; cbn; quiet]]).
Qed.

Lemma replay_quiet items :
  forall s,
    SenderLink.state s <> attached ->
    SenderLink.linkObject s = None ->
    extends_quietly s
      (snd (for_each (fun p : FsmState * SenderLink.Input =>
                  SenderLink.handle_with SenderLink.transition_core (snd p))
                     items s)).
Proof.
  induction items as [|p items IH]; intros s Hst Hl; cbn [for_each].
  - apply extends_quietly_refl.
  - unfold bind.
    destruct (replayed_handler_quiet (snd p) s Hst Hl) as [Hst' [Hl' Hq]].
    destruct (SenderLink.handle_with SenderLink.transition_core (snd p) s)
      as [[[]|e] s1]; simpl in *.
    + eapply extends_quietly_trans; [exact Hq | apply IH; assumption].
    + exact Hq.
Qed.

(** From ['detached'] the machine starts attaching. *)
Lemma transition_attaching_quiet s :
  SenderLink.state s = detached ->
  deferred_until_detached s ->
  extends_quietly s (snd (SenderLink.transition attaching s)).
Proof.
  intros Hst Hq. unfold SenderLink.transition, bind at 1, get. rewrite Hst.
  cbn [FsmState_eqb].
  set (s1 := SenderLink.set_pendingCreate
               (SenderLink.pendingCreate s ++ [None])
               (SenderLink.set_trace (SenderLink.trace s ++ [SenderLink.CreateSender])
                  (SenderLink.set_state attaching s))).
  assert (Hcore : SenderLink.transition_core attaching s = (Normal tt, s1)).
  { destruct s; simpl in Hst; subst. reflexivity. }
  unfold bind. rewrite Hcore.
  rewrite processQueue_none.
  - destruct s; simpl. unfold extends_quietly; simpl. quiet.
  - destruct s; exact Hq.
  - destruct s; simpl. discriminate.
Qed.

(** [detach] on an attached link: the link object is detached, the machine
    arrives in ['detached'] with an empty queue and replays what was deferred. *)
Lemma attached_detach_quiet s :
  sender_inv s ->
  SenderLink.state s = attached ->
  extends_quietly s (snd (SenderLink.handle SenderLink.detach s)).
Proof.
  intros [Hq Hatt] Hst. destruct (Hatt Hst) as [Hmq Hl].
  destruct (SenderLink.linkObject s) as [l|] eqn:El; [| contradiction].
  assert (Hrun : SenderLink.handle SenderLink.detach s
                 = bind (SenderLink.transition detaching)
                        (fun _ => bind SenderLink.detachLink
                                    (fun _ => SenderLink.transition detached)) s).
  { unfold SenderLink.handle, SenderLink.handle_with, bind at 1, get.
    rewrite Hst. reflexivity. }
  rewrite Hrun. clear Hrun.
  set (s1 := SenderLink.set_state detaching
               (SenderLink.set_detachedListeners
                  (remove_listener l (SenderLink.detachedListeners s)) s)).
  assert (H1 : SenderLink.transition detaching s = (Normal tt, s1)).
  { rewrite (transition_from_attached detaching s l Hst El) by discriminate.
    unfold bind, ret. apply processQueue_none.
    - destruct s; exact Hq.
    - destruct s; simpl. discriminate. }
  set (s2 := SenderLink.set_linkObject None
               (SenderLink.set_trace (SenderLink.trace s1 ++ [SenderLink.ForceDetach l]) s1)).
  assert (H2 : SenderLink.detachLink s1 = (Normal tt, s2)).
  { destruct s; simpl in El; subst. reflexivity. }
  set (s3 := SenderLink.set_inputQueue [] (SenderLink.set_state detached s2)).
  assert (H3 : SenderLink.transition detached s2
               = for_each (fun p : FsmState * SenderLink.Input =>
                  SenderLink.handle_with SenderLink.transition_core (snd p))
                          (SenderLink.inputQueue s) s3).
  { destruct (filter_until_detached _ Hq) as [F1 F2].
    destruct s; simpl in Hst, Hmq, El, F1, F2; subst.
    unfold SenderLink.transition, bind at 1, get. cbn [SenderLink.state s2 s1
      SenderLink.set_linkObject SenderLink.set_trace SenderLink.set_state
      SenderLink.set_detachedListeners FsmState_eqb].
    unfold bind at 1. 
    assert (Hcore : SenderLink.transition_core detached s2
                    = (Normal tt, SenderLink.set_state detached s2)) by reflexivity.
    rewrite Hcore. unfold SenderLink.processQueue, bind at 1, get.
    cbn [SenderLink.inputQueue SenderLink.state SenderLink.set_state s2 s1
         SenderLink.set_linkObject SenderLink.set_trace SenderLink.set_detachedListeners].
    rewrite F1, F2. reflexivity. }
  unfold bind. rewrite H1, H2, H3.
  apply (extends_quietly_trans s s3).
  - destruct s; unfold extends_quietly; simpl. quiet.
  - apply replay_quiet; destruct s; simpl; [discriminate | reflexivity].
Qed.

(** The reading of the specification: no public method call adds a
    callback call to the trace. *)
Definition no_synchronous_callback : Prop :=
  forall es e,
    SenderLink.is_public e = true ->
    Forall no_callback
           (SenderLink.effects_of (SenderLink.step e)
                                  (SenderLink.run es SenderLink.init)).

(** [attach] on the attached link calls its callback before it returns. *)
Lemma attach_callback_is_synchronous : ~ no_synchronous_callback.
Proof.
  intros H.
  specialize (H [SenderLink.call_attach (Some 1); SenderLink.createSender_resolved 0 7]
                (SenderLink.call_attach (Some 9)) eq_refl).
  vm_compute in H. inversion H as [|x l Hx Hl]. discriminate Hx.
Qed.

(** What a public call may add to the trace before it returns. *)
Definition allowed_synchronously (s : SenderLink.t) (e : SenderLink.Event)
           (x : SenderLink.Effect) : Prop :=
  match x with
  | SenderLink.SendCallback _ _ _ => False
  | SenderLink.AttachCallback cb err =>
      SenderLink.state s = attached
      /\ e = SenderLink.call_attach (Some cb)
      /\ err = None
  | _ => True
  end.

Lemma quiet_allowed s e more :
  Forall no_callback more -> Forall (allowed_synchronously s e) more.
Proof.
  apply Forall_impl. intros x Hx. destruct x; simpl; try exact I; discriminate Hx.
Qed.

Lemma quiet_effects s e (c : M SenderLink.t unit) :
  extends_quietly s (snd (c s)) ->
  Forall (allowed_synchronously s e) (SenderLink.effects_of c s).
Proof.
  intros [more [E Hq]]. rewrite (effects_of_extension c s more E).
  apply quiet_allowed, Hq.
Qed.

(** C9.  After any run of a SenderLink, a call of [send], of [attach], or of
    [detach] on a link that is not attaching, calls no per-send callback
    before it returns, and calls an attach callback before it returns only
    when [attach] finds the link attached (then with no error).  The
    outcome of a send on the link object is not delivered when the send
    settles: the call of the callback is put on the next-tick queue. *)
Theorem sender_public_calls_defer_callbacks :
  (forall es e,
      SenderLink.is_public e = true ->
      let s := SenderLink.run es SenderLink.init in
      (e = SenderLink.call_detach -> SenderLink.state s <> attaching) ->
      Forall (allowed_synchronously s e)
             (SenderLink.effects_of (SenderLink.step e) s))
  /\ (forall s k cb d,
         nth_error (SenderLink.inflight s) k = Some (Some cb) ->
         SenderLink.step (SenderLink.send_fulfilled k d) s
         = (Normal tt,
            SenderLink.set_nextTick (SenderLink.nextTick s ++ [(cb, None, Some d)])
              (SenderLink.set_inflight (remove_nth k (SenderLink.inflight s)) s)))
  /\ (forall s k cb err,
         nth_error (SenderLink.inflight s) k = Some (Some cb) ->
         SenderLink.step (SenderLink.send_rejected k err) s
         = (Normal tt,
            SenderLink.set_nextTick (SenderLink.nextTick s ++ [(cb, Some err, None)])
              (SenderLink.set_inflight (remove_nth k (SenderLink.inflight s)) s))).
Proof.
  split; [| split].
  - intros es e Hpub s Hdetach.
    assert (Hinv : sender_inv s) by (apply sender_inv_run, sender_inv_init).
    clearbody s. pose proof Hinv as [Hq Hatt].
    destruct (SenderLink.state s) eqn:Hst.
    + (* detached *)
      destruct e; try discriminate Hpub; unfold SenderLink.step,
        SenderLink.attach_method, SenderLink.detach_method, SenderLink.send_method,
        SenderLink.handle, SenderLink.handle_with; apply quiet_effects;
        unfold bind at 1, get; rewrite Hst; cbn iota.
      * unfold bind at 1, modify. cbn beta iota.
        eapply extends_quietly_trans;
          [| apply transition_attaching_quiet; destruct s; assumption].
        destruct s; unfold extends_quietly; simpl; quiet.
      * apply extends_quietly_refl.
      * unfold SenderLink.pushToQueue, bind at 1 2, modify. cbn beta iota.
        eapply extends_quietly_trans;
          [| apply transition_attaching_quiet; destruct s; assumption].
        destruct s; unfold extends_quietly; simpl; quiet.
    + (* attaching *)
      destruct e; try discriminate Hpub; unfold SenderLink.step,
        SenderLink.attach_method, SenderLink.detach_method, SenderLink.send_method,
        SenderLink.handle, SenderLink.handle_with.
      * apply quiet_effects. unfold bind at 1, get. rewrite Hst.
        apply extends_quietly_refl.
      * exfalso. apply Hdetach; reflexivity.
      * apply quiet_effects. unfold bind at 1, get. rewrite Hst. cbn iota.
        destruct s; unfold extends_quietly; simpl; quiet.
    + (* attached *)
      destruct (Hatt eq_refl) as [Hmq Hl].
      destruct e; try discriminate Hpub; unfold SenderLink.step,
        SenderLink.attach_method, SenderLink.detach_method, SenderLink.send_method.
      * destruct cb as [cb|].
        -- rewrite (effects_of_extension _ s [SenderLink.AttachCallback cb None]).
           ++ constructor; [| constructor]. simpl. auto.
           ++ destruct s; simpl in Hst; subst. reflexivity.
        -- apply quiet_effects. destruct s; simpl in Hst; subst.
           apply extends_quietly_refl.
      * apply quiet_effects. apply attached_detach_quiet; assumption.
      * apply quiet_effects.
        destruct s as [st iq lo mq ae ac dl el pc inf nt tr]; simpl in Hst, Hl; subst.
        destruct lo as [l|]; [| contradiction].
        unfold extends_quietly; cbn. quiet.
    + (* detaching *)
      destruct e; try discriminate Hpub; unfold SenderLink.step,
        SenderLink.attach_method, SenderLink.detach_method, SenderLink.send_method,
        SenderLink.handle, SenderLink.handle_with; apply quiet_effects;
        unfold bind at 1, get; rewrite Hst; destruct s; unfold extends_quietly; simpl; quiet.
  - intros s k cb d Hk. unfold SenderLink.step, bind at 1, get. rewrite Hk.
    destruct s; reflexivity.
  - intros s k cb err Hk. unfold SenderLink.step, bind at 1, get. rewrite Hk.
    destruct s; reflexivity.
Qed.

Lemma sender_public_calls_defer_callbacks_witness :
  Forall (allowed_synchronously
            (SenderLink.run [SenderLink.call_send 1 (Some 101);
                             SenderLink.createSender_resolved 0 7] SenderLink.init)
            SenderLink.call_detach)
         (SenderLink.effects_of
            (SenderLink.step SenderLink.call_detach)
            (SenderLink.run [SenderLink.call_send 1 (Some 101);
                             SenderLink.createSender_resolved 0 7] SenderLink.init)).
Proof.
  apply (proj1 sender_public_calls_defer_callbacks
               [SenderLink.call_send 1 (Some 101); SenderLink.createSender_resolved 0 7]
               SenderLink.call_detach).
  - reflexivity.
  - intros _. simpl. discriminate.
Defined.

(** C1.  A request sent while a detach of the attaching link has failed is
    never completed: the detach throws with the machine left in
    ['detaching'], the second [send] is deferred until ['detached'], and
    once the link has attached and the first request has been delivered
    nothing is outstanding, yet the second callback has not been called. *)
Theorem sender_deferred_send_is_left_behind :
  let es := [SenderLink.call_send 1 (Some 101);
             SenderLink.call_detach;
             SenderLink.call_send 2 (Some 102);
             SenderLink.createSender_resolved 0 7;
             SenderLink.send_fulfilled 0 55;
             SenderLink.tick] in
  let s := SenderLink.run es SenderLink.init in
  fst (SenderLink.step SenderLink.call_detach
         (SenderLink.run [SenderLink.call_send 1 (Some 101)] SenderLink.init))
  = Thrown (cannot_read "forceDetach")
  /\ SenderLink.state
       (SenderLink.run [SenderLink.call_send 1 (Some 101); SenderLink.call_detach]
                       SenderLink.init) = detaching
  /\ fst (SenderLink.step (SenderLink.call_send 2 (Some 102))
            (SenderLink.run [SenderLink.call_send 1 (Some 101); SenderLink.call_detach]
                            SenderLink.init))
     = Normal tt
  /\ SenderLink.send_callbacks_called (SenderLink.trace s) = [101]
  /\ SenderLink.state s = attached
  /\ SenderLink.messageQueue s = []
  /\ SenderLink.pendingCreate s = []
  /\ SenderLink.inflight s = []
  /\ SenderLink.nextTick s = []
  /\ SenderLink.inputQueue s = [(detached, SenderLink.send 2 (Some 102))].
Proof. vm_compute. repeat split. Qed.

(** A deferred request is dropped altogether when the replay of an earlier
    deferred [detach] throws: its callback is held nowhere afterwards. *)
Lemma sender_deferred_send_is_dropped :
  let es := [SenderLink.call_send 1 (Some 101);
             SenderLink.call_detach;
             SenderLink.call_send 2 (Some 102);
             SenderLink.call_detach;
             SenderLink.call_send 3 (Some 103);
             SenderLink.createSender_rejected 0 (mkError Error "refused");
             SenderLink.createSender_resolved 0 7;
             SenderLink.send_fulfilled 0 55;
             SenderLink.tick] in
  let s := SenderLink.run es SenderLink.init in
  SenderLink.send_callbacks_called (SenderLink.trace s) = [101; 102]
  /\ SenderLink.messageQueue s = []
  /\ SenderLink.inputQueue s = []
  /\ SenderLink.pendingCreate s = []
  /\ SenderLink.inflight s = []
  /\ SenderLink.nextTick s = [].
Proof. vm_compute. repeat split. Qed.


(** ** The [_onExit] handlers *)

(** In the sender link and in the twin client [_onExit] finds its link
    object after every run, so it never throws. *)
Lemma sender_onExit_completes es :
  let s := SenderLink.run es SenderLink.init in
  SenderLink.state s = attached ->
  completes SenderLink.attached_onExit s = true.
Proof.
  intros s Hst.
  destruct (sender_inv_run es SenderLink.init sender_inv_init) as [_ Hatt].
  fold s in Hatt. destruct (Hatt Hst) as [_ Hl].
  unfold completes, SenderLink.attached_onExit, bind, get.
  destruct (SenderLink.linkObject s); [reflexivity | contradiction].
Qed.

Lemma twin_onExit_completes uuid_v4 twinEndpoint es :
  let s := Twin.run uuid_v4 twinEndpoint es Twin.init in
  Twin.state s = Twin.connected ->
  completes Twin.connected_onExit s = true.
Proof.
  intros s Hst.
  destruct (twin_inv_run uuid_v4 twinEndpoint es Twin.init twin_inv_init) as [Hc _].
  fold s in Hc. destruct (Hc Hst) as [_ Hd].
  unfold completes, Twin.connected_onExit, bind, get.
  destruct (Twin.downstreamAmqpLink s); [reflexivity | contradiction].
Qed.

(** In the receiver link [_detachHandler] clears the link object before the
    transition, so [attached._onExit] throws: the machine stays in
    ['attached'] and ignores every later input, [attach] included. *)
Lemma receiver_stuck_after_peer_detach :
  let r := ReceiverLink.run [ReceiverLink.link_detached 8 None] attached_receiver in
  ReceiverLink.state r = attached
  /\ ReceiverLink.linkObject r = None
  /\ ReceiverLink.inExitHandler r = true
  /\ ReceiverLink.attach_method (Some 9) r = (Normal tt, r).
Proof. vm_compute. repeat split. Qed.


(** * Further properties of the code *)

(** ** The checks and the annotations of [_sendTwinRequest] *)

Definition is_scalar (v : JsValue) : bool :=
  isString v || isNumber v || isBoolean v.

Lemma encode_property_outcome k v m :
  (is_scalar v = true -> exists m', Twin.encode_property (k, v) m = (Normal tt, m'))
  /\ (is_scalar v = false ->
      Twin.encode_property (k, v) m = (Thrown Twin.non_string_properties, m)).
Proof.
  unfold Twin.encode_property, is_scalar.
  destruct v as [| |b|z|str|fields]; simpl; split; intros H; try discriminate H;
    try reflexivity;
    destruct (String.eqb k "$rid"); unfold bind, Twin.lift; simpl;
    try (destruct b); eexists; reflexivity.
Qed.

Lemma encode_properties_outcome fields :
  forall m,
    (forallb (fun kv => is_scalar (snd kv)) fields = true ->
     exists m', for_each Twin.encode_property fields m = (Normal tt, m'))
    /\ (forallb (fun kv => is_scalar (snd kv)) fields = false ->
        exists m', for_each Twin.encode_property fields m
                   = (Thrown Twin.non_string_properties, m')).
Proof.
  induction fields as [|[k v] fields IH]; intros m; cbn [for_each forallb snd].
  - split; intros H; [exists m; reflexivity | discriminate H].
  - destruct (encode_property_outcome k v m) as [Hok Hbad].
    destruct (is_scalar v) eqn:Ev; cbn [andb].
    + destruct (Hok eq_refl) as [m1 E1]. unfold bind. rewrite E1.
      apply IH.
    + split; intros H; [discriminate H |].
      exists m. unfold bind. rewrite (Hbad eq_refl). reflexivity.
Qed.

(** X1.  The checks of [_sendTwinRequest], in the order they are made: a
    falsy method, resource, properties or body gives the ReferenceError,
    whatever the types; then a method or resource that is not a string
    gives an ArgumentError; then properties that are not an object; then a
    property value that is not a string, number or boolean.  A request
    that passes all four is encoded. *)
Theorem twin_request_checks (method resource properties body : JsValue) :
  (truthy method && truthy resource && truthy properties && truthy body = false ->
   Twin.twin_request_message method resource properties body
   = Thrown Twin.missing_parameter)
  /\ (truthy method && truthy resource && truthy properties && truthy body = true ->
      (isString method && isString resource = false ->
       Twin.twin_request_message method resource properties body
       = Thrown Twin.not_a_string)
      /\ (isString method && isString resource = true ->
          (isObject properties = false ->
           Twin.twin_request_message method resource properties body
           = Thrown Twin.not_an_object)
          /\ (forall fields,
                 properties = JsObj fields ->
                 (forallb (fun kv => is_scalar (snd kv)) fields = false ->
                  Twin.twin_request_message method resource properties body
                  = Thrown Twin.non_string_properties)
                 /\ (forallb (fun kv => is_scalar (snd kv)) fields = true ->
                     exists m,
                       Twin.twin_request_message method resource properties body
                       = Normal m)))).
Proof.
  unfold Twin.twin_request_message, Twin.encode_twin_request.
  split.
  - intros H.
    destruct (truthy method), (truthy resource), (truthy properties), (truthy body);
      try discriminate H; reflexivity.
  - intros Ht.
    destruct (truthy method) eqn:Tm; [| discriminate Ht].
    destruct (truthy resource) eqn:Tr; [| discriminate Ht].
    destruct (truthy properties) eqn:Tp; [| discriminate Ht].
    destruct (truthy body) eqn:Tb; [| discriminate Ht].
    cbn [negb orb]. split.
    + intros Hs. destruct (isString method), (isString resource);
        try discriminate Hs; reflexivity.
    + intros Hs.
      destruct method as [| | | |ms|]; try discriminate Hs.
      destruct resource as [| | | |rs|]; try discriminate Hs.
      cbn [isString negb orb]. split.
      * intros Ho. destruct properties; try discriminate Ho; try reflexivity;
          discriminate Tp.
      * intros fields Hp. subst properties.
        assert (Hbody : exists b, toString body = Normal b).
        { destruct body as [| |[]| | |]; try discriminate Tb; eexists; reflexivity. }
        destruct Hbody as [b Hb].
        cbv zeta.
        destruct (Nat.ltb 0 (String.length rs));
          [destruct (Nat.ltb 0 (String.length
                                  match last_char rs with
                                  | Some "/"%char => drop_last rs
                                  | _ => rs
                                  end)) |];
          destruct (String.eqb ms "PATCH");
          cbv [bind Twin.set_annotation modify ret Twin.lift];
          rewrite Hb;
          match goal with
          | |- context [for_each Twin.encode_property fields ?m] =>
              destruct (encode_properties_outcome fields m) as [Hok Hbad]
          end;
          (split; intros Hf;
           [ destruct (Hbad Hf) as [m' E]; rewrite E; reflexivity
           | destruct (Hok Hf) as [m' E]; rewrite E; eexists; reflexivity ]).
Qed.

Lemma twin_request_checks_witness :
  exists m,
    Twin.twin_request_message (JsStr "PATCH") (JsStr "/properties/reported/")
                              (JsObj [("$rid"%string, JsNum 7)]) (JsStr "{}")
    = Normal m.
Proof.
  apply (proj2 (proj2 (proj2 (twin_request_checks
                                (JsStr "PATCH") (JsStr "/properties/reported/")
                                (JsObj [("$rid"%string, JsNum 7)]) (JsStr "{}"))
                             eq_refl) eq_refl)
               [("$rid"%string, JsNum 7)] eq_refl);
    reflexivity.
Defined.

Lemma last_char_slash base : last_char (base ++ "/")%string = Some "/"%char.
Proof.
  induction base as [|c base IH]; [reflexivity |].
  cbn [String.append last_char]. rewrite IH.
  destruct (base ++ "/")%string eqn:E; [| reflexivity].
  destruct base; discriminate E.
Qed.

Lemma drop_last_slash base : drop_last (base ++ "/")%string = base.
Proof.
  induction base as [|c base IH]; [reflexivity |].
  cbn [String.append drop_last]. rewrite IH.
  destruct (base ++ "/")%string eqn:E; [| reflexivity].
  destruct base; discriminate E.
Qed.

Lemma length_positive (s : string) :
  Nat.ltb 0 (String.length s) = negb (String.eqb s "").
Proof. destruct s; reflexivity. Qed.

(** A property whose key is not among the caller's leaves the annotation
    of that key, and the body, as they were. *)
Lemma encode_properties_keep fields :
  forall m m',
    for_each Twin.encode_property fields m = (Normal tt, m') ->
    (forall k, ~ In k (keys fields) ->
               obj_get k (Twin.messageAnnotations m') = obj_get k (Twin.messageAnnotations m))
    /\ Twin.body m' = Twin.body m.
Proof.
  induction fields as [|[k0 v0] fields IH]; intros m m' Hrun.
  - simpl in Hrun. unfold ret in Hrun. inversion Hrun; subst. auto.
  - cbn [for_each] in Hrun. unfold bind in Hrun.
    destruct (Twin.encode_property (k0, v0) m) as [[[]|e] m1] eqn:E1;
      [| discriminate Hrun].
    destruct (IH m1 m' Hrun) as [Hkeep Hbody].
    destruct (encode_property_normal k0 v0 m m1 E1) as [Hisrid Hnotrid].
    split.
    + intros k Hk. simpl in Hk. rewrite Hkeep by tauto.
      destruct (String.eqb_spec k0 "$rid") as [E|E].
      * destruct (Hisrid E) as [str [_ [Ha _]]]. rewrite Ha. reflexivity.
      * destruct (Hnotrid E) as [Ha _]. rewrite Ha.
        apply obj_get_set_other. intros Heq. apply Hk. left. congruence.
    + rewrite Hbody. clear - E1. unfold Twin.encode_property in E1.
      destruct (negb (isString v0) && negb (isNumber v0) && negb (isBoolean v0));
        [discriminate |].
      destruct (String.eqb k0 "$rid").
      * unfold bind, Twin.lift in E1. destruct (toString v0); [| discriminate].
        inversion E1; reflexivity.
      * inversion E1; reflexivity.
Qed.

(** X2.  The annotations and the body of an encoded twin request whose
    properties do not themselves use the keys [operation], [resource] or
    [version]: [operation] is the method; [resource] is the resource
    without one trailing slash, and is absent when nothing is left of it;
    [version] is present, with value null, exactly for the method PATCH;
    and the body is the body converted to a string. *)
Theorem twin_request_annotations (ms rs : string) fields (body : JsValue) m :
  Twin.twin_request_message (JsStr ms) (JsStr rs) (JsObj fields) body = Normal m ->
  ~ In "operation"%string (keys fields) ->
  ~ In "resource"%string (keys fields) ->
  ~ In "version"%string (keys fields) ->
  obj_get "operation" (Twin.messageAnnotations m) = Some (JsStr ms)
  /\ (forall base, rs = (base ++ "/")%string ->
                   obj_get "resource" (Twin.messageAnnotations m)
                   = if String.eqb base "" then None else Some (JsStr base))
  /\ (last_char rs <> Some "/"%char ->
      obj_get "resource" (Twin.messageAnnotations m) = Some (JsStr rs))
  /\ obj_get "version" (Twin.messageAnnotations m)
     = (if String.eqb ms "PATCH" then Some JsNull else None)
  /\ (exists b, toString body = Normal b /\ Twin.body m = Some b).
Proof.
  intros Hmsg Hop Hres Hver. unfold Twin.twin_request_message in Hmsg.
  destruct (Twin.encode_twin_request (JsStr ms) (JsStr rs) (JsObj fields) body
                                     Twin.empty_message) as [[[]|e] m'] eqn:Hrun;
    [| discriminate Hmsg].
  inversion Hmsg; subst m'. clear Hmsg.
  unfold Twin.encode_twin_request in Hrun.
  destruct (negb (truthy (JsStr ms)) || negb (truthy (JsStr rs))
            || negb (truthy (JsObj fields)) || negb (truthy body)) eqn:Ht;
    [discriminate Hrun |].
  assert (Hrs : String.eqb rs "" = false).
  { cbn [truthy] in Ht. destruct (String.eqb rs ""); [| reflexivity].
    destruct (String.eqb ms ""); discriminate Ht. }
  cbn [isString negb orb] in Hrun.
  apply bind_normal_inv in Hrun. destruct Hrun as [[] [m1 [H1 Hrun]]].
  apply bind_normal_inv in Hrun. destruct Hrun as [[] [m2 [H2 Hrun]]].
  apply bind_normal_inv in Hrun. destruct Hrun as [[] [m3 [H3 Hrun]]].
  apply bind_normal_inv in Hrun. destruct Hrun as [[] [m4 [H4 Hrun]]].
  apply bind_normal_inv in Hrun. destruct Hrun as [b [m5 [H5 H6]]].
  destruct (encode_properties_keep fields m3 m4 H4) as [Hkeep Hbody4].
  assert (Hm : Twin.messageAnnotations m = Twin.messageAnnotations m4
               /\ Twin.body m = Some b /\ toString body = Normal b).
  { unfold Twin.lift in H5. inversion H5; subst.
    unfold Twin.set_body, modify in H6. inversion H6; subst. auto. }
  destruct Hm as [Ha [Hb Hts]]. rewrite Ha.
  rewrite !Hkeep by assumption.
  unfold Twin.set_annotation, modify in H1. inversion H1; subst m1. clear H1.
  cbn [Twin.messageAnnotations Twin.properties Twin.body Twin.empty_message obj_set] in *.
  assert (A2 : Twin.messageAnnotations m2
               = let trimmed := match last_char rs with
                                | Some "/"%char => drop_last rs
                                | _ => rs
                                end in
                 if String.eqb trimmed ""
                 then [("operation"%string, JsStr ms)]
                 else obj_set "resource" (JsStr trimmed) [("operation"%string, JsStr ms)]).
  { cbv zeta in H2 |- *. rewrite !length_positive, Hrs in H2. cbn [negb] in H2.
    destruct (String.eqb match last_char rs with
                         | Some "/"%char => drop_last rs
                         | _ => rs
                         end "");
      cbn [negb] in H2; unfold ret, Twin.set_annotation, modify in H2;
      inversion H2; reflexivity. }
  assert (A3 : Twin.messageAnnotations m3
               = if String.eqb ms "PATCH"
                 then obj_set "version" JsNull (Twin.messageAnnotations m2)
                 else Twin.messageAnnotations m2).
  { destruct (String.eqb ms "PATCH");
      unfold ret, Twin.set_annotation, modify in H3; inversion H3; reflexivity. }
  clear H2 H3 H4 H5 H6.
  assert (Hget2 : forall k, k <> "resource"%string ->
                            obj_get k (Twin.messageAnnotations m2)
                            = obj_get k [("operation"%string, JsStr ms)]).
  { intros k Hk. rewrite A2. cbv zeta.
    match goal with
    | |- context [String.eqb ?t ""] => destruct (String.eqb t "")
    end; [reflexivity |].
    apply obj_get_set_other. exact Hk. }
  assert (Hget3 : forall k, k <> "version"%string ->
                            obj_get k (Twin.messageAnnotations m3)
                            = obj_get k (Twin.messageAnnotations m2)).
  { intros k Hk. rewrite A3. destruct (String.eqb ms "PATCH"); [| reflexivity].
    apply obj_get_set_other. exact Hk. }
  assert (Hresource : obj_get "resource" (Twin.messageAnnotations m3)
                      = let trimmed := match last_char rs with
                                       | Some "/"%char => drop_last rs
                                       | _ => rs
                                       end in
                        if String.eqb trimmed "" then None else Some (JsStr trimmed)).
  { rewrite Hget3 by discriminate. rewrite A2. cbv zeta.
    match goal with
    | |- context [String.eqb ?t ""] => destruct (String.eqb t "")
    end; [reflexivity | apply obj_get_set_same]. }
  repeat split.
  - rewrite Hget3, Hget2 by discriminate. reflexivity.
  - intros base Hbase. rewrite Hresource. cbv zeta. subst rs.
    rewrite last_char_slash, drop_last_slash. reflexivity.
  - intros Hlast. rewrite Hresource. cbv zeta.
    assert (E : match last_char rs with
                | Some "/"%char => drop_last rs
                | _ => rs
                end = rs).
    { destruct (last_char rs) as [c|]; [| reflexivity].
      destruct (Ascii.ascii_dec c "/"%char) as [Ec|Ec]; [subst; contradiction |].
      destruct c as [[] [] [] [] [] [] [] []]; try reflexivity.
      contradiction Ec. reflexivity. }
    rewrite E, Hrs. reflexivity.
  - rewrite A3. destruct (String.eqb ms "PATCH").
    + apply obj_get_set_same.
    + rewrite Hget2 by discriminate. reflexivity.
  - exists b. auto.
Qed.

Definition patch_request_message : Twin.AmqpMessage :=
  Twin.mkMessage [("operation"%string, JsStr "PATCH");
                  ("resource"%string, JsStr "/properties/reported");
                  ("version"%string, JsNull)]
                 [("correlationId"%string, JsStr "7")]
                 (Some "{}"%string).

Lemma twin_request_annotations_witness :
  obj_get "operation" (Twin.messageAnnotations patch_request_message)
  = Some (JsStr "PATCH")
  /\ (forall base, "/properties/reported/"%string = (base ++ "/")%string ->
                   obj_get "resource" (Twin.messageAnnotations patch_request_message)
                   = if String.eqb base "" then None else Some (JsStr base))
  /\ (last_char "/properties/reported/" <> Some "/"%char ->
      obj_get "resource" (Twin.messageAnnotations patch_request_message)
      = Some (JsStr "/properties/reported/"))
  /\ obj_get "version" (Twin.messageAnnotations patch_request_message)
     = (if String.eqb "PATCH" "PATCH" then Some JsNull else None)
  /\ (exists b, toString (JsStr "{}") = Normal b
                /\ Twin.body patch_request_message = Some b).
Proof.
  apply (twin_request_annotations "PATCH" "/properties/reported/"
                                  [("$rid"%string, JsNum 7)] (JsStr "{}")
                                  patch_request_message);
    [reflexivity | simpl; intuition discriminate ..].
Defined.

(** ** Requests and subscriptions of the twin client *)

(** X3.  A twin client that is not connected never looks at the arguments
    of [sendTwinRequest]: whatever they are, the call completes normally,
    the input is appended to the deferred inputs to be replayed in
    ['connected'], nothing is sent upstream, and the only effect is that a
    disconnected client starts connecting, asking for the receiver link
    under a fresh channel correlation id. *)
Theorem twin_request_deferred_unless_connected
        (uuid_v4 : nat -> string) (twinEndpoint : string) (s : Twin.t)
        (method resource properties body : JsValue) (done : option Callback) :
  Twin.state s <> Twin.connected ->
  let call := Twin.sendTwinRequest_method uuid_v4 twinEndpoint
                                          method resource properties body done in
  completes call s = true
  /\ Twin.inputQueue (exec call s)
     = Twin.inputQueue s
       ++ [(Twin.connected, Twin.sendTwinRequest method resource properties body done)]
  /\ Twin.inflight (exec call s) = Twin.inflight s
  /\ Twin.trace (exec call s)
     = Twin.trace s
       ++ match Twin.state s with
          | Twin.disconnected =>
              [Twin.Transition Twin.connecting;
               Twin.AttachReceiverLink twinEndpoint
                 ("twin:" ++ uuid_v4 (Twin.uuidSeq s))%string]
          | _ => []
          end
  /\ Twin.state (exec call s)
     = match Twin.state s with
       | Twin.disconnected => Twin.connecting
       | st => st
       end.
Proof.
  intros Hst call. subst call.
  destruct s as [st iq rl pl io up down cc dh mh us rap sap sdp rdp inf nt ru su tr].
  simpl in Hst. destruct st; try contradiction; cbn.
  - rewrite <- app_assoc. repeat split.
  - rewrite app_nil_r. repeat split.
  - rewrite app_nil_r. repeat split.
Qed.

Lemma twin_request_deferred_unless_connected_witness :
  let call := Twin.sendTwinRequest_method test_uuid twin_endpoint
                (JsStr "GET") (JsStr "/") (JsObj []) (JsStr " ") (Some 3) in
  completes call Twin.init = true
  /\ Twin.inputQueue (exec call Twin.init)
     = Twin.inputQueue Twin.init
       ++ [(Twin.connected,
            Twin.sendTwinRequest (JsStr "GET") (JsStr "/") (JsObj []) (JsStr " ") (Some 3))]
  /\ Twin.inflight (exec call Twin.init) = Twin.inflight Twin.init
  /\ Twin.trace (exec call Twin.init)
     = Twin.trace Twin.init
       ++ match Twin.state Twin.init with
          | Twin.disconnected =>
              [Twin.Transition Twin.connecting;
               Twin.AttachReceiverLink twin_endpoint
                 ("twin:" ++ test_uuid (Twin.uuidSeq Twin.init))%string]
          | _ => []
          end
  /\ Twin.state (exec call Twin.init)
     = match Twin.state Twin.init with
       | Twin.disconnected => Twin.connecting
       | st => st
       end.
Proof.
  apply (twin_request_deferred_unless_connected test_uuid twin_endpoint Twin.init).
  simpl. discriminate.
Defined.

(** X4.  On a connected twin client [sendTwinRequest] either throws the
    error of the checks and leaves the client exactly as it was, or hands
    the encoded message to the upstream link and keeps [done] for the
    outcome of that send; nothing else changes. *)
Theorem twin_request_when_connected
        (uuid_v4 : nat -> string) (twinEndpoint : string) (s : Twin.t) (l : LinkObject)
        (method resource properties body : JsValue) (done : option Callback) :
  Twin.state s = Twin.connected ->
  Twin.upstreamAmqpLink s = Some l ->
  let call := Twin.sendTwinRequest_method uuid_v4 twinEndpoint
                                          method resource properties body done in
  (forall e, Twin.twin_request_message method resource properties body = Thrown e ->
             call s = (Thrown e, s))
  /\ (forall m, Twin.twin_request_message method resource properties body = Normal m ->
                call s
                = (Normal tt,
                   Twin.set_inflight (Twin.inflight s ++ [done])
                     (Twin.set_trace (Twin.trace s ++ [Twin.UpstreamSend l m]) s))).
Proof.
  intros Hst Hup call. subst call.
  destruct s as [st iq rl pl io up down cc dh mh us rap sap sdp rdp inf nt ru su tr].
  simpl in Hst, Hup. subst st up.
  unfold Twin.sendTwinRequest_method, Twin.handle, Twin.handle_with, bind at 1, get.
  cbn [Twin.state]. unfold Twin._sendTwinRequest.
  split.
  - intros e He. rewrite He. reflexivity.
  - intros m Hm. rewrite Hm. reflexivity.
Qed.

Lemma twin_request_when_connected_witness :
  let call := Twin.sendTwinRequest_method test_uuid twin_endpoint
                (JsStr "PATCH") (JsStr "/properties/reported/")
                (JsObj [("$rid"%string, JsNum 7)]) (JsStr "{}") (Some 3) in
  (forall e, Twin.twin_request_message (JsStr "PATCH") (JsStr "/properties/reported/")
               (JsObj [("$rid"%string, JsNum 7)]) (JsStr "{}") = Thrown e ->
             call connected_twin = (Thrown e, connected_twin))
  /\ (forall m, Twin.twin_request_message (JsStr "PATCH") (JsStr "/properties/reported/")
                  (JsObj [("$rid"%string, JsNum 7)]) (JsStr "{}") = Normal m ->
                call connected_twin
                = (Normal tt,
                   Twin.set_inflight (Twin.inflight connected_twin ++ [Some 3])
                     (Twin.set_trace
                        (Twin.trace connected_twin ++ [Twin.UpstreamSend 6 m])
                        connected_twin))).
Proof.
  apply (twin_request_when_connected test_uuid twin_endpoint connected_twin 6);
    reflexivity.
Defined.

Lemma ops_get_set_same k c o : Twin.ops_get k (Twin.ops_set k c o) = Some c.
Proof.
  induction o as [|[k' c'] o IH]; simpl.
  - rewrite String.eqb_refl. reflexivity.
  - destruct (String.eqb_spec k k') as [E|E]; simpl.
    + rewrite String.eqb_refl. reflexivity.
    + destruct (String.eqb_spec k k'); [contradiction | exact IH].
Qed.

Lemma ops_delete_set_fresh k c o :
  Twin.ops_get k o = None -> Twin.ops_delete k (Twin.ops_set k c o) = o.
Proof.
  induction o as [|[k' c'] o IH]; simpl; intros H.
  - rewrite String.eqb_refl. reflexivity.
  - destruct (String.eqb_spec k k') as [E|E]; [discriminate H |].
    simpl. destruct (String.eqb_spec k k'); [contradiction |].
    rewrite (IH H). reflexivity.
Qed.

(** The request that switches the desired-property notifications on or off. *)
Definition notification_request (method correlationId : string) : Twin.AmqpMessage :=
  Twin.mkMessage [("operation"%string, JsStr method);
                  ("resource"%string, JsStr "/notifications/twin/properties/desired")]
                 [("correlationId"%string, JsStr correlationId)]
                 (Some " "%string).

(** A message whose correlation id is that of an internal operation runs
    the continuation of the operation and takes it out of the table. *)
Lemma internal_operation_response s cid data :
  cid <> ""%string ->
  Twin.ops_get cid (Twin.internalOperations s) = Some Twin.emit_subscribed_post ->
  Twin.onAmqpMessage (Twin.mkInbound (Some cid) data) s
  = (Normal tt,
     Twin.set_trace
       (Twin.trace s ++ [Twin.EmitSubscribed Twin.post (Twin.upstreamAmqpLink s)])
       (Twin.set_internalOperations (Twin.ops_delete cid (Twin.internalOperations s)) s)).
Proof.
  intros Hne Hget. unfold Twin.onAmqpMessage.
  cbn [Twin.in_correlationId Twin.in_data].
  destruct (String.eqb_spec cid "") as [E|_]; [contradiction |].
  unfold Twin.onResponseMessage, bind at 1, get. rewrite Hget.
  destruct s; reflexivity.
Qed.

(** X5.  The ['post'] subscription of a connected twin client, for a fresh
    correlation id that is not empty and not in use: the new listener makes
    the client send a PUT on the notification resource under that id, with
    body [" "], and emit nothing yet; the message that comes back with
    that correlation id makes it emit ['subscribed'] for ['post'] with the
    upstream link, emits no ['response'], and leaves the table of internal
    operations as it was before. *)
Theorem twin_post_subscription
        (uuid_v4 : nat -> string) (twinEndpoint : string) (s : Twin.t) (l : LinkObject)
        (data : option JsValue) :
  Twin.state s = Twin.connected ->
  Twin.upstreamAmqpLink s = Some l ->
  uuid_v4 (Twin.uuidSeq s) <> ""%string ->
  Twin.ops_get (uuid_v4 (Twin.uuidSeq s)) (Twin.internalOperations s) = None ->
  let id := uuid_v4 (Twin.uuidSeq s) in
  let s1 := exec (Twin.handle uuid_v4 twinEndpoint (Twin.handleNewListener Twin.post)) s in
  let s2 := exec (Twin.onAmqpMessage (Twin.mkInbound (Some id) data)) s1 in
  completes (Twin.handle uuid_v4 twinEndpoint (Twin.handleNewListener Twin.post)) s = true
  /\ Twin.trace s1 = Twin.trace s ++ [Twin.UpstreamSend l (notification_request "PUT" id)]
  /\ Twin.ops_get id (Twin.internalOperations s1) = Some Twin.emit_subscribed_post
  /\ Twin.inflight s1 = Twin.inflight s ++ [None]
  /\ Twin.trace s2 = Twin.trace s1 ++ [Twin.EmitSubscribed Twin.post (Some l)]
  /\ Twin.internalOperations s2 = Twin.internalOperations s.
Proof.
  intros Hst Hup Hne Hfresh id s1 s2.
  destruct s as [st iq rl pl io up down cc dh mh us rap sap sdp rdp inf nt ru su tr].
  simpl in Hst, Hup, Hne, Hfresh, id. subst st up.
  assert (E1 : s1 = Twin.set_inflight (inf ++ [None])
                      (Twin.set_trace (tr ++ [Twin.UpstreamSend l (notification_request "PUT" id)])
                         (Twin.set_internalOperations
                            (Twin.ops_set id Twin.emit_subscribed_post io)
                            (Twin.set_uuidSeq (S us)
                               (Twin.mk Twin.connected iq rl pl io (Some l) down cc dh mh us
                                        rap sap sdp rdp inf nt ru su tr))))).
  { reflexivity. }
  split; [reflexivity |].
  split; [rewrite E1; reflexivity |].
  split; [rewrite E1; apply ops_get_set_same |].
  split; [rewrite E1; reflexivity |].
  subst s2. rewrite E1. unfold exec.
  rewrite (internal_operation_response _ id data Hne)
    by (cbn [Twin.internalOperations Twin.set_inflight Twin.set_trace
             Twin.set_internalOperations]; apply ops_get_set_same).
  cbn. rewrite (ops_delete_set_fresh id _ io Hfresh). split; reflexivity.
Qed.

Lemma twin_post_subscription_witness :
  let id := test_uuid (Twin.uuidSeq connected_twin) in
  let s1 := exec (Twin.handle test_uuid twin_endpoint (Twin.handleNewListener Twin.post))
                 connected_twin in
  let s2 := exec (Twin.onAmqpMessage (Twin.mkInbound (Some id) None)) s1 in
  completes (Twin.handle test_uuid twin_endpoint (Twin.handleNewListener Twin.post))
            connected_twin = true
  /\ Twin.trace s1
     = Twin.trace connected_twin ++ [Twin.UpstreamSend 6 (notification_request "PUT" id)]
  /\ Twin.ops_get id (Twin.internalOperations s1) = Some Twin.emit_subscribed_post
  /\ Twin.inflight s1 = Twin.inflight connected_twin ++ [None]
  /\ Twin.trace s2 = Twin.trace s1 ++ [Twin.EmitSubscribed Twin.post (Some 6)]
  /\ Twin.internalOperations s2 = Twin.internalOperations connected_twin.
Proof.
  apply (twin_post_subscription test_uuid twin_endpoint connected_twin 6 None).
  - reflexivity.
  - reflexivity.
  - vm_compute. discriminate.
  - reflexivity.
Defined.



(** ** Queueing and attaching in the SenderLink *)

(** X7.  After any sequence of calls and events on a new SenderLink: every
    deferred input waits for ['detached'], and a link in ['attached'] has
    an empty message queue and holds its link object. *)
Theorem sender_attached_means_drained (es : list SenderLink.Event) :
  let s := SenderLink.run es SenderLink.init in
  Forall (fun p => fst p = detached) (SenderLink.inputQueue s)
  /\ (SenderLink.state s = attached ->
      SenderLink.messageQueue s = [] /\ SenderLink.linkObject s <> None).
Proof.
  intros s. exact (sender_inv_run es SenderLink.init sender_inv_init).
Qed.

Definition to_item (p : Message * option Callback) : SenderLink.QueueItem :=
  SenderLink.mkItem (fst p) (snd p).

Lemma sender_run_cons e es s :
  SenderLink.run (e :: es) s = SenderLink.run es (exec (SenderLink.step e) s).
Proof. reflexivity. Qed.

Lemma sends_while_attaching sends :
  forall s,
    SenderLink.state s = attaching ->
    SenderLink.run (map (fun p => SenderLink.call_send (fst p) (snd p)) sends) s
    = SenderLink.set_messageQueue (SenderLink.messageQueue s ++ map to_item sends) s.
Proof.
  induction sends as [|[m cb] sends IH]; intros s Hst; cbn [map fst snd].
  - cbn [SenderLink.run fold_left]. rewrite app_nil_r. destruct s; reflexivity.
  - rewrite sender_run_cons.
    assert (E : exec (SenderLink.step (SenderLink.call_send m cb)) s
                = SenderLink.set_messageQueue
                    (SenderLink.messageQueue s ++ [SenderLink.mkItem m cb]) s).
    { destruct s; simpl in Hst; subst. reflexivity. }
    rewrite E, IH by (destruct s; exact Hst).
    destruct s; simpl. rewrite <- app_assoc. reflexivity.
Qed.

(** X8.  Sending on a detached SenderLink: however many messages are sent
    before the attach completes, the link asks the client for a sender
    exactly once, on the first of them, is ['attaching'] afterwards, and
    the requests are queued in the order of the calls; no callback is
    called and nothing is handed to a link object. *)
Theorem sends_before_attach_queue_in_order
        (s : SenderLink.t) (first : Message * option Callback)
        (others : list (Message * option Callback)) :
  SenderLink.state s = detached ->
  Forall (fun p => fst p = detached) (SenderLink.inputQueue s) ->
  let calls := map (fun p => SenderLink.call_send (fst p) (snd p)) (first :: others) in
  let s' := SenderLink.run calls s in
  SenderLink.state s' = attaching
  /\ SenderLink.messageQueue s'
     = SenderLink.messageQueue s ++ map to_item (first :: others)
  /\ SenderLink.trace s' = SenderLink.trace s ++ [SenderLink.CreateSender]
  /\ SenderLink.pendingCreate s' = SenderLink.pendingCreate s ++ [None]
  /\ SenderLink.inflight s' = SenderLink.inflight s.
Proof.
  intros Hst Hq calls s'. subst s' calls. destruct first as [m cb].
  cbn [map fst snd]. rewrite sender_run_cons.
  set (s1 := SenderLink.set_pendingCreate
               (SenderLink.pendingCreate s ++ [None])
               (SenderLink.set_trace (SenderLink.trace s ++ [SenderLink.CreateSender])
                  (SenderLink.set_state attaching
                     (SenderLink.set_attachCallback None
                        (SenderLink.set_messageQueue
                           (SenderLink.messageQueue s ++ [SenderLink.mkItem m cb]) s))))).
  assert (E : exec (SenderLink.step (SenderLink.call_send m cb)) s = s1).
  { unfold exec, SenderLink.step, SenderLink.send_method, SenderLink.handle,
      SenderLink.handle_with, bind at 1, get. rewrite Hst. cbn iota.
    unfold SenderLink.pushToQueue, bind at 1 2, modify. cbn beta iota.
    unfold SenderLink.transition, bind at 1, get.
    assert (Hst2 : SenderLink.state
                     (SenderLink.set_attachCallback None
                        (SenderLink.set_messageQueue
                           (SenderLink.messageQueue s ++ [SenderLink.mkItem m cb]) s))
                   = detached) by (destruct s; exact Hst).
    rewrite Hst2. cbn [FsmState_eqb]. unfold bind.
    assert (Hcore : SenderLink.transition_core attaching
                      (SenderLink.set_attachCallback None
                         (SenderLink.set_messageQueue
                            (SenderLink.messageQueue s ++ [SenderLink.mkItem m cb]) s))
                    = (Normal tt, s1)).
    { destruct s; simpl in Hst; subst. reflexivity. }
    rewrite Hcore. rewrite processQueue_none; [reflexivity | |].
    - destruct s; exact Hq.
    - destruct s; simpl. discriminate. }
  rewrite E, sends_while_attaching by (destruct s; reflexivity).
  destruct s; simpl. rewrite <- app_assoc. repeat split.
Qed.

Lemma sends_before_attach_queue_in_order_witness :
  let calls := map (fun p => SenderLink.call_send (fst p) (snd p))
                   [(1, Some 101); (2, Some 102)] in
  let s' := SenderLink.run calls SenderLink.init in
  SenderLink.state s' = attaching
  /\ SenderLink.messageQueue s'
     = SenderLink.messageQueue SenderLink.init
       ++ map to_item [(1, Some 101); (2, Some 102)]
  /\ SenderLink.trace s' = SenderLink.trace SenderLink.init ++ [SenderLink.CreateSender]
  /\ SenderLink.pendingCreate s' = SenderLink.pendingCreate SenderLink.init ++ [None]
  /\ SenderLink.inflight s' = SenderLink.inflight SenderLink.init.
Proof.
  apply (sends_before_attach_queue_in_order SenderLink.init (1, Some 101) [(2, Some 102)]).
  - reflexivity.
  - constructor.
Defined.

Lemma bind_run {S A B} (c : M S A) (k : A -> M S B) s a s1 :
  c s = (Normal a, s1) -> bind c k s = k a s1.
Proof. intros H. unfold bind. rewrite H. reflexivity. Qed.

Lemma bind_thrown {S A B} (c : M S A) (k : A -> M S B) s e s1 :
  c s = (Thrown e, s1) -> bind c k s = (Thrown e, s1).
Proof. intros H. unfold bind. rewrite H. reflexivity. Qed.

Lemma try_catch_run {S A} (c : M S A) (h : JsError -> M S A) s a s1 :
  c s = (Normal a, s1) -> try_catch c h s = (Normal a, s1).
Proof. intros H. unfold try_catch. rewrite H. reflexivity. Qed.

Lemma try_catch_thrown {S A} (c : M S A) (h : JsError -> M S A) s e s1 :
  c s = (Thrown e, s1) -> try_catch c h s = h e s1.
Proof. intros H. unfold try_catch. rewrite H. reflexivity. Qed.

(** The sends of a queue, on the link object [l]. *)
Definition link_sends (l : LinkObject) (q : list SenderLink.QueueItem)
  : list SenderLink.Effect :=
  map (fun item => SenderLink.LinkSend l (SenderLink.message item)) q.

Lemma drain_queue_exact q :
  forall s l,
    SenderLink.linkObject s = Some l ->
    SenderLink.drain_queue q s
    = (Normal tt,
       SenderLink.set_inflight
         (SenderLink.inflight s ++ map SenderLink.callback q)
         (SenderLink.set_trace
            (SenderLink.trace s ++ link_sends l q)
            (SenderLink.set_messageQueue
               (match q with [] => SenderLink.messageQueue s | _ => [] end) s))).
Proof.
  induction q as [|item q IH]; intros s l Hl.
  - cbn. rewrite !app_nil_r. destruct s; reflexivity.
  - cbn [SenderLink.drain_queue].
    set (s1 := SenderLink.set_inflight
                 (SenderLink.inflight s ++ [SenderLink.callback item])
                 (SenderLink.set_trace
                    (SenderLink.trace s ++ [SenderLink.LinkSend l (SenderLink.message item)])
                    (SenderLink.set_messageQueue q s))).
    assert (Hstep : bind (modify (SenderLink.set_messageQueue q))
                         (fun _ => SenderLink.attached_send (SenderLink.message item)
                                                            (SenderLink.callback item)) s
                    = (Normal tt, s1)).
    { destruct s; simpl in Hl; subst. reflexivity. }
    assert (Hrun : bind (modify (SenderLink.set_messageQueue q))
                        (fun _ => bind (SenderLink.attached_send (SenderLink.message item)
                                                                 (SenderLink.callback item))
                                       (fun _ => SenderLink.drain_queue q)) s
                   = SenderLink.drain_queue q s1).
    { unfold bind in Hstep |- *.
      destruct (modify (SenderLink.set_messageQueue q) s) as [[[]|e] s0];
        [| discriminate Hstep].
      rewrite Hstep. reflexivity. }
    rewrite Hrun, (IH s1 l) by (destruct s; exact Hl).
    destruct s; simpl. unfold link_sends. cbn [map].
    rewrite <- !app_assoc. destruct q; reflexivity.
Qed.

(** Arrival in ['attached'] of a link that holds its link object. *)
Lemma transition_attached_exact s l :
  SenderLink.state s <> attached ->
  deferred_until_detached s ->
  SenderLink.linkObject s = Some l ->
  SenderLink.transition attached s
  = (Normal tt,
     SenderLink.set_inflight
       (SenderLink.inflight s ++ map SenderLink.callback (SenderLink.messageQueue s))
       (SenderLink.set_trace
          (SenderLink.trace s ++ link_sends l (SenderLink.messageQueue s))
          (SenderLink.set_messageQueue [] (SenderLink.set_state attached s)))).
Proof.
  intros Hst Hq Hl.
  set (s0 := SenderLink.set_state attached s).
  assert (Hne : FsmState_eqb (SenderLink.state s) attached = false).
  { destruct (SenderLink.state s); try reflexivity. contradiction. }
  assert (Hcore : SenderLink.transition_core attached s
                  = SenderLink.drain_queue (SenderLink.messageQueue s0) s0).
  { unfold SenderLink.transition_core, bind at 1, get. rewrite Hne.
    destruct s; simpl in Hst |- *. destruct state; try contradiction; reflexivity. }
  unfold SenderLink.transition, bind at 1, get. rewrite Hne. unfold bind.
  rewrite Hcore, (drain_queue_exact _ s0 l) by (destruct s; exact Hl).
  rewrite processQueue_none.
  - destruct s; simpl. destruct messageQueue; reflexivity.
  - destruct s; exact Hq.
  - destruct s; simpl. discriminate.
Qed.

(** X9.  When the sender is created without a connection error on a link
    that is not attached: the link becomes ['attached'] with the new link
    object, every queued message is handed to it, in queue order, before
    the attach callback (if any) is called with no error, the callbacks of
    the messages wait, in the same order, for the outcome of their send,
    and the queue is empty. *)
Theorem attach_success_sends_queue_in_order
        (s : SenderLink.t) (k : nat) (l : LinkObject) :
  SenderLink.state s <> attached ->
  Forall (fun p => fst p = detached) (SenderLink.inputQueue s) ->
  nth_error (SenderLink.pendingCreate s) k = Some None ->
  let s' := exec (SenderLink.step (SenderLink.createSender_resolved k l)) s in
  completes (SenderLink.step (SenderLink.createSender_resolved k l)) s = true
  /\ SenderLink.state s' = attached
  /\ SenderLink.linkObject s' = Some l
  /\ SenderLink.messageQueue s' = []
  /\ SenderLink.trace s'
     = SenderLink.trace s
       ++ link_sends l (SenderLink.messageQueue s)
       ++ match SenderLink.attachCallback s with
          | Some cb => [SenderLink.AttachCallback cb None]
          | None => []
          end
  /\ SenderLink.inflight s'
     = SenderLink.inflight s ++ map SenderLink.callback (SenderLink.messageQueue s)
  /\ SenderLink.attachError s' = None
  /\ SenderLink.attachCallback s' = None
  /\ SenderLink.pendingCreate s' = remove_nth k (SenderLink.pendingCreate s).
Proof.
  intros Hst Hq Hk s'. subst s'.
  assert (Hrun : exists sF,
             SenderLink.step (SenderLink.createSender_resolved k l) s = (Normal tt, sF)
             /\ SenderLink.state sF = attached
             /\ SenderLink.linkObject sF = Some l
             /\ SenderLink.messageQueue sF = []
             /\ SenderLink.trace sF
                = SenderLink.trace s
                  ++ link_sends l (SenderLink.messageQueue s)
                  ++ match SenderLink.attachCallback s with
                     | Some cb => [SenderLink.AttachCallback cb None]
                     | None => []
                     end
             /\ SenderLink.inflight sF
                = SenderLink.inflight s
                  ++ map SenderLink.callback (SenderLink.messageQueue s)
             /\ SenderLink.attachError sF = None
             /\ SenderLink.attachCallback sF = None
             /\ SenderLink.pendingCreate sF = remove_nth k (SenderLink.pendingCreate s)).
  { destruct s as [st iq lo mq ae ac dl el pc inf nt tr]. cbn in Hst, Hq, Hk.
    destruct ac as [cb|]; eexists; (split; [
      unfold SenderLink.step;
      erewrite bind_run by reflexivity; cbn [SenderLink.pendingCreate]; rewrite Hk;
      erewrite bind_run by reflexivity;
      unfold SenderLink.createSender_then; apply try_catch_run;
      erewrite bind_run by reflexivity;
      unfold SenderLink.attach_completion;
      erewrite bind_run by reflexivity;
      erewrite bind_run
        by (apply (transition_attached_exact _ l); [exact Hst | exact Hq | reflexivity]);
      erewrite bind_run by reflexivity;
      cbn; reflexivity
    | cbn; rewrite ?app_nil_r, <- ?app_assoc; repeat split ]). }
  destruct Hrun as (sF & Hrun & Hprops).
  unfold completes, exec. rewrite Hrun. cbn [fst snd]. split; [reflexivity | exact Hprops].
Qed.

(** A link asked to attach, with two sends waiting for it. *)
Definition queued_sender : SenderLink.t :=
  SenderLink.run [SenderLink.call_attach (Some 9);
                  SenderLink.call_send 1 (Some 101);
                  SenderLink.call_send 2 (Some 102)] SenderLink.init.

Lemma attach_success_sends_queue_in_order_witness :
  let s' := exec (SenderLink.step (SenderLink.createSender_resolved 0 5)) queued_sender in
  completes (SenderLink.step (SenderLink.createSender_resolved 0 5)) queued_sender = true
  /\ SenderLink.state s' = attached
  /\ SenderLink.linkObject s' = Some 5
  /\ SenderLink.messageQueue s' = []
  /\ SenderLink.trace s'
     = SenderLink.trace queued_sender
       ++ link_sends 5 (SenderLink.messageQueue queued_sender)
       ++ match SenderLink.attachCallback queued_sender with
          | Some cb => [SenderLink.AttachCallback cb None]
          | None => []
          end
  /\ SenderLink.inflight s'
     = SenderLink.inflight queued_sender
       ++ map SenderLink.callback (SenderLink.messageQueue queued_sender)
  /\ SenderLink.attachError s' = None
  /\ SenderLink.attachCallback s' = None
  /\ SenderLink.pendingCreate s' = remove_nth 0 (SenderLink.pendingCreate queued_sender).
Proof.
  apply (attach_success_sends_queue_in_order queued_sender 0 5).
  - vm_compute. discriminate.
  - vm_compute. constructor.
  - reflexivity.
Defined.

(** The sender that was asked for is refused, or is created after the
    client reported the error [err]. *)
Definition attach_fails (s : SenderLink.t) (ev : SenderLink.Event) (err : JsError) : Prop :=
  match ev with
  | SenderLink.createSender_rejected k e =>
      e = err /\ nth_error (SenderLink.pendingCreate s) k <> None
  | SenderLink.createSender_resolved k _ =>
      nth_error (SenderLink.pendingCreate s) k = Some (Some err)
  | _ => False
  end.

Lemma attach_completion_failure err q :
  Forall (fun item => SenderLink.callback item <> None) q ->
  exists calls,
    Forall2 (failure_call err) q calls
    /\ forall s,
        SenderLink.state s = attaching ->
        SenderLink.inputQueue s = [] ->
        SenderLink.messageQueue s = q ->
        SenderLink.attach_completion (Some err) s
        = (Normal tt,
           SenderLink.set_attachCallback None
             (SenderLink.set_trace
                (SenderLink.trace s ++ calls
                 ++ match SenderLink.attachCallback s with
                    | Some cb => [SenderLink.AttachCallback cb (Some err)]
                    | None => []
                    end)
                (SenderLink.set_messageQueue []
                   (SenderLink.set_state detached
                      (SenderLink.set_attachError (Some err) s))))).
Proof.
  intros Hcb. destruct (fail_queue_run err q Hcb) as [calls [Hcalls Hrun]].
  exists calls. split; [exact Hcalls |].
  intros s Hst Hiq Hq.
  destruct s as [st iq lo mq ae ac dl el pc inf nt tr]. cbn in Hst, Hiq, Hq. subst.
  set (s1 := SenderLink.set_state detached
               (SenderLink.set_attachError (Some err)
                  (SenderLink.mk attaching [] lo q ae ac dl el pc inf nt tr))).
  assert (Henter : SenderLink.detached_onEnter s1
                   = (Normal tt,
                      SenderLink.set_messageQueue []
                        (SenderLink.set_trace (SenderLink.trace s1 ++ calls) s1))).
  { unfold SenderLink.detached_onEnter. erewrite bind_run by reflexivity.
    cbn [SenderLink.messageQueue s1 SenderLink.set_state SenderLink.set_attachError
         SenderLink.attachError].
    destruct q as [|item q].
    - inversion Hcalls; subst. cbn. rewrite app_nil_r. reflexivity.
    - apply Hrun. reflexivity. }
  unfold SenderLink.attach_completion.
  erewrite bind_run by reflexivity.
  erewrite bind_run.
  2:{ unfold SenderLink.transition. erewrite bind_run by reflexivity.
      cbn [SenderLink.state SenderLink.set_attachError FsmState_eqb].
      erewrite bind_run.
      2:{ unfold SenderLink.transition_core. erewrite bind_run by reflexivity.
          cbn [SenderLink.state SenderLink.set_attachError FsmState_eqb].
          erewrite bind_run by reflexivity.
          erewrite bind_run by reflexivity.
          exact Henter. }
      subst s1. cbn. reflexivity. }
  erewrite bind_run by reflexivity.
  subst s1. destruct ac; cbn; unfold SenderLink.emit, modify, ret; cbn;
    rewrite ?app_nil_r, <- ?app_assoc; reflexivity.
Qed.

(** X10.  When the attach of a link in ['attaching'] fails (the promise of
    [createSender] is rejected with [err], or it is fulfilled after the
    client reported [err]), with nothing deferred and every queued request
    carrying a callback: the link goes back to ['detached'], every queued
    request is failed with [err] itself, in queue order, and only then is
    the attach callback (if any) called with [err]; no link object is
    stored and nothing is sent. *)
Theorem attach_failure_fails_queue_with_attach_error
        (s : SenderLink.t) (ev : SenderLink.Event) (err : JsError) :
  SenderLink.state s = attaching ->
  SenderLink.inputQueue s = [] ->
  Forall (fun item => SenderLink.callback item <> None) (SenderLink.messageQueue s) ->
  attach_fails s ev err ->
  let s' := exec (SenderLink.step ev) s in
  exists calls,
    Forall2 (failure_call err) (SenderLink.messageQueue s) calls
    /\ completes (SenderLink.step ev) s = true
    /\ SenderLink.state s' = detached
    /\ SenderLink.messageQueue s' = []
    /\ SenderLink.trace s'
       = SenderLink.trace s ++ calls
         ++ match SenderLink.attachCallback s with
            | Some cb => [SenderLink.AttachCallback cb (Some err)]
            | None => []
            end
    /\ SenderLink.attachError s' = Some err
    /\ SenderLink.attachCallback s' = None
    /\ SenderLink.linkObject s' = SenderLink.linkObject s
    /\ SenderLink.inflight s' = SenderLink.inflight s.
Proof.
  intros Hst Hiq Hcb Hev s'. subst s'.
  destruct (attach_completion_failure err (SenderLink.messageQueue s) Hcb)
    as [calls [Hcalls Hrun]].
  exists calls. split; [exact Hcalls |].
  assert (Hstep : forall k,
             SenderLink.attach_completion (Some err)
               (SenderLink.set_pendingCreate
                  (remove_nth k (SenderLink.pendingCreate s)) s) = _)
    by (intros k; apply Hrun; destruct s; assumption || reflexivity).
  unfold completes, exec.
  destruct ev as [| | |k l|k e| | | | | |]; try contradiction; cbn in Hev.
  - unfold SenderLink.step. erewrite bind_run by reflexivity. rewrite Hev.
    erewrite bind_run by reflexivity.
    unfold SenderLink.createSender_then.
    erewrite try_catch_run
      by (erewrite bind_run by reflexivity; apply (Hstep k)).
    destruct s; cbn. repeat split.
  - destruct Hev as [-> Hk].
    unfold SenderLink.step. erewrite bind_run by reflexivity.
    destruct (nth_error (SenderLink.pendingCreate s) k); [| contradiction].
    erewrite bind_run by reflexivity. rewrite (Hstep k).
    destruct s; cbn. repeat split.
Qed.

Lemma attach_failure_fails_queue_with_attach_error_witness :
  let err := mkError Error "refused" in
  let ev := SenderLink.createSender_rejected 0 err in
  let s' := exec (SenderLink.step ev) queued_sender in
  exists calls,
    Forall2 (failure_call err) (SenderLink.messageQueue queued_sender) calls
    /\ completes (SenderLink.step ev) queued_sender = true
    /\ SenderLink.state s' = detached
    /\ SenderLink.messageQueue s' = []
    /\ SenderLink.trace s'
       = SenderLink.trace queued_sender ++ calls
         ++ match SenderLink.attachCallback queued_sender with
            | Some cb => [SenderLink.AttachCallback cb (Some err)]
            | None => []
            end
    /\ SenderLink.attachError s' = Some err
    /\ SenderLink.attachCallback s' = None
    /\ SenderLink.linkObject s' = SenderLink.linkObject queued_sender
    /\ SenderLink.inflight s' = SenderLink.inflight queued_sender.
Proof.
  apply (attach_failure_fails_queue_with_attach_error
           queued_sender (SenderLink.createSender_rejected 0 (mkError Error "refused"))
           (mkError Error "refused")).
  - reflexivity.
  - reflexivity.
  - vm_compute. repeat constructor; discriminate.
  - vm_compute. split; [reflexivity | discriminate].
Defined.

(** ** The receiver link *)

(** The calls of the public interface of a receiver link. *)
Definition is_receiver_call (ev : ReceiverLink.Event) : bool :=
  match ev with
  | ReceiverLink.call_attach _ | ReceiverLink.call_detach
  | ReceiverLink.call_accept _ _ | ReceiverLink.call_reject _ _
  | ReceiverLink.call_abandon _ _ => true
  | _ => false
  end.

Lemma receiver_handle_in_exit_handler tr i s :
  ReceiverLink.inExitHandler s = true ->
  ReceiverLink.handle_with tr i s = (Normal tt, s).
Proof.
  intros H. unfold ReceiverLink.handle_with, bind, get. rewrite H. reflexivity.
Qed.

Lemma receiver_calls_in_exit_handler es :
  forall s,
    ReceiverLink.inExitHandler s = true ->
    forallb is_receiver_call es = true ->
    ReceiverLink.run es s = s.
Proof.
  induction es as [|ev es IH]; intros s Hs Hes; [reflexivity |].
  cbn [forallb] in Hes. apply andb_prop in Hes. destruct Hes as [Hev Hes].
  change (ReceiverLink.run (ev :: es) s)
    with (ReceiverLink.run es (exec (ReceiverLink.step ev) s)).
  assert (E : exec (ReceiverLink.step ev) s = s).
  { unfold exec. destruct ev; try discriminate Hev; cbn [ReceiverLink.step];
      unfold ReceiverLink.attach_method, ReceiverLink.detach_method,
        ReceiverLink.accept_method, ReceiverLink.reject_method,
        ReceiverLink.abandon_method, ReceiverLink.handle;
      rewrite receiver_handle_in_exit_handler by exact Hs; reflexivity. }
  rewrite E. apply IH; assumption.
Qed.

Lemma repeat_n_thrown {S} (c : M S unit) n s e s1 :
  0 < n -> c s = (Thrown e, s1) -> repeat_n n c s = (Thrown e, s1).
Proof.
  intros Hn Hc. destruct n as [|n]; [lia |].
  cbn [repeat_n]. apply bind_thrown. exact Hc.
Qed.

(** X11.  When the peer detaches (without an error) the link of a receiver
    that is ['attached'], the detach handler clears the link object before
    it asks for the transition, so the exit handler of ['attached'] throws
    a [TypeError] on it: the machine stays in ['attached'] without a link
    object, its handlers stay registered, and from then on every call of
    [attach], [detach], [accept], [reject] and [abandon] returns without
    any effect (no callback is ever called). *)
Theorem receiver_peer_detach_leaves_link_stuck
        (s : ReceiverLink.t) (l : LinkObject) (calls : list ReceiverLink.Event) :
  ReceiverLink.state s = attached ->
  ReceiverLink.inExitHandler s = false ->
  In l (ReceiverLink.listeners s) ->
  forallb is_receiver_call calls = true ->
  let s' := ReceiverLink.set_inExitHandler true (ReceiverLink.set_linkObject None s) in
  ReceiverLink.step (ReceiverLink.link_detached l None) s
  = (Thrown (cannot_read "removeListener"), s')
  /\ ReceiverLink.state s' = attached
  /\ ReceiverLink.listeners s' = ReceiverLink.listeners s
  /\ ReceiverLink.run calls s' = s'.
Proof.
  intros Hst Hflag Hin Hcalls s'. split; [| split; [| split]].
  - unfold ReceiverLink.step. erewrite bind_run by reflexivity.
    apply repeat_n_thrown.
    + apply (proj1 (count_occ_In Nat.eq_dec _ _)) in Hin. lia.
    + subst s'. destruct s as [st iq lo ac ls ml pc nt tr flag].
      cbn in Hst, Hflag. subst. reflexivity.
  - subst s'. destruct s; exact Hst.
  - subst s'. destruct s; reflexivity.
  - apply receiver_calls_in_exit_handler; [destruct s; reflexivity | exact Hcalls].
Qed.

Lemma receiver_peer_detach_leaves_link_stuck_witness :
  let calls := [ReceiverLink.call_accept 3 (Some 30); ReceiverLink.call_detach;
                ReceiverLink.call_attach (Some 9)] in
  let s' := ReceiverLink.set_inExitHandler true
              (ReceiverLink.set_linkObject None attached_receiver) in
  ReceiverLink.step (ReceiverLink.link_detached 8 None) attached_receiver
  = (Thrown (cannot_read "removeListener"), s')
  /\ ReceiverLink.state s' = attached
  /\ ReceiverLink.listeners s' = ReceiverLink.listeners attached_receiver
  /\ ReceiverLink.run calls s' = s'.
Proof.
  apply (receiver_peer_detach_leaves_link_stuck attached_receiver 8).
  - reflexivity.
  - reflexivity.
  - vm_compute. left. reflexivity.
  - reflexivity.
Defined.

(** X12.  [detach] on a receiver link that is ['attached'] with a link
    object and nothing deferred: the handlers are taken off the link object
    first, then the link object is force-detached and forgotten, and the
    machine ends in ['detached']; no callback is called. *)
Theorem receiver_detach_when_attached (s : ReceiverLink.t) (l : LinkObject) :
  ReceiverLink.state s = attached ->
  ReceiverLink.inExitHandler s = false ->
  ReceiverLink.linkObject s = Some l ->
  ReceiverLink.inputQueue s = [] ->
  ReceiverLink.step ReceiverLink.call_detach s
  = (Normal tt,
     ReceiverLink.set_state detached
       (ReceiverLink.set_linkObject None
          (ReceiverLink.set_trace
             (ReceiverLink.trace s ++ [ReceiverLink.ForceDetach l])
             (ReceiverLink.set_listeners
                (remove_listener l (ReceiverLink.listeners s)) s)))).
Proof.
  intros Hst Hflag Hl Hq.
  destruct s as [st iq lo ac ls ml pc nt tr flag]. cbn in Hst, Hflag, Hl, Hq. subst.
  reflexivity.
Qed.

Lemma receiver_detach_when_attached_witness :
  ReceiverLink.step ReceiverLink.call_detach attached_receiver
  = (Normal tt,
     ReceiverLink.set_state detached
       (ReceiverLink.set_linkObject None
          (ReceiverLink.set_trace
             (ReceiverLink.trace attached_receiver ++ [ReceiverLink.ForceDetach 8])
             (ReceiverLink.set_listeners
                (remove_listener 8 (ReceiverLink.listeners attached_receiver))
                attached_receiver)))).
Proof.
  apply (receiver_detach_when_attached attached_receiver 8); reflexivity.
Defined.

(** X13.  On a receiver link that is ['detached'], [detach()] throws a
    [TypeError]: the method passes no callback and the handler of the
    state calls it.  So does the removal of the last subscriber to
    ['message'], which asks for a detach.  Nothing else changes. *)
Theorem receiver_detach_when_detached_throws (s : ReceiverLink.t) :
  ReceiverLink.state s = detached ->
  ReceiverLink.inExitHandler s = false ->
  ReceiverLink.step ReceiverLink.call_detach s
  = (Thrown (not_a_function "callback"), s)
  /\ (ReceiverLink.messageListeners s <= 1 ->
      ReceiverLink.step ReceiverLink.remove_message_listener s
      = (Thrown (not_a_function "callback"), ReceiverLink.set_messageListeners 0 s)).
Proof.
  intros Hst Hflag.
  destruct s as [st iq lo ac ls ml pc nt tr flag]. cbn in Hst, Hflag. subst. split.
  - reflexivity.
  - cbn [ReceiverLink.messageListeners]. intros Hml.
    destruct ml as [|[|ml]]; [reflexivity | reflexivity | lia].
Qed.

Lemma receiver_detach_when_detached_throws_witness :
  ReceiverLink.step ReceiverLink.call_detach ReceiverLink.init
  = (Thrown (not_a_function "callback"), ReceiverLink.init)
  /\ (ReceiverLink.messageListeners ReceiverLink.init <= 1 ->
      ReceiverLink.step ReceiverLink.remove_message_listener ReceiverLink.init
      = (Thrown (not_a_function "callback"),
         ReceiverLink.set_messageListeners 0 ReceiverLink.init)).
Proof.
  apply (receiver_detach_when_detached_throws ReceiverLink.init); reflexivity.
Defined.

(** What a deferred input does when it is replayed on the link object [l]. *)
Definition replayable (i : ReceiverLink.Input) : bool :=
  match i with
  | ReceiverLink.attach (Some _) => true
  | ReceiverLink.accept _ _ | ReceiverLink.reject _ _ | ReceiverLink.abandon _ _ => true
  | _ => false
  end.

Definition settle_callback (cb : option Callback) (result : ReceiverLink.Settled)
  : list ReceiverLink.Effect :=
  match cb with
  | Some c => [ReceiverLink.SettleCallback c result]
  | None => []
  end.

Definition replay_effects (l : LinkObject) (i : ReceiverLink.Input)
  : list ReceiverLink.Effect :=
  match i with
  | ReceiverLink.attach (Some (ReceiverLink.user_callback cb)) =>
      [ReceiverLink.AttachCallback cb None]
  | ReceiverLink.accept m cb =>
      ReceiverLink.LinkAccept l m :: settle_callback cb ReceiverLink.MessageCompleted
  | ReceiverLink.reject m cb =>
      ReceiverLink.LinkReject l m :: settle_callback cb ReceiverLink.MessageRejected
  | ReceiverLink.abandon m cb =>
      ReceiverLink.LinkAbandon l m :: settle_callback cb ReceiverLink.MessageAbandoned
  | _ => []
  end.

Lemma receiver_replay_one l i s :
  ReceiverLink.state s = attached ->
  ReceiverLink.inExitHandler s = false ->
  ReceiverLink.linkObject s = Some l ->
  replayable i = true ->
  ReceiverLink.handle_with ReceiverLink.transition_core i s
  = (Normal tt, ReceiverLink.set_trace (ReceiverLink.trace s ++ replay_effects l i) s).
Proof.
  intros Hst Hflag Hl Hi.
  destruct s as [st iq lo ac ls ml pc nt tr flag]. cbn in Hst, Hflag, Hl. subst.
  destruct i as [[[cb|]|]|cb|m [cb|]|m [cb|]|m [cb|]]; try discriminate Hi;
    cbn; unfold ReceiverLink.emit, modify, ret; cbn;
    rewrite ?app_nil_r, <- ?app_assoc; reflexivity.
Qed.

Lemma receiver_replay l (q : list (FsmState * ReceiverLink.Input)) :
  forall s,
    ReceiverLink.state s = attached ->
    ReceiverLink.inExitHandler s = false ->
    ReceiverLink.linkObject s = Some l ->
    forallb (fun p : FsmState * ReceiverLink.Input => replayable (snd p)) q = true ->
    for_each (fun p => ReceiverLink.handle_with ReceiverLink.transition_core (snd p)) q s
    = (Normal tt,
       ReceiverLink.set_trace
         (ReceiverLink.trace s ++ flat_map (fun p => replay_effects l (snd p)) q) s).
Proof.
  induction q as [|p q IH]; intros s Hst Hflag Hl Hq.
  - cbn. rewrite app_nil_r. destruct s; reflexivity.
  - cbn [forallb] in Hq. apply andb_prop in Hq. destruct Hq as [Hp Hq].
    cbn [for_each flat_map].
    erewrite bind_run by (apply (receiver_replay_one l); assumption).
    rewrite IH by (destruct s; assumption).
    destruct s; cbn. rewrite <- app_assoc. reflexivity.
Qed.

Lemma filter_all {A} (f : A -> bool) (q : list A) :
  forallb f q = true -> filter f q = q /\ filter (fun x => negb (f x)) q = [].
Proof.
  induction q as [|x q IH]; cbn; [auto |].
  intros H. apply andb_prop in H. destruct H as [Hx Hq].
  destruct (IH Hq) as [E1 E2]. rewrite Hx. cbn. rewrite E1, E2. auto.
Qed.

(** The call of the function given to [attach], on success. *)
Definition attach_fn_effects (f : option ReceiverLink.AttachFn)
  : list ReceiverLink.Effect :=
  match f with
  | Some (ReceiverLink.user_callback cb) => [ReceiverLink.AttachCallback cb None]
  | _ => []
  end.

(** X14.  Requests made on a receiver link before it is attached ([accept],
    [reject], [abandon], a further [attach]) wait until ['attached'].  When
    the attach succeeds, the handlers are put on the link object, the
    waiting requests are carried out on it in the order in which they were
    made, each callback being called with its own result, and only then is
    the callback of the first [attach] called, with no error. *)
Theorem receiver_deferred_requests_replayed_in_order
        (s : ReceiverLink.t) (l : LinkObject) (rest : list (option JsError)) :
  ReceiverLink.state s = attaching ->
  ReceiverLink.inExitHandler s = false ->
  ReceiverLink.linkObject s = Some l ->
  ReceiverLink.nextTick s = None :: rest ->
  forallb (fun p => FsmState_eqb (fst p) attached && replayable (snd p))
          (ReceiverLink.inputQueue s) = true ->
  ReceiverLink.step ReceiverLink.tick s
  = (Normal tt,
     ReceiverLink.set_attachCallback None
       (ReceiverLink.set_trace
          (ReceiverLink.trace s
           ++ flat_map (fun p => replay_effects l (snd p)) (ReceiverLink.inputQueue s)
           ++ attach_fn_effects (ReceiverLink.attachCallback s))
          (ReceiverLink.set_inputQueue []
             (ReceiverLink.set_listeners (ReceiverLink.listeners s ++ [l])
                (ReceiverLink.set_state attached
                   (ReceiverLink.set_nextTick rest s)))))).
Proof.
  intros Hst Hflag Hl Hnt Hq.
  destruct s as [st iq lo ac ls ml pc nt tr flag]. cbn in Hst, Hflag, Hl, Hnt, Hq. subst.
  assert (Hready : forallb (fun p : FsmState * ReceiverLink.Input =>
                              FsmState_eqb (fst p) attached) iq = true
                   /\ forallb (fun p : FsmState * ReceiverLink.Input =>
                                 replayable (snd p)) iq = true).
  { clear - Hq. induction iq as [|p iq IH]; cbn in *; [auto |].
    apply andb_prop in Hq. destruct Hq as [Hp Hq]. apply andb_prop in Hp.
    destruct Hp as [Hp1 Hp2]. destruct (IH Hq) as [IH1 IH2].
    rewrite Hp1, Hp2, IH1, IH2. auto. }
  destruct Hready as [Hready Hreplay].
  destruct (filter_all _ _ Hready) as [E1 E2].
  unfold ReceiverLink.step. erewrite bind_run by reflexivity.
  cbn [ReceiverLink.nextTick]. erewrite bind_run by reflexivity.
  unfold ReceiverLink.attach_completion.
  erewrite bind_run.
  2:{ unfold ReceiverLink.transition. erewrite bind_run by reflexivity.
      cbn [ReceiverLink.inExitHandler ReceiverLink.state ReceiverLink.set_nextTick
           FsmState_eqb orb].
      erewrite bind_run
        by (instantiate (1 := ReceiverLink.mk attached iq (Some l) ac (ls ++ [l]) ml pc
                                              rest tr false);
            reflexivity).
      unfold ReceiverLink.processQueue. erewrite bind_run by reflexivity.
      cbn [ReceiverLink.state ReceiverLink.inputQueue].
      rewrite E1, E2.
      erewrite bind_run by reflexivity.
      apply (receiver_replay l); [reflexivity | reflexivity | reflexivity | exact Hreplay]. }
  erewrite bind_run by reflexivity.
  destruct ac as [[cb|]|]; cbn; unfold ReceiverLink.emit, modify, ret; cbn;
    rewrite ?app_nil_r, <- ?app_assoc; reflexivity.
Qed.

(** A receiver link whose link object has been created, with an [accept],
    a [reject] and a second [attach] waiting for the attach to complete. *)
Definition receiver_with_deferred : ReceiverLink.t :=
  ReceiverLink.run [ReceiverLink.call_attach (Some 1);
                    ReceiverLink.call_accept 3 (Some 30);
                    ReceiverLink.call_reject 4 None;
                    ReceiverLink.call_attach (Some 2);
                    ReceiverLink.createReceiver_resolved 0 8]
                   ReceiverLink.init.

Lemma receiver_deferred_requests_replayed_in_order_witness :
  ReceiverLink.step ReceiverLink.tick receiver_with_deferred
  = (Normal tt,
     ReceiverLink.set_attachCallback None
       (ReceiverLink.set_trace
          (ReceiverLink.trace receiver_with_deferred
           ++ flat_map (fun p => replay_effects 8 (snd p))
                       (ReceiverLink.inputQueue receiver_with_deferred)
           ++ attach_fn_effects (ReceiverLink.attachCallback receiver_with_deferred))
          (ReceiverLink.set_inputQueue []
             (ReceiverLink.set_listeners
                (ReceiverLink.listeners receiver_with_deferred ++ [8])
                (ReceiverLink.set_state attached
                   (ReceiverLink.set_nextTick [] receiver_with_deferred)))))).
Proof.
  apply (receiver_deferred_requests_replayed_in_order receiver_with_deferred 8 []);
    reflexivity.
Defined.

(** X15.  [detach] on a receiver link that is still ['attaching'] (no link
    object yet, nothing deferred until ['detaching']) throws a [TypeError]:
    [_detachLink] reads [forceDetach] of the missing link object.  The
    machine is left in ['detaching'], where every later request, a new
    [attach] included, is only deferred until ['detached']. *)
Theorem receiver_detach_while_attaching_throws
        (s : ReceiverLink.t) (later : ReceiverLink.Input) :
  ReceiverLink.state s = attaching ->
  ReceiverLink.inExitHandler s = false ->
  ReceiverLink.linkObject s = None ->
  forallb (fun p => negb (FsmState_eqb (fst p) detaching)) (ReceiverLink.inputQueue s)
  = true ->
  let s' := ReceiverLink.set_state detaching s in
  ReceiverLink.step ReceiverLink.call_detach s = (Thrown (cannot_read "forceDetach"), s')
  /\ ReceiverLink.handle later s'
     = (Normal tt,
        ReceiverLink.set_inputQueue (ReceiverLink.inputQueue s' ++ [(detached, later)]) s').
Proof.
  intros Hst Hflag Hl Hq s'. subst s'.
  destruct s as [st iq lo ac ls ml pc nt tr flag]. cbn in Hst, Hflag, Hl, Hq. subst.
  split.
  - assert (E : filter (fun p : FsmState * ReceiverLink.Input =>
                          FsmState_eqb (fst p) detaching) iq = []
                /\ filter (fun p : FsmState * ReceiverLink.Input =>
                             negb (FsmState_eqb (fst p) detaching)) iq = iq).
    { clear - Hq. induction iq as [|p iq IH]; cbn in *; [auto |].
      apply andb_prop in Hq. destruct Hq as [Hp Hq]. destruct (IH Hq) as [E1 E2].
      destruct (FsmState_eqb (fst p) detaching); [discriminate Hp |].
      cbn. rewrite E1, E2. auto. }
    destruct E as [E1 E2].
    unfold ReceiverLink.step, ReceiverLink.detach_method, ReceiverLink.handle,
      ReceiverLink.handle_with.
    erewrite bind_run by reflexivity.
    cbn [ReceiverLink.inExitHandler ReceiverLink.state].
    erewrite bind_run.
    2:{ unfold ReceiverLink.transition. erewrite bind_run by reflexivity.
        cbn [ReceiverLink.inExitHandler ReceiverLink.state FsmState_eqb orb].
        erewrite bind_run
          by (instantiate (1 := ReceiverLink.mk detaching iq None ac ls ml pc nt tr false);
              reflexivity).
        unfold ReceiverLink.processQueue. erewrite bind_run by reflexivity.
        cbn [ReceiverLink.state ReceiverLink.inputQueue].
        rewrite E1, E2. reflexivity. }
    reflexivity.
  - destruct later; reflexivity.
Qed.

Lemma receiver_detach_while_attaching_throws_witness :
  let s := ReceiverLink.run [ReceiverLink.call_attach (Some 1)] ReceiverLink.init in
  let s' := ReceiverLink.set_state detaching s in
  ReceiverLink.step ReceiverLink.call_detach s = (Thrown (cannot_read "forceDetach"), s')
  /\ ReceiverLink.handle (ReceiverLink.attach (Some (ReceiverLink.user_callback 2))) s'
     = (Normal tt,
        ReceiverLink.set_inputQueue
          (ReceiverLink.inputQueue s'
           ++ [(detached, ReceiverLink.attach (Some (ReceiverLink.user_callback 2)))]) s').
Proof.
  apply (receiver_detach_while_attaching_throws
           (ReceiverLink.run [ReceiverLink.call_attach (Some 1)] ReceiverLink.init)
           (ReceiverLink.attach (Some (ReceiverLink.user_callback 2))));
    reflexivity.
Defined.

(** ** The put-token operations of the CBS agent *)

Section CbsPutToken.

Variable uuid_v4 : nat -> string.

(** X16.  [putToken] on an attached agent, with an audience and a token:
    the message sent on the sender link is a ['put-token'] request for the
    audience, to ['$cbs'], with the token as its body and a new uuid as
    its message id; the operation is added at the end of the outstanding
    operations under that same id, to expire 120 seconds after the call;
    and the expiry timer is set exactly when no operation was outstanding.
    The callback is not called. *)
Theorem cbs_putToken_when_attached
        (s : Cbs.t) (now : Z) (audience token : string) (cb : option Callback) :
  Cbs.state s = attached ->
  audience <> ""%string ->
  token <> ""%string ->
  let id := uuid_v4 (Cbs.uuidSeq s) in
  let request :=
    Cbs.mkPutToken "put-token" "servicebus.windows.net:sastoken" audience token
                   "$cbs" id "cbs" in
  let s' := exec (Cbs.step uuid_v4 (Cbs.call_putToken now audience token cb)) s in
  completes (Cbs.step uuid_v4 (Cbs.call_putToken now audience token cb)) s = true
  /\ Cbs.state s' = attached
  /\ Cbs.outstandingPutTokens s'
     = Cbs.outstandingPutTokens s ++ [Cbs.mkOp cb (now + 120) id]
  /\ Cbs.trace s'
     = Cbs.trace s
       ++ match Cbs.outstandingPutTokens s with
          | [] => [Cbs.SetTimeout (Cbs.timerSeq s) 10000]
          | _ => []
          end
       ++ [Cbs.SenderSend request]
  /\ Cbs.timeoutTimer s'
     = match Cbs.outstandingPutTokens s with
       | [] => Some (Cbs.timerSeq s)
       | _ => Cbs.timeoutTimer s
       end
  /\ Cbs.sends s' = Cbs.sends s ++ [id].
Proof.
  intros Hst Ha Ht id request s'. subst id request s'.
  apply String.eqb_neq in Ha. apply String.eqb_neq in Ht.
  unfold completes, exec, Cbs.step, Cbs.putToken_method. rewrite Ha, Ht.
  destruct s as [st iq ac ops tt0 ar ts rs mh sn us tr]. cbn in Hst. subst.
  unfold Cbs.handle, Cbs.attached_putToken.
  erewrite bind_run by reflexivity. cbn [Cbs.state].
  erewrite bind_run by reflexivity.
  erewrite bind_run by reflexivity.
  erewrite bind_run by reflexivity.
  erewrite bind_run by reflexivity.
  cbn [Cbs.outstandingPutTokens Cbs.set_outstandingPutTokens Cbs.set_uuidSeq].
  rewrite length_app. cbn [List.length].
  destruct ops as [|op ops].
  - cbn. rewrite <- ?app_assoc. repeat split.
  - replace (Nat.eqb (List.length (op :: ops) + 1) 1) with false
      by (symmetry; apply Nat.eqb_neq; cbn [List.length]; lia).
    cbn. rewrite <- ?app_assoc. repeat split.
Qed.

End CbsPutToken.

Lemma cbs_putToken_when_attached_witness :
  let s := attached_agent in
  let id := test_uuid (Cbs.uuidSeq s) in
  let request :=
    Cbs.mkPutToken "put-token" "servicebus.windows.net:sastoken" "hub/devices/d1" "sas"
                   "$cbs" id "cbs" in
  let s' := exec (Cbs.step test_uuid (Cbs.call_putToken 1000 "hub/devices/d1" "sas" (Some 5))) s in
  completes (Cbs.step test_uuid (Cbs.call_putToken 1000 "hub/devices/d1" "sas" (Some 5))) s = true
  /\ Cbs.state s' = attached
  /\ Cbs.outstandingPutTokens s'
     = Cbs.outstandingPutTokens s ++ [Cbs.mkOp (Some 5) (1000 + 120) id]
  /\ Cbs.trace s'
     = Cbs.trace s
       ++ match Cbs.outstandingPutTokens s with
          | [] => [Cbs.SetTimeout (Cbs.timerSeq s) 10000]
          | _ => []
          end
       ++ [Cbs.SenderSend request]
  /\ Cbs.timeoutTimer s'
     = match Cbs.outstandingPutTokens s with
       | [] => Some (Cbs.timerSeq s)
       | _ => Cbs.timeoutTimer s
       end
  /\ Cbs.sends s' = Cbs.sends s ++ [id].
Proof.
  apply (cbs_putToken_when_attached test_uuid attached_agent 1000 "hub/devices/d1" "sas"
                                    (Some 5)).
  - reflexivity.
  - discriminate.
  - discriminate.
Defined.

(** The argument checks of [putToken]. *)
Definition putToken_check (audience token : string) : option JsError :=
  if String.eqb audience "" then
    Some (mkError ReferenceError ("audience cannot be '" ++ audience ++ "'")%string)
  else if String.eqb token "" then
    Some (mkError ReferenceError ("token cannot be '" ++ token ++ "'")%string)
  else None.

Section CbsOperations.

Variable uuid_v4 : nat -> string.

(** X17.  [putToken] on an agent that is ['detached'] or ['attaching']:
    an empty audience or token is refused with a [ReferenceError]; any
    other request returns normally and is dropped, since these states have
    no [putToken] handler: nothing is sent, nothing is kept for later, and
    the callback is never called. *)
Theorem cbs_putToken_dropped_unless_attached
        (s : Cbs.t) (now : Z) (audience token : string) (cb : option Callback) :
  Cbs.state s = detached \/ Cbs.state s = attaching ->
  Cbs.step uuid_v4 (Cbs.call_putToken now audience token cb) s
  = (match putToken_check audience token with
     | Some e => Thrown e
     | None => Normal tt
     end, s).
Proof.
  intros Hst. unfold Cbs.step, Cbs.putToken_method, putToken_check.
  destruct (String.eqb audience ""); [reflexivity |].
  destruct (String.eqb token ""); [reflexivity |].
  unfold Cbs.handle. erewrite bind_run by reflexivity.
  destruct Hst as [-> | ->]; reflexivity.
Qed.

Lemma find_from_tail_found mid op after_rev before_rev :
  Cbs.correlationId op = mid ->
  Forall (fun o => Cbs.correlationId o <> mid) after_rev ->
  Cbs.find_from_tail mid (after_rev ++ op :: before_rev)
  = Some (op, after_rev ++ before_rev).
Proof.
  intros Hop Hafter. induction Hafter as [|o after_rev Ho _ IH]; cbn.
  - subst mid. rewrite String.eqb_refl. reflexivity.
  - apply String.eqb_neq in Ho. rewrite Ho, IH. reflexivity.
Qed.

(** X18.  When the send of a put-token request completes, with an error or
    without one, and its operation is still outstanding: the operation (the
    last one under that message id) is taken out of the outstanding
    operations, the timer is cleared if none is left, and the callback of
    the operation is called with the outcome of the send.  So a request
    whose send succeeded is reported to its caller at once, with no error,
    and is no longer outstanding when the response arrives. *)
Theorem cbs_send_completion_ends_operation
        (s : Cbs.t) (k : nat) (err : option JsError) (mid : string)
        (before after : list Cbs.PutTokenOperation) (op : Cbs.PutTokenOperation)
        (cb : Callback) :
  nth_error (Cbs.sends s) k = Some mid ->
  Cbs.outstandingPutTokens s = before ++ op :: after ->
  Cbs.correlationId op = mid ->
  Forall (fun o => Cbs.correlationId o <> mid) after ->
  Cbs.putTokenCallback op = Some cb ->
  let s' := exec (Cbs.step uuid_v4 (Cbs.send_done k err)) s in
  completes (Cbs.step uuid_v4 (Cbs.send_done k err)) s = true
  /\ Cbs.outstandingPutTokens s' = before ++ after
  /\ Cbs.trace s'
     = Cbs.trace s
       ++ match before ++ after with
          | [] => [Cbs.ClearTimeout (Cbs.timeoutTimer s)]
          | _ => []
          end
       ++ [Cbs.PutTokenCallback cb (Cbs.send_result err)]
  /\ Cbs.sends s' = remove_nth k (Cbs.sends s)
  /\ Cbs.state s' = Cbs.state s.
Proof.
  intros Hk Hops Hop Hafter Hcb s'. subst s'.
  assert (Hfind : Cbs.find_from_tail mid (rev (Cbs.outstandingPutTokens s))
                  = Some (op, rev (before ++ after))).
  { rewrite Hops, !rev_app_distr. cbn [rev]. rewrite <- app_assoc. cbn [app].
    apply find_from_tail_found; [exact Hop |].
    apply Forall_rev. exact Hafter. }
  unfold completes, exec, Cbs.step.
  erewrite bind_run by reflexivity. rewrite Hk.
  erewrite bind_run by reflexivity.
  unfold Cbs.send_callback. erewrite bind_run by reflexivity.
  destruct s as [st iq ac ops tt0 ar ts rs mh sn us tr].
  cbn [Cbs.outstandingPutTokens Cbs.set_sends] in Hfind |- *. rewrite Hfind, Hcb.
  erewrite bind_run by reflexivity. rewrite rev_involutive.
  destruct (before ++ after) as [|o rest] eqn:E.
  - cbn [rev]. destruct tt0; cbn; rewrite <- ?app_assoc; repeat split.
  - assert (Hne : exists o' rest', rev (o :: rest) = o' :: rest').
    { destruct (rev (o :: rest)) as [|o' rest'] eqn:Er; [| eauto].
      apply (f_equal (@List.length _)) in Er. rewrite length_rev in Er. discriminate Er. }
    destruct Hne as (o' & rest' & Er). rewrite Er.
    cbn; repeat split.
Qed.

(** X19.  An agent that is ['detached'] and asked to attach asks both of
    its links to attach, and is ['attached'] only when both have attached,
    in whichever order they do; the listener for responses is put on the
    receiver link when that link attaches, and the caller's callback is
    called once, with no error, when the second link attaches. *)
Theorem cbs_attach_needs_both_links (s : Cbs.t) (now : Z) (cb : Callback) :
  Cbs.state s = detached ->
  let k := List.length (Cbs.rounds s) in
  let asked := Cbs.run uuid_v4 [Cbs.call_attach now (Some cb)] s in
  let sender_up := Cbs.run uuid_v4 [Cbs.sender_attached k None] asked in
  let receiver_up := Cbs.run uuid_v4 [Cbs.receiver_attached k None] asked in
  let sender_first := Cbs.run uuid_v4 [Cbs.receiver_attached k None] sender_up in
  let receiver_first := Cbs.run uuid_v4 [Cbs.sender_attached k None] receiver_up in
  (Cbs.state asked = attaching
   /\ Cbs.trace asked = Cbs.trace s ++ [Cbs.SenderAttach k; Cbs.ReceiverAttach k])
  /\ (Cbs.state sender_up = attaching /\ Cbs.trace sender_up = Cbs.trace asked)
  /\ (Cbs.state receiver_up = attaching
      /\ Cbs.trace receiver_up = Cbs.trace asked ++ [Cbs.ReceiverOnMessage])
  /\ sender_first = receiver_first
  /\ Cbs.state sender_first = attached
  /\ Cbs.attachCallback sender_first = None
  /\ Cbs.messageHandlers sender_first = S (Cbs.messageHandlers s)
  /\ Cbs.trace sender_first
     = Cbs.trace asked ++ [Cbs.ReceiverOnMessage; Cbs.AttachCallback cb None].
Proof.
  intros Hst k asked sender_up receiver_up sender_first receiver_first.
  destruct s as [st iq ac ops tt0 ar ts rs mh sn us tr]. cbn in Hst. subst st.
  assert (Hk : k = List.length rs) by reflexivity.
  clearbody k.
  assert (Hasked : asked
                   = Cbs.mk attaching iq (Some cb) ops tt0 ar ts (rs ++ [(false, false)])
                            mh sn us (tr ++ [Cbs.SenderAttach k; Cbs.ReceiverAttach k])).
  { subst asked k. cbn. rewrite <- app_assoc. reflexivity. }
  clearbody asked.
  assert (Hnth : nth_error (rs ++ [(false, false)]) k = Some (false, false)).
  { subst k. rewrite nth_error_app2 by lia.
    rewrite Nat.sub_diag. reflexivity. }
  assert (Hfirstn : firstn k (rs ++ [(false, false)]) = rs).
  { subst k. rewrite firstn_app, Nat.sub_diag, firstn_all.
    cbn. apply app_nil_r. }
  assert (Hskipn : skipn (S k) (rs ++ [(false, false)]) = []).
  { apply skipn_all2. subst k. rewrite length_app. cbn. lia. }
  assert (Hsender : sender_up
                    = Cbs.mk attaching iq (Some cb) ops tt0 ar ts (rs ++ [(true, false)])
                             mh sn us (tr ++ [Cbs.SenderAttach k; Cbs.ReceiverAttach k])).
  { subst sender_up. rewrite Hasked.
    cbn -[nth_error firstn skipn]. unfold exec, Cbs.sender_attach_done.
    erewrite bind_run by reflexivity. cbn [Cbs.rounds].
    rewrite Hnth, Hfirstn, Hskipn. reflexivity. }
  assert (Hreceiver : receiver_up
                      = Cbs.mk attaching iq (Some cb) ops tt0 ar ts (rs ++ [(false, true)])
                               (S mh) sn us
                               (tr ++ [Cbs.SenderAttach k; Cbs.ReceiverAttach k;
                                       Cbs.ReceiverOnMessage])).
  { subst receiver_up. rewrite Hasked.
    cbn -[nth_error firstn skipn]. unfold exec, Cbs.receiver_attach_done.
    erewrite bind_run by reflexivity. cbn [Cbs.rounds].
    rewrite Hnth, Hfirstn, Hskipn. cbn. rewrite <- app_assoc. reflexivity. }
  assert (Hnth' : forall p, nth_error (rs ++ [p]) k = Some p).
  { intros p. subst k. rewrite nth_error_app2 by lia.
    rewrite Nat.sub_diag. reflexivity. }
  assert (Hfirstn' : forall p : bool * bool, firstn k (rs ++ [p]) = rs).
  { intros p. subst k. rewrite firstn_app, Nat.sub_diag, firstn_all.
    cbn. apply app_nil_r. }
  assert (Hskipn' : forall p : bool * bool, skipn (S k) (rs ++ [p]) = []).
  { intros p. apply skipn_all2. subst k. rewrite length_app. cbn. lia. }
  assert (Hsf : sender_first
                = Cbs.mk attached iq None ops tt0 ar ts (rs ++ [(true, true)])
                         (S mh) sn us
                         (tr ++ [Cbs.SenderAttach k; Cbs.ReceiverAttach k;
                                 Cbs.ReceiverOnMessage; Cbs.AttachCallback cb None])).
  { subst sender_first. rewrite Hsender.
    cbn -[nth_error firstn skipn]. unfold exec, Cbs.receiver_attach_done.
    erewrite bind_run by reflexivity. cbn [Cbs.rounds].
    rewrite Hnth', Hfirstn', Hskipn'. cbn. rewrite <- !app_assoc. reflexivity. }
  assert (Hrf : receiver_first
                = Cbs.mk attached iq None ops tt0 ar ts (rs ++ [(true, true)])
                         (S mh) sn us
                         (tr ++ [Cbs.SenderAttach k; Cbs.ReceiverAttach k;
                                 Cbs.ReceiverOnMessage; Cbs.AttachCallback cb None])).
  { subst receiver_first. rewrite Hreceiver.
    cbn -[nth_error firstn skipn]. unfold exec, Cbs.sender_attach_done.
    erewrite bind_run by reflexivity. cbn [Cbs.rounds].
    rewrite Hnth', Hfirstn', Hskipn'. cbn. rewrite <- !app_assoc. reflexivity. }
  rewrite Hrf, Hsf, Hsender, Hreceiver, Hasked. cbn.
  rewrite <- !app_assoc. repeat split.
Qed.

End CbsOperations.

Lemma cbs_putToken_dropped_unless_attached_witness :
  Cbs.step test_uuid (Cbs.call_putToken 1000 "hub/devices/d1" "sas" (Some 5)) Cbs.init
  = (match putToken_check "hub/devices/d1" "sas" with
     | Some e => Thrown e
     | None => Normal tt
     end, Cbs.init).
Proof.
  apply (cbs_putToken_dropped_unless_attached test_uuid Cbs.init).
  left. reflexivity.
Defined.

(** An attached agent after two [putToken] calls. *)
Definition two_requests : Cbs.t :=
  Cbs.run test_uuid
          [Cbs.call_putToken 1000 "hub/devices/d1" "sas1" (Some 5);
           Cbs.call_putToken 1001 "hub/devices/d2" "sas2" (Some 6)]
          attached_agent.

Lemma cbs_send_completion_ends_operation_witness :
  let s' := exec (Cbs.step test_uuid (Cbs.send_done 0 None)) two_requests in
  completes (Cbs.step test_uuid (Cbs.send_done 0 None)) two_requests = true
  /\ Cbs.outstandingPutTokens s' = [] ++ [Cbs.mkOp (Some 6) 1121 (test_uuid 1)]
  /\ Cbs.trace s'
     = Cbs.trace two_requests
       ++ match [] ++ [Cbs.mkOp (Some 6) 1121 (test_uuid 1)] with
          | [] => [Cbs.ClearTimeout (Cbs.timeoutTimer two_requests)]
          | _ => []
          end
       ++ [Cbs.PutTokenCallback 5 (Cbs.send_result None)]
  /\ Cbs.sends s' = remove_nth 0 (Cbs.sends two_requests)
  /\ Cbs.state s' = Cbs.state two_requests.
Proof.
  apply (cbs_send_completion_ends_operation
           test_uuid two_requests 0 None (test_uuid 0) []
           [Cbs.mkOp (Some 6) 1121 (test_uuid 1)] (Cbs.mkOp (Some 5) 1120 (test_uuid 0)) 5).
  - reflexivity.
  - reflexivity.
  - reflexivity.
  - repeat constructor. vm_compute. discriminate.
  - reflexivity.
Defined.

Lemma cbs_attach_needs_both_links_witness :
  let s := Cbs.init in
  let k := List.length (Cbs.rounds s) in
  let asked := Cbs.run test_uuid [Cbs.call_attach 0 (Some 1)] s in
  let sender_up := Cbs.run test_uuid [Cbs.sender_attached k None] asked in
  let receiver_up := Cbs.run test_uuid [Cbs.receiver_attached k None] asked in
  let sender_first := Cbs.run test_uuid [Cbs.receiver_attached k None] sender_up in
  let receiver_first := Cbs.run test_uuid [Cbs.sender_attached k None] receiver_up in
  (Cbs.state asked = attaching
   /\ Cbs.trace asked = Cbs.trace s ++ [Cbs.SenderAttach k; Cbs.ReceiverAttach k])
  /\ (Cbs.state sender_up = attaching /\ Cbs.trace sender_up = Cbs.trace asked)
  /\ (Cbs.state receiver_up = attaching
      /\ Cbs.trace receiver_up = Cbs.trace asked ++ [Cbs.ReceiverOnMessage])
  /\ sender_first = receiver_first
  /\ Cbs.state sender_first = attached
  /\ Cbs.attachCallback sender_first = None
  /\ Cbs.messageHandlers sender_first = S (Cbs.messageHandlers s)
  /\ Cbs.trace sender_first
     = Cbs.trace asked ++ [Cbs.ReceiverOnMessage; Cbs.AttachCallback 1 None].
Proof.
  apply (cbs_attach_needs_both_links test_uuid Cbs.init 0 1). reflexivity.
Defined.

(** ** What stays true of the outstanding operations *)

(** [thinned l1 l2]: [l1] is [l2] without some of its elements. *)
Inductive thinned {A} : list A -> list A -> Prop :=
  | thinned_nil : thinned [] []
  | thinned_keep x l1 l2 : thinned l1 l2 -> thinned (x :: l1) (x :: l2)
  | thinned_drop x l1 l2 : thinned l1 l2 -> thinned l1 (x :: l2).

Lemma thinned_refl {A} (l : list A) : thinned l l.
Proof. induction l; constructor; assumption. Qed.

Lemma thinned_Forall {A} (Q : A -> Prop) (l1 l2 : list A) :
  thinned l1 l2 -> Forall Q l2 -> Forall Q l1.
Proof.
  induction 1 as [|x l1 l2 _ IH|x l1 l2 _ IH]; intros H; [constructor | |];
    inversion H; subst; auto.
Qed.

Lemma thinned_sorted {A} (R : A -> A -> Prop) (l1 l2 : list A) :
  thinned l1 l2 -> StronglySorted R l2 -> StronglySorted R l1.
Proof.
  induction 1 as [|x l1 l2 Ht IH|x l1 l2 _ IH]; intros H; [constructor | |];
    inversion H; subst; auto.
  constructor; [auto |]. eapply thinned_Forall; eassumption.
Qed.

Lemma thinned_app {A} (l1 l2 k1 k2 : list A) :
  thinned l1 l2 -> thinned k1 k2 -> thinned (l1 ++ k1) (l2 ++ k2).
Proof. induction 1; intros Hk; cbn; try constructor; auto. Qed.

Lemma thinned_rev {A} (l1 l2 : list A) : thinned l1 l2 -> thinned (rev l1) (rev l2).
Proof.
  induction 1 as [|x l1 l2 _ IH|x l1 l2 _ IH]; cbn.
  - constructor.
  - apply thinned_app; [exact IH | apply thinned_refl].
  - rewrite <- (app_nil_r (rev l1)). apply thinned_app; [exact IH |].
    constructor. constructor.
Qed.

Lemma remove_first_thinned cid ops found others :
  Cbs.remove_first cid ops = Some (found, others) -> thinned others ops.
Proof.
  revert others. induction ops as [|op ops IH]; cbn; intros others H; [discriminate H |].
  destruct (match cid with Some c => String.eqb c (Cbs.correlationId op) | None => false end).
  - inversion H; subst. constructor. apply thinned_refl.
  - destruct (Cbs.remove_first cid ops) as [[f rest]|]; [| discriminate H].
    inversion H; subst. constructor. apply IH. reflexivity.
Qed.

Lemma find_from_tail_thinned mid ops found others :
  Cbs.find_from_tail mid ops = Some (found, others) -> thinned others ops.
Proof.
  revert others. induction ops as [|op ops IH]; cbn; intros others H; [discriminate H |].
  destruct (String.eqb (Cbs.correlationId op) mid).
  - inversion H; subst. constructor. apply thinned_refl.
  - destruct (Cbs.find_from_tail mid ops) as [[f rest]|]; [| discriminate H].
    inversion H; subst. constructor. apply IH. reflexivity.
Qed.

Lemma split_expired_thinned now ops :
  thinned (snd (Cbs.split_expired now ops)) ops.
Proof.
  induction ops as [|op ops IH]; cbn; [constructor |].
  destruct (Z.ltb (Cbs.expirationTime op) now); [| apply thinned_refl].
  destruct (Cbs.split_expired now ops) as [expired kept]; cbn in *.
  constructor. exact IH.
Qed.

Definition is_putToken_call (ev : Cbs.Event) : bool :=
  match ev with
  | Cbs.call_putToken _ _ _ _ => true
  | _ => false
  end.

Section CbsOutstanding.

Variable uuid_v4 : nat -> string.

(** A property of the pending timers and the outstanding operations that
    survives the removal of operations. *)
Variable Q : list nat -> list Cbs.PutTokenOperation -> Prop.
Hypothesis Q_thinned : forall a l1 l2, thinned l1 l2 -> Q a l2 -> Q a l1.

Let P (s : Cbs.t) : Prop := Q (Cbs.armed s) (Cbs.outstandingPutTokens s).

(** [Q] does not look at the timers. *)
Definition any_timers : Prop := forall a a' l, Q a l -> Q a' l.

Ltac ops_leaf :=
  cbv beta;
  match goal with
  | |- preserves _ (modify _) =>
      apply preserves_modify; intros [] ?; assumption
  | |- preserves _ (Cbs.emit _) =>
      apply preserves_modify; intros [] ?; assumption
  | |- preserves _ (Cbs.deferUntilTransition _ _) =>
      apply preserves_modify; intros [] ?; assumption
  end.

Lemma ops_setTimeout : any_timers -> preserves P Cbs.setTimeout.
Proof.
  intros Ha. unfold Cbs.setTimeout. pres; try ops_leaf.
  apply preserves_modify. intros [] Hq. eapply Ha. exact Hq.
Qed.

Lemma ops_clearTimeout : any_timers -> preserves P Cbs.clearTimeout.
Proof.
  intros Ha. unfold Cbs.clearTimeout. pres; try ops_leaf.
  apply preserves_modify. intros [] Hq. eapply Ha. exact Hq.
Qed.

Lemma ops_call_putTokenCallback cb r : preserves P (Cbs.call_putTokenCallback cb r).
Proof. unfold Cbs.call_putTokenCallback. pres; ops_leaf. Qed.

Lemma ops_call_attach_callback cb e : preserves P (Cbs.call_attach_callback cb e).
Proof. unfold Cbs.call_attach_callback. pres; ops_leaf. Qed.

Lemma ops_enter_attaching : preserves P Cbs.enter_attaching.
Proof. unfold Cbs.enter_attaching, Cbs.attaching_onEnter. pres; ops_leaf. Qed.

Lemma ops_replay_detached : preserves P Cbs.replay_detached.
Proof.
  unfold Cbs.replay_detached. pres; try ops_leaf.
  all: unfold Cbs.detached_handle; pres; try ops_leaf; apply ops_enter_attaching.
Qed.

Lemma ops_transition st : preserves P (Cbs.transition st).
Proof.
  unfold Cbs.transition, Cbs.attached_onEnter. pres; try ops_leaf;
    try apply ops_enter_attaching; try apply ops_replay_detached.
Qed.

Lemma ops_set s0 others :
  P s0 -> thinned others (Cbs.outstandingPutTokens s0) ->
  preserves (fun s => P s /\ Cbs.armed s = Cbs.armed s0)
            (modify (Cbs.set_outstandingPutTokens others)).
Proof.
  intros H0 Ht. apply preserves_modify. intros [] [_ Ha]. cbn in Ha |- *.
  split; [| exact Ha]. unfold P. cbn. rewrite Ha. eapply Q_thinned; eassumption.
Qed.

Lemma ops_on_message msg : preserves P (Cbs.on_message msg).
Proof.
  intros s Hs.
  refine (proj1 (_ : P (snd (Cbs.on_message msg s))
                     /\ Cbs.armed (snd (Cbs.on_message msg s)) = Cbs.armed s)).
  revert s Hs.
  assert (Hleaf : forall a0 e, preserves (fun s => P s /\ Cbs.armed s = a0) (Cbs.emit e)).
  { intros a0 e. apply preserves_modify. intros [] H. exact H. }
  intros s Hs.
  assert (H : preserves (fun s1 => P s1 /\ Cbs.armed s1 = Cbs.armed s)
                        (match Cbs.remove_first (Cbs.msg_correlationId msg)
                                                (Cbs.outstandingPutTokens s) with
                         | Some (completedPutToken, others) =>
                             bind (modify (Cbs.set_outstandingPutTokens others))
                                  (fun _ =>
                                     match Cbs.putTokenCallback completedPutToken with
                                     | Some cb =>
                                         Cbs.emit
                                           (Cbs.PutTokenCallback cb
                                              (if Cbs.is_200 (Cbs.status_code msg)
                                               then Cbs.no_error
                                               else Cbs.unauthorized
                                                      (Cbs.status_description msg)))
                                     | None => ret tt
                                     end)
                         | None => ret tt
                         end)).
  { destruct (Cbs.remove_first _ _) as [[found others]|] eqn:E; [| apply preserves_ret].
    apply preserves_bind.
    - apply ops_set; [exact Hs |]. eapply remove_first_thinned. exact E.
    - intros ?. destruct (Cbs.putTokenCallback found); [apply Hleaf | apply preserves_ret]. }
  assert (Hall : preserves (fun s1 => P s1 /\ Cbs.armed s1 = Cbs.armed s)
                           (bind
                              (match Cbs.remove_first (Cbs.msg_correlationId msg)
                                                      (Cbs.outstandingPutTokens s) with
                               | Some (completedPutToken, others) =>
                                   bind (modify (Cbs.set_outstandingPutTokens others))
                                        (fun _ =>
                                           match Cbs.putTokenCallback completedPutToken with
                                           | Some cb =>
                                               Cbs.emit
                                                 (Cbs.PutTokenCallback cb
                                                    (if Cbs.is_200 (Cbs.status_code msg)
                                                     then Cbs.no_error
                                                     else Cbs.unauthorized
                                                            (Cbs.status_description msg)))
                                           | None => ret tt
                                           end)
                               | None => ret tt
                               end)
                              (fun _ => Cbs.emit (Cbs.ReceiverAccept (Cbs.msg_id msg))))).
  { apply preserves_bind; [exact H | intros ?; apply Hleaf]. }
  exact (Hall s (conj Hs eq_refl)).
Qed.

Lemma ops_send_callback mid err :
  any_timers -> preserves P (Cbs.send_callback mid err).
Proof.
  intros Ha. unfold Cbs.send_callback. apply preserves_get_bind. intros s0 Hs0.
  destruct (Cbs.find_from_tail _ _) as [[found others]|] eqn:E; [| apply preserves_ret].
  apply preserves_bind; [| intros ?; cbv beta; apply preserves_bind].
  - apply preserves_modify. intros [] Hq. unfold P in *. cbn in *.
    eapply Ha. eapply Q_thinned; [| exact Hs0].
    rewrite <- (rev_involutive (Cbs.outstandingPutTokens s0)).
    apply thinned_rev. eapply find_from_tail_thinned. exact E.
  - destruct others; [apply ops_clearTimeout; exact Ha | apply preserves_ret].
  - intros ?. apply ops_call_putTokenCallback.
Qed.

Lemma ops_removeExpiredPutTokens now :
  any_timers -> preserves P (Cbs.removeExpiredPutTokens now).
Proof.
  intros Ha. unfold Cbs.removeExpiredPutTokens. apply preserves_get_bind. intros s0 Hs0.
  pose proof (split_expired_thinned now (Cbs.outstandingPutTokens s0)) as Hthin.
  destruct (Cbs.split_expired now (Cbs.outstandingPutTokens s0)) as [expired kept].
  cbn in Hthin.
  apply preserves_bind; [| intros ?; cbv beta; apply preserves_bind; [| intros ?; cbv beta]].
  - apply preserves_modify. intros [] Hq. unfold P in *. cbn in *.
    eapply Ha. eapply Q_thinned; eassumption.
  - apply preserves_for_each. intros op. apply ops_call_putTokenCallback.
  - apply preserves_get_bind. intros s1 _.
    destruct (Cbs.outstandingPutTokens s1);
      [apply preserves_ret | apply ops_setTimeout; exact Ha].
Qed.

(** The events that neither add an operation nor touch a timer. *)
Definition is_quiet_event (ev : Cbs.Event) : bool :=
  match ev with
  | Cbs.call_attach _ _ | Cbs.call_detach _ _
  | Cbs.sender_attached _ _ | Cbs.receiver_attached _ _
  | Cbs.receiver_message _ => true
  | _ => false
  end.

Lemma ops_step_quiet ev :
  is_quiet_event ev = true -> preserves P (Cbs.step uuid_v4 ev).
Proof.
  intros Hev. destruct ev; try discriminate Hev; cbn [Cbs.step].
  - unfold Cbs.attach_method, Cbs.handle. pres; try ops_leaf; apply ops_transition.
  - unfold Cbs.detach_method, Cbs.handle. pres; try ops_leaf; apply ops_transition.
  - unfold Cbs.sender_attach_done. pres; try ops_leaf;
      try apply ops_transition; apply ops_call_attach_callback.
  - unfold Cbs.receiver_attach_done. pres; try ops_leaf;
      try apply ops_transition; apply ops_call_attach_callback.
  - pres. apply ops_on_message.
Qed.

(** Apart from [putToken], nothing adds to the outstanding operations. *)
Lemma ops_step ev :
  any_timers -> is_putToken_call ev = false -> preserves P (Cbs.step uuid_v4 ev).
Proof.
  intros Ha Hev.
  destruct (is_quiet_event ev) eqn:Hquiet; [apply ops_step_quiet; exact Hquiet |].
  destruct ev; try discriminate Hev; try discriminate Hquiet; cbn [Cbs.step].
  - pres; try ops_leaf. apply ops_send_callback. exact Ha.
  - pres; try ops_leaf.
    + apply preserves_modify. intros [] Hq. eapply Ha. exact Hq.
    + apply ops_removeExpiredPutTokens. exact Ha.
Qed.

End CbsOutstanding.

(** The clock readings of the [putToken] calls of a run. *)
Definition putToken_clocks (es : list Cbs.Event) : list Z :=
  flat_map (fun ev => match ev with
                      | Cbs.call_putToken now _ _ _ => [now]
                      | _ => []
                      end) es.

(** Sorted by expiration time, and none expiring later than 120 seconds
    after [bound]. *)
Definition expire_in_order (bound : Z) (ops : list Cbs.PutTokenOperation) : Prop :=
  StronglySorted by_expiration ops
  /\ Forall (fun op => (Cbs.expirationTime op <= bound + 120)%Z) ops.

Lemma expire_in_order_thinned bound l1 l2 :
  thinned l1 l2 -> expire_in_order bound l2 -> expire_in_order bound l1.
Proof.
  intros Ht [Hs Hb]. split.
  - eapply thinned_sorted; eassumption.
  - eapply thinned_Forall; eassumption.
Qed.

Lemma expire_in_order_later b1 b2 ops :
  (b1 <= b2)%Z -> expire_in_order b1 ops -> expire_in_order b2 ops.
Proof.
  intros Hb [Hs Hall]. split; [exact Hs |].
  eapply Forall_impl; [| exact Hall]. cbn. intros op Hop. lia.
Qed.

Lemma expire_in_order_push bound now ops cb id :
  (bound <= now)%Z ->
  expire_in_order bound ops ->
  expire_in_order now (ops ++ [Cbs.mkOp cb (now + 120) id]).
Proof.
  intros Hb [Hs Hall]. split.
  - induction Hs as [|op ops Hs IH Hop]; cbn.
    + constructor; constructor.
    + inversion Hall as [|? ? Ho Hall']; subst.
      constructor; [apply IH; exact Hall' |].
      apply Forall_app. split; [exact Hop |].
      constructor; [| constructor]. unfold by_expiration. cbn. lia.
  - apply Forall_app. split.
    + eapply Forall_impl; [| exact Hall]. cbn. intros op Hop. lia.
    + constructor; [cbn; lia | constructor].
Qed.

Lemma putToken_outstanding uuid_v4 now audience token cb s :
  let s' := exec (Cbs.step uuid_v4 (Cbs.call_putToken now audience token cb)) s in
  Cbs.outstandingPutTokens s' = Cbs.outstandingPutTokens s
  \/ Cbs.outstandingPutTokens s'
     = Cbs.outstandingPutTokens s
       ++ [Cbs.mkOp cb (now + 120) (uuid_v4 (Cbs.uuidSeq s))].
Proof.
  cbn zeta. unfold exec, Cbs.step, Cbs.putToken_method.
  destruct (String.eqb audience ""); [left; reflexivity |].
  destruct (String.eqb token ""); [left; reflexivity |].
  destruct s as [st iq ac ops tt0 ar ts rs mh sn us tr].
  destruct st; try (left; reflexivity).
  right. unfold Cbs.handle, Cbs.attached_putToken.
  erewrite bind_run by reflexivity. cbn [Cbs.state].
  erewrite bind_run by reflexivity.
  erewrite bind_run by reflexivity.
  erewrite bind_run by reflexivity.
  erewrite bind_run by reflexivity.
  cbn [Cbs.outstandingPutTokens Cbs.set_outstandingPutTokens Cbs.set_uuidSeq].
  destruct (Nat.eqb _ 1); reflexivity.
Qed.

Lemma expire_in_order_run uuid_v4 es :
  forall s bound,
    expire_in_order bound (Cbs.outstandingPutTokens s) ->
    Forall (fun t => (bound <= t)%Z) (putToken_clocks es) ->
    StronglySorted Z.le (putToken_clocks es) ->
    exists bound',
      expire_in_order bound' (Cbs.outstandingPutTokens (Cbs.run uuid_v4 es s)).
Proof.
  induction es as [|ev es IH]; intros s bound Hs Hb Hsorted.
  - exists bound. exact Hs.
  - change (Cbs.run uuid_v4 (ev :: es) s)
      with (Cbs.run uuid_v4 es (exec (Cbs.step uuid_v4 ev) s)).
    destruct (is_putToken_call ev) eqn:Hev.
    + destruct ev as [| |now audience token cb| | | | |]; try discriminate Hev.
      cbn [putToken_clocks flat_map app] in Hb, Hsorted.
      inversion Hb as [|? ? Hnow Hb']; subst.
      inversion Hsorted as [|? ? Hsorted' Hle]; subst.
      apply (IH _ now); [| exact Hle | exact Hsorted'].
      destruct (putToken_outstanding uuid_v4 now audience token cb s) as [E|E];
        rewrite E.
      * apply (expire_in_order_later bound); assumption.
      * apply (expire_in_order_push bound); assumption.
    + assert (Hclocks : putToken_clocks (ev :: es) = putToken_clocks es)
        by (destruct ev; try discriminate Hev; reflexivity).
      rewrite Hclocks in Hb, Hsorted.
      apply (IH _ bound); [| exact Hb | exact Hsorted].
      apply (ops_step uuid_v4 (fun _ => expire_in_order bound)
                      (fun _ => expire_in_order_thinned bound) ev
                      (fun _ _ _ H => H) Hev s Hs).
Qed.

(** X20.  As long as the clock read by [putToken] never goes back, the
    outstanding operations of an agent are in the order of their expiration
    times, whatever happens to the agent in between: attach outcomes,
    responses, completed sends, timer runs.  (This is what lets
    [_removeExpiredPutTokens] stop at the first operation that has not
    expired.) *)
Theorem cbs_outstanding_in_expiration_order
        (uuid_v4 : nat -> string) (es : list Cbs.Event) :
  StronglySorted Z.le (putToken_clocks es) ->
  StronglySorted by_expiration
                 (Cbs.outstandingPutTokens (Cbs.run uuid_v4 es Cbs.init)).
Proof.
  intros Hsorted.
  assert (Hbound : exists bound, Forall (fun t => (bound <= t)%Z) (putToken_clocks es)).
  { destruct (putToken_clocks es) as [|t ts] eqn:E.
    - exists 0%Z. constructor.
    - exists t. inversion Hsorted; subst. constructor; [lia | assumption]. }
  destruct Hbound as [bound Hbound].
  destruct (expire_in_order_run uuid_v4 es Cbs.init bound) as [bound' [H _]];
    [split; constructor | exact Hbound | exact Hsorted | exact H].
Qed.

Lemma cbs_outstanding_in_expiration_order_witness :
  StronglySorted by_expiration
    (Cbs.outstandingPutTokens
       (Cbs.run test_uuid
                [Cbs.call_attach 0 (Some 1); Cbs.sender_attached 0 None;
                 Cbs.receiver_attached 0 None;
                 Cbs.call_putToken 1000 "hub/devices/d1" "sas1" (Some 5);
                 Cbs.call_putToken 1000 "hub/devices/d2" "sas2" (Some 6);
                 Cbs.send_done 0 None;
                 Cbs.call_putToken 1007 "hub/devices/d3" "sas3" (Some 7)]
                Cbs.init)).
Proof.
  apply (cbs_outstanding_in_expiration_order test_uuid).
  cbn. repeat constructor; lia.
Defined.

(** Every outstanding operation carries its callback, and a timer is
    pending whenever an operation is outstanding. *)
Definition watched (armed : list nat) (ops : list Cbs.PutTokenOperation) : Prop :=
  Forall (fun op => Cbs.putTokenCallback op <> None) ops
  /\ (ops <> [] -> armed <> []).

Lemma thinned_of_nil {A} (l : list A) : thinned l [] -> l = [].
Proof. intros H. inversion H. reflexivity. Qed.

Lemma watched_thinned a l1 l2 : thinned l1 l2 -> watched a l2 -> watched a l1.
Proof.
  intros Ht [Hcb Harmed]. split.
  - eapply thinned_Forall; eassumption.
  - intros Hne. apply Harmed. intros ->. apply Hne. apply thinned_of_nil. exact Ht.
Qed.

Definition cbs_watched (s : Cbs.t) : Prop :=
  watched (Cbs.armed s) (Cbs.outstandingPutTokens s).

Section CbsTimers.

Variable uuid_v4 : nat -> string.

Lemma no_operation_send_tail cb r (others : list Cbs.PutTokenOperation) :
  preserves (fun s => Cbs.outstandingPutTokens s = [])
            (bind (match others with
                   | [] => Cbs.clearTimeout
                   | _ :: _ => ret tt
                   end)
                  (fun _ : unit => Cbs.call_putTokenCallback cb r)).
Proof.
  unfold Cbs.clearTimeout, Cbs.call_putTokenCallback, Cbs.emit.
  pres; apply preserves_modify; intros [] Hq; exact Hq.
Qed.

Lemma watched_send_callback mid err :
  preserves cbs_watched (Cbs.send_callback mid err).
Proof.
  intros s Hs. unfold Cbs.send_callback, bind at 1, get.
  destruct (Cbs.find_from_tail mid (rev (Cbs.outstandingPutTokens s)))
    as [[found others]|] eqn:E; [| exact Hs].
  assert (Hthin : thinned (rev others) (Cbs.outstandingPutTokens s)).
  { rewrite <- (rev_involutive (Cbs.outstandingPutTokens s)).
    apply thinned_rev. eapply find_from_tail_thinned. exact E. }
  unfold bind at 1, modify.
  destruct others as [|o others].
  - assert (H := no_operation_send_tail (Cbs.putTokenCallback found)
                   (Cbs.send_result err) []
                   (Cbs.set_outstandingPutTokens (rev []) s)).
    cbn beta iota in H |- *.
    specialize (H ltac:(destruct s; reflexivity)).
    unfold cbs_watched. rewrite H. split; [constructor | intros Hne; contradiction].
  - assert (Hw : cbs_watched (Cbs.set_outstandingPutTokens (rev (o :: others)) s)).
    { unfold cbs_watched. destruct s; cbn in *.
      eapply watched_thinned; [exact Hthin | exact Hs]. }
    revert Hw. generalize (Cbs.set_outstandingPutTokens (rev (o :: others)) s).
    intros s1 Hw.
    change (cbs_watched
              (snd (bind (ret tt)
                         (fun _ : unit =>
                            Cbs.call_putTokenCallback (Cbs.putTokenCallback found)
                                                      (Cbs.send_result err)) s1))).
    revert s1 Hw.
    change (preserves cbs_watched
              (bind (ret tt)
                    (fun _ : unit =>
                       Cbs.call_putTokenCallback (Cbs.putTokenCallback found)
                                                 (Cbs.send_result err)))).
    unfold Cbs.call_putTokenCallback, Cbs.emit.
    pres; apply preserves_modify; intros [] Hq; exact Hq.
Qed.

Lemma watched_timer_fired id now :
  preserves cbs_watched (Cbs.step uuid_v4 (Cbs.timer_fired id now)).
Proof.
  intros s Hs. cbn [Cbs.step]. unfold bind at 1, get.
  destruct (existsb (Nat.eqb id) (Cbs.armed s)); [| exact Hs].
  unfold bind at 1, modify.
  set (s1 := Cbs.set_armed (List.remove Nat.eq_dec id (Cbs.armed s)) s).
  assert (Hops : Cbs.outstandingPutTokens s1 = Cbs.outstandingPutTokens s)
    by (destruct s; reflexivity).
  destruct Hs as [Hcb _].
  unfold Cbs.removeExpiredPutTokens, bind at 1, get. rewrite Hops.
  pose proof (split_expired_thinned now (Cbs.outstandingPutTokens s)) as Hthin.
  pose proof (split_expired_app now (Cbs.outstandingPutTokens s)) as Happ.
  destruct (Cbs.split_expired now (Cbs.outstandingPutTokens s)) as [expired kept].
  cbn [fst snd] in Hthin, Happ.
  assert (Hexp : Forall (fun op => Cbs.putTokenCallback op <> None) expired).
  { rewrite <- Happ in Hcb. apply Forall_app in Hcb. apply Hcb. }
  assert (Hkept : Forall (fun op => Cbs.putTokenCallback op <> None) kept)
    by (eapply thinned_Forall; eassumption).
  destruct (timeout_calls_run expired Hexp) as [calls [_ Hrun]].
  erewrite bind_run by reflexivity.
  erewrite bind_run by apply Hrun.
  erewrite bind_run by reflexivity.
  generalize (Cbs.trace (Cbs.set_outstandingPutTokens kept s1) ++ calls). intros tr.
  clearbody s1. destruct s1 as [st iq ac ops tt0 ar ts rs mh sn us tr0].
  cbn [Cbs.set_trace Cbs.set_outstandingPutTokens Cbs.outstandingPutTokens
       Cbs.state Cbs.inputQueue Cbs.attachCallback Cbs.timeoutTimer Cbs.armed
       Cbs.timerSeq Cbs.rounds Cbs.messageHandlers Cbs.sends Cbs.uuidSeq].
  destruct kept as [|op kept].
  - split; [constructor | intros Hne; contradiction].
  - cbn. split; [exact Hkept |]. intros _. destruct ar; discriminate.
Qed.

Lemma watched_putToken now audience token cb :
  preserves cbs_watched
            (Cbs.step uuid_v4 (Cbs.call_putToken now audience token (Some cb))).
Proof.
  intros s Hs. unfold Cbs.step, Cbs.putToken_method.
  destruct (String.eqb audience ""); [exact Hs |].
  destruct (String.eqb token ""); [exact Hs |].
  destruct s as [st iq ac ops tt0 ar ts rs mh sn us tr].
  destruct st; try exact Hs.
  unfold Cbs.handle, Cbs.attached_putToken.
    erewrite bind_run by reflexivity. cbn [Cbs.state].
    erewrite bind_run by reflexivity.
    erewrite bind_run by reflexivity.
    erewrite bind_run by reflexivity.
    erewrite bind_run by reflexivity.
    cbn [Cbs.outstandingPutTokens Cbs.set_outstandingPutTokens Cbs.set_uuidSeq].
    destruct Hs as [Hcb Harmed]. cbn in Hcb, Harmed.
    assert (Hcb' : Forall (fun op => Cbs.putTokenCallback op <> None)
                          (ops ++ [Cbs.mkOp (Some cb) (now + Cbs.numberOfSecondsToTimeout)
                                            (uuid_v4 us)])).
    { apply Forall_app. split; [exact Hcb |].
      constructor; [cbn; discriminate | constructor]. }
    rewrite length_app. cbn [List.length].
    destruct ops as [|op ops].
  - cbn. split; [exact Hcb' |]. intros _. destruct ar; discriminate.
  - replace (Nat.eqb (List.length (op :: ops) + 1) 1) with false
        by (symmetry; apply Nat.eqb_neq; cbn [List.length]; lia).
      cbn. split; [exact Hcb' |]. intros _. apply Harmed. discriminate.
Qed.

(** The [putToken] calls of the run all pass a callback. *)
Definition passes_callback (ev : Cbs.Event) : bool :=
  match ev with
  | Cbs.call_putToken _ _ _ None => false
  | _ => true
  end.

Lemma watched_step ev :
  passes_callback ev = true -> preserves cbs_watched (Cbs.step uuid_v4 ev).
Proof.
  intros Hev.
  destruct (is_quiet_event ev) eqn:Hquiet.
  - apply (ops_step_quiet uuid_v4 watched watched_thinned ev Hquiet).
  - destruct ev as [| |now audience token [cb|]| | |k err| |id now];
      try discriminate Hquiet; try discriminate Hev.
    + apply watched_putToken.
    + cbn [Cbs.step]. apply preserves_get_bind. intros s0 _.
      destruct (nth_error (Cbs.sends s0) k); [| apply preserves_ret].
      apply preserves_bind; [| intros ?; apply watched_send_callback].
      apply preserves_modify. intros [] Hq. exact Hq.
    + apply watched_timer_fired.
Qed.

Lemma watched_run es :
  forall s,
    forallb passes_callback es = true ->
    cbs_watched s -> cbs_watched (Cbs.run uuid_v4 es s).
Proof.
  induction es as [|ev es IH]; intros s Hes Hs; [exact Hs |].
  cbn [forallb] in Hes. apply andb_prop in Hes. destruct Hes as [Hev Hes].
  change (Cbs.run uuid_v4 (ev :: es) s)
    with (Cbs.run uuid_v4 es (exec (Cbs.step uuid_v4 ev) s)).
  apply IH; [exact Hes |]. apply watched_step; assumption.
Qed.

End CbsTimers.

(** X21.  In an agent whose [putToken] calls all pass a callback, a timer
    is pending whenever an operation is outstanding, whatever happened
    before: every operation that gets no answer is looked at again by
    [_removeExpiredPutTokens]. *)
Theorem cbs_outstanding_operations_have_a_timer
        (uuid_v4 : nat -> string) (es : list Cbs.Event) :
  forallb passes_callback es = true ->
  Cbs.outstandingPutTokens (Cbs.run uuid_v4 es Cbs.init) <> [] ->
  Cbs.armed (Cbs.run uuid_v4 es Cbs.init) <> [].
Proof.
  intros Hes.
  apply (watched_run uuid_v4 es Cbs.init Hes).
  split; [constructor | intros Hne; contradiction].
Qed.

Lemma cbs_outstanding_operations_have_a_timer_witness :
  Cbs.armed
    (Cbs.run test_uuid
             [Cbs.call_attach 0 (Some 1); Cbs.sender_attached 0 None;
              Cbs.receiver_attached 0 None;
              Cbs.call_putToken 1000 "hub/devices/d1" "sas1" (Some 5);
              Cbs.call_putToken 1001 "hub/devices/d2" "sas2" (Some 6);
              Cbs.timer_fired 0 1121]
             Cbs.init) <> [].
Proof.
  apply (cbs_outstanding_operations_have_a_timer test_uuid).
  - reflexivity.
  - vm_compute. discriminate.
Defined.

(** ** A send on an attached link, and the ways out of ['attached'] *)

Lemma remove_nth_last {A} (l : list A) (x : A) :
  remove_nth (List.length l) (l ++ [x]) = l.
Proof. induction l as [|y l IH]; cbn; [reflexivity | rewrite IH; reflexivity]. Qed.

Lemma nth_error_last {A} (l : list A) (x : A) :
  nth_error (l ++ [x]) (List.length l) = Some x.
Proof. induction l as [|y l IH]; cbn; [reflexivity | exact IH]. Qed.

(** How the send of a message ends on the link object. *)
Inductive SendOutcome :=
  | fulfilled (d : Disposition)
  | rejected (err : JsError).

Definition outcome_event (k : nat) (o : SendOutcome) : SenderLink.Event :=
  match o with
  | fulfilled d => SenderLink.send_fulfilled k d
  | rejected err => SenderLink.send_rejected k err
  end.

Definition outcome_call (cb : Callback) (o : SendOutcome) : SenderLink.Effect :=
  match o with
  | fulfilled d => SenderLink.SendCallback cb None (Some d)
  | rejected err => SenderLink.SendCallback cb (Some err) None
  end.

(** X22.  A [send] on an attached link hands the message to the link
    object at once and calls nothing back; the callback is not called when
    the send settles either, but on the next tick after that, once, with
    the error of a rejected send or the result of a fulfilled one.  After
    it the link is as it was before the [send]. *)
Theorem sender_send_when_attached
        (s : SenderLink.t) (l : LinkObject) (m : Message) (cb : Callback)
        (o : SendOutcome) :
  SenderLink.state s = attached ->
  SenderLink.linkObject s = Some l ->
  SenderLink.nextTick s = [] ->
  let k := List.length (SenderLink.inflight s) in
  let sent := SenderLink.run [SenderLink.call_send m (Some cb)] s in
  let settled := SenderLink.run [outcome_event k o] sent in
  sent = SenderLink.set_inflight (SenderLink.inflight s ++ [Some cb])
           (SenderLink.set_trace (SenderLink.trace s ++ [SenderLink.LinkSend l m]) s)
  /\ SenderLink.trace settled = SenderLink.trace sent
  /\ SenderLink.run [SenderLink.tick] settled
     = SenderLink.set_trace
         (SenderLink.trace s ++ [SenderLink.LinkSend l m; outcome_call cb o]) s.
Proof.
  intros Hst Hl Hnt k sent settled.
  destruct s as [st iq lo mq ae ac dl el pc inf nt tr]. cbn in Hst, Hl, Hnt. subst.
  assert (Hsent : sent
                  = SenderLink.mk attached iq (Some l) mq ae ac dl el pc (inf ++ [Some cb])
                                  [] (tr ++ [SenderLink.LinkSend l m]))
    by reflexivity.
  assert (Hk : k = List.length inf) by reflexivity.
  clearbody sent k. subst sent k.
  assert (Hsettled : settled
                     = SenderLink.mk attached iq (Some l) mq ae ac dl el pc inf
                                     [(cb, match o with fulfilled _ => None
                                                   | rejected err => Some err end,
                                           match o with fulfilled d => Some d
                                                   | rejected _ => None end)]
                                     (tr ++ [SenderLink.LinkSend l m])).
  { subst settled. unfold SenderLink.run, fold_left, exec.
    destruct o as [d|err]; cbn [outcome_event SenderLink.step];
      (erewrite bind_run by reflexivity);
      cbn [SenderLink.inflight]; rewrite nth_error_last, remove_nth_last; reflexivity. }
  clearbody settled. subst settled.
  split; [reflexivity |]. split; [reflexivity |].
  destruct o; cbn; rewrite <- app_assoc; reflexivity.
Qed.

Lemma sender_send_when_attached_witness :
  let s := attached_sender in
  let k := List.length (SenderLink.inflight s) in
  let sent := SenderLink.run [SenderLink.call_send 9 (Some 70)] s in
  let settled := SenderLink.run [outcome_event k (fulfilled 3)] sent in
  sent = SenderLink.set_inflight (SenderLink.inflight s ++ [Some 70])
           (SenderLink.set_trace (SenderLink.trace s ++ [SenderLink.LinkSend 7 9]) s)
  /\ SenderLink.trace settled = SenderLink.trace sent
  /\ SenderLink.run [SenderLink.tick] settled
     = SenderLink.set_trace
         (SenderLink.trace s ++ [SenderLink.LinkSend 7 9; outcome_call 70 (fulfilled 3)]) s.
Proof.
  apply (sender_send_when_attached attached_sender 7 9 70 (fulfilled 3)); reflexivity.
Defined.

(** X23.  The two ways out of ['attached'], for a sender link with its link
    object and nothing deferred or queued: [detach()] takes the detach
    handler off the link object and then force-detaches it; a detach by
    the peer only takes the handler off.  Both forget the link object and
    end in ['detached'], and neither calls anything back. *)
Theorem sender_leaves_attached (s : SenderLink.t) (l : LinkObject) :
  SenderLink.state s = attached ->
  SenderLink.linkObject s = Some l ->
  SenderLink.inputQueue s = [] ->
  SenderLink.messageQueue s = [] ->
  count_occ Nat.eq_dec (SenderLink.detachedListeners s) l = 1 ->
  let left := SenderLink.set_state detached
                (SenderLink.set_linkObject None
                   (SenderLink.set_detachedListeners
                      (remove_listener l (SenderLink.detachedListeners s)) s)) in
  SenderLink.step SenderLink.call_detach s
  = (Normal tt,
     SenderLink.set_trace (SenderLink.trace s ++ [SenderLink.ForceDetach l]) left)
  /\ SenderLink.step (SenderLink.link_detached l) s = (Normal tt, left).
Proof.
  intros Hst Hl Hiq Hmq Hcount left. subst left.
  destruct s as [st iq lo mq ae ac dl el pc inf nt tr].
  cbn in Hst, Hl, Hiq, Hmq, Hcount. subst. split.
  - reflexivity.
  - cbn [SenderLink.step]. erewrite bind_run by reflexivity.
    cbn [SenderLink.detachedListeners]. rewrite Hcount. reflexivity.
Qed.

Lemma sender_leaves_attached_witness :
  let s := attached_sender in
  let left := SenderLink.set_state detached
                (SenderLink.set_linkObject None
                   (SenderLink.set_detachedListeners
                      (remove_listener 7 (SenderLink.detachedListeners s)) s)) in
  SenderLink.step SenderLink.call_detach s
  = (Normal tt,
     SenderLink.set_trace (SenderLink.trace s ++ [SenderLink.ForceDetach 7]) left)
  /\ SenderLink.step (SenderLink.link_detached 7) s = (Normal tt, left).
Proof.
  apply (sender_leaves_attached attached_sender 7); reflexivity.
Defined.

(** ** Subscriptions of the twin client *)

(** X24.  The first ['response'] listener on a twin client that is
    ['disconnected'] (nothing deferred, no attach under way) makes it
    connect: the receiver link is asked for first, the sender link only
    once the receiver link is attached, both under the same channel
    correlation id ["twin:" ++ uuid]; ['subscribed'] is emitted, with the
    sender link, only when the client is ['connected'], and the message
    handler is then on the receiver link. *)
Theorem twin_first_listener_connects
        (uuid_v4 : nat -> string) (twinEndpoint : string) (s : Twin.t)
        (receiver sender : LinkObject) :
  Twin.state s = Twin.disconnected ->
  Twin.inputQueue s = [] ->
  Twin.receiverAttachPending s = 0 ->
  Twin.senderAttachPending s = 0 ->
  let channel := ("twin:" ++ uuid_v4 (Twin.uuidSeq s))%string in
  let s1 := Twin.run uuid_v4 twinEndpoint [Twin.add_listener Twin.response] s in
  let s2 := Twin.run uuid_v4 twinEndpoint [Twin.receiver_attach_result (inr receiver)] s1 in
  let s3 := Twin.run uuid_v4 twinEndpoint [Twin.sender_attach_result (inr sender)] s2 in
  (Twin.state s1 = Twin.connecting
   /\ Twin.trace s1
      = Twin.trace s ++ [Twin.Transition Twin.connecting;
                         Twin.AttachReceiverLink twinEndpoint channel])
  /\ (Twin.state s2 = Twin.connecting
      /\ Twin.trace s2 = Twin.trace s1 ++ [Twin.AttachSenderLink twinEndpoint channel])
  /\ Twin.state s3 = Twin.connected
  /\ Twin.trace s3
     = Twin.trace s2 ++ [Twin.Transition Twin.connected;
                         Twin.EmitSubscribed Twin.response (Some sender)]
  /\ Twin.inputQueue s3 = []
  /\ Twin.downstreamAmqpLink s3 = Some receiver
  /\ Twin.upstreamAmqpLink s3 = Some sender
  /\ Twin.messageHooks s3 = Twin.messageHooks s ++ [receiver]
  /\ Twin.responseListeners s3 = S (Twin.responseListeners s).
Proof.
  intros Hst Hiq Hr Hs channel s1 s2 s3.
  destruct s as [st iq rl pl io up down cc dh mh us rap sap sdp rdp inf nt ru su tr].
  cbn in Hst, Hiq, Hr, Hs, channel. subst.
  subst s3 s2 s1 channel. cbn.
  rewrite <- !app_assoc. cbn. repeat split.
Qed.

Lemma twin_first_listener_connects_witness :
  let s := Twin.init in
  let channel := ("twin:" ++ test_uuid (Twin.uuidSeq s))%string in
  let s1 := Twin.run test_uuid twin_endpoint [Twin.add_listener Twin.response] s in
  let s2 := Twin.run test_uuid twin_endpoint [Twin.receiver_attach_result (inr 5)] s1 in
  let s3 := Twin.run test_uuid twin_endpoint [Twin.sender_attach_result (inr 6)] s2 in
  (Twin.state s1 = Twin.connecting
   /\ Twin.trace s1
      = Twin.trace s ++ [Twin.Transition Twin.connecting;
                         Twin.AttachReceiverLink twin_endpoint channel])
  /\ (Twin.state s2 = Twin.connecting
      /\ Twin.trace s2 = Twin.trace s1 ++ [Twin.AttachSenderLink twin_endpoint channel])
  /\ Twin.state s3 = Twin.connected
  /\ Twin.trace s3
     = Twin.trace s2 ++ [Twin.Transition Twin.connected;
                         Twin.EmitSubscribed Twin.response (Some 6)]
  /\ Twin.inputQueue s3 = []
  /\ Twin.downstreamAmqpLink s3 = Some 5
  /\ Twin.upstreamAmqpLink s3 = Some 6
  /\ Twin.messageHooks s3 = Twin.messageHooks s ++ [5]
  /\ Twin.responseListeners s3 = S (Twin.responseListeners s).
Proof.
  apply (twin_first_listener_connects test_uuid twin_endpoint Twin.init 5 6); reflexivity.
Defined.

Lemma turned_off_response s cid data :
  cid <> ""%string ->
  Twin.ops_get cid (Twin.internalOperations s) = Some Twin.turned_off_notification ->
  Twin.onAmqpMessage (Twin.mkInbound (Some cid) data) s
  = (Normal tt,
     Twin.set_internalOperations (Twin.ops_delete cid (Twin.internalOperations s)) s).
Proof.
  intros Hne Hget. unfold Twin.onAmqpMessage.
  cbn [Twin.in_correlationId Twin.in_data].
  destruct (String.eqb_spec cid "") as [E|_]; [contradiction |].
  unfold Twin.onResponseMessage, bind at 1, get. rewrite Hget.
  destruct s; reflexivity.
Qed.

(** X25.  When the last ['post'] listener is removed from a connected twin
    client, the client sends a DELETE on the notification resource under a
    fresh correlation id (not empty, not in use), with body [" "]; the
    message that comes back under that id is taken as the answer to it:
    nothing is emitted, and the table of internal operations is as before.
    While other ['post'] listeners remain, a removal sends nothing. *)
Theorem twin_post_unsubscription
        (uuid_v4 : nat -> string) (twinEndpoint : string) (s : Twin.t) (l : LinkObject)
        (data : option JsValue) :
  Twin.state s = Twin.connected ->
  Twin.upstreamAmqpLink s = Some l ->
  uuid_v4 (Twin.uuidSeq s) <> ""%string ->
  Twin.ops_get (uuid_v4 (Twin.uuidSeq s)) (Twin.internalOperations s) = None ->
  let id := uuid_v4 (Twin.uuidSeq s) in
  let removal := Twin.step uuid_v4 twinEndpoint (Twin.remove_listener_of Twin.post) in
  let s1 := exec removal s in
  let s2 := exec (Twin.onAmqpMessage (Twin.mkInbound (Some id) data)) s1 in
  completes removal s = true
  /\ (Twin.postListeners s = 1 ->
      Twin.trace s1 = Twin.trace s ++ [Twin.UpstreamSend l (notification_request "DELETE" id)]
      /\ Twin.postListeners s1 = 0
      /\ Twin.trace s2 = Twin.trace s1
      /\ Twin.internalOperations s2 = Twin.internalOperations s)
  /\ (1 < Twin.postListeners s ->
      s1 = Twin.set_postListeners (pred (Twin.postListeners s)) s).
Proof.
  intros Hst Hup Hne Hfresh id removal s1 s2.
  destruct s as [st iq rl pl io up down cc dh mh us rap sap sdp rdp inf nt ru su tr].
  cbn in Hst, Hup, Hne, Hfresh, id. subst st up.
  assert (E1 : Twin.postListeners
                 (Twin.mk Twin.connected iq rl pl io (Some l) down cc dh mh us
                          rap sap sdp rdp inf nt ru su tr) = 1 ->
               s1 = Twin.set_inflight (inf ++ [None])
                      (Twin.set_trace
                         (tr ++ [Twin.UpstreamSend l (notification_request "DELETE" id)])
                         (Twin.set_internalOperations
                            (Twin.ops_set id Twin.turned_off_notification io)
                            (Twin.set_uuidSeq (S us)
                               (Twin.mk Twin.connected iq rl 0 io (Some l) down cc dh mh us
                                        rap sap sdp rdp inf nt ru su tr))))).
  { cbn. intros Hpl. subst pl. reflexivity. }
  split; [destruct pl as [|[|pl]]; reflexivity |].
  split.
  - intros Hpl. specialize (E1 Hpl).
    split; [rewrite E1; reflexivity |].
    split; [rewrite E1; reflexivity |].
    subst s2. rewrite E1. unfold exec.
    rewrite (turned_off_response _ id data Hne)
      by (cbn [Twin.internalOperations Twin.set_inflight Twin.set_trace
               Twin.set_internalOperations]; apply ops_get_set_same).
    cbn. rewrite (ops_delete_set_fresh id _ io Hfresh). split; reflexivity.
  - cbn. intros Hpl. destruct pl as [|[|pl]]; [lia | lia | reflexivity].
Qed.

Lemma twin_post_unsubscription_witness :
  let s := Twin.set_postListeners 1 connected_twin in
  let id := test_uuid (Twin.uuidSeq s) in
  let removal := Twin.step test_uuid twin_endpoint (Twin.remove_listener_of Twin.post) in
  let s1 := exec removal s in
  let s2 := exec (Twin.onAmqpMessage (Twin.mkInbound (Some id) None)) s1 in
  completes removal s = true
  /\ (Twin.postListeners s = 1 ->
      Twin.trace s1 = Twin.trace s ++ [Twin.UpstreamSend 6 (notification_request "DELETE" id)]
      /\ Twin.postListeners s1 = 0
      /\ Twin.trace s2 = Twin.trace s1
      /\ Twin.internalOperations s2 = Twin.internalOperations s)
  /\ (1 < Twin.postListeners s ->
      s1 = Twin.set_postListeners (pred (Twin.postListeners s)) s).
Proof.
  apply (twin_post_unsubscription test_uuid twin_endpoint
                                  (Twin.set_postListeners 1 connected_twin) 6 None).
  - reflexivity.
  - reflexivity.
  - vm_compute. discriminate.
  - reflexivity.
Defined.

(** ** The sender link state machine AmqpSenderLinkFsm *)

Definition is_legacy_call (ev : SenderLinkFsm.Event) : bool :=
  match ev with
  | SenderLinkFsm.call_attach _ | SenderLinkFsm.call_detach
  | SenderLinkFsm.call_send _ _ => true
  | _ => false
  end.

(** In ['detaching'] every call is deferred (or ignored), and nothing else
    happens. *)
Lemma legacy_calls_in_detaching es :
  forall s,
    SenderLinkFsm.state s = detaching ->
    forallb is_legacy_call es = true ->
    SenderLinkFsm.state (SenderLinkFsm.run es s) = detaching
    /\ SenderLinkFsm.trace (SenderLinkFsm.run es s) = SenderLinkFsm.trace s
    /\ SenderLinkFsm.messageQueue (SenderLinkFsm.run es s) = SenderLinkFsm.messageQueue s
    /\ SenderLinkFsm.pendingCreate (SenderLinkFsm.run es s) = SenderLinkFsm.pendingCreate s.
Proof.
  induction es as [|ev es IH]; intros s Hst Hes; [auto |].
  cbn [forallb] in Hes. apply andb_prop in Hes. destruct Hes as [Hev Hes].
  change (SenderLinkFsm.run (ev :: es) s)
    with (SenderLinkFsm.run es (exec (SenderLinkFsm.step ev) s)).
  assert (Hstep : SenderLinkFsm.state (exec (SenderLinkFsm.step ev) s) = detaching
                  /\ SenderLinkFsm.trace (exec (SenderLinkFsm.step ev) s)
                     = SenderLinkFsm.trace s
                  /\ SenderLinkFsm.messageQueue (exec (SenderLinkFsm.step ev) s)
                     = SenderLinkFsm.messageQueue s
                  /\ SenderLinkFsm.pendingCreate (exec (SenderLinkFsm.step ev) s)
                     = SenderLinkFsm.pendingCreate s).
  { destruct s as [st iq lo mq ac dl pc inf nt tr flag]. cbn in Hst. subst st.
    destruct ev; try discriminate Hev; destruct flag; cbn; auto. }
  destruct Hstep as (H1 & H2 & H3 & H4).
  destruct (IH _ H1 Hes) as (I1 & I2 & I3 & I4).
  rewrite I1, I2, I3, I4. auto.
Qed.

(** X26.  On an AmqpSenderLinkFsm that is ['detached'] with nothing queued
    or deferred, [attach(cb)] followed by the creation of the sender calls
    [cb] twice with no error: [attached._onEnter] calls the stored
    [_attachCallback], and the continuation of [_attachLink] then calls the
    same function again.  The stored callback is not cleared. *)
Theorem legacy_attach_callback_called_twice
        (s : SenderLinkFsm.t) (cb : Callback) (l : LinkObject) :
  SenderLinkFsm.state s = detached ->
  SenderLinkFsm.inExitHandler s = false ->
  SenderLinkFsm.inputQueue s = [] ->
  SenderLinkFsm.messageQueue s = [] ->
  let k := List.length (SenderLinkFsm.pendingCreate s) in
  let s' := SenderLinkFsm.run [SenderLinkFsm.call_attach (Some cb);
                               SenderLinkFsm.createSender_resolved k l] s in
  SenderLinkFsm.state s' = attached
  /\ SenderLinkFsm.linkObject s' = Some l
  /\ SenderLinkFsm.trace s'
     = SenderLinkFsm.trace s
       ++ [SenderLinkFsm.CreateSender;
           SenderLinkFsm.AttachCallback cb None;
           SenderLinkFsm.AttachCallback cb None]
  /\ SenderLinkFsm.attachCallback s' = Some (SenderLinkFsm.user_callback cb)
  /\ SenderLinkFsm.pendingCreate s' = SenderLinkFsm.pendingCreate s.
Proof.
  intros Hst Hflag Hiq Hmq k s'.
  destruct s as [st iq lo mq ac dl pc inf nt tr flag]. cbn in Hst, Hflag, Hiq, Hmq, k.
  subst st flag iq mq.
  assert (Hs' : s' = SenderLinkFsm.mk attached [] (Some l) []
                       (Some (SenderLinkFsm.user_callback cb)) ((dl ++ [l]) ++ [l])
                       pc inf nt
                       (((tr ++ [SenderLinkFsm.CreateSender])
                           ++ [SenderLinkFsm.AttachCallback cb None])
                          ++ [SenderLinkFsm.AttachCallback cb None]) false).
  { subst s' k. unfold SenderLinkFsm.run, fold_left.
    change (exec (SenderLinkFsm.step (SenderLinkFsm.call_attach (Some cb))) _)
      with (SenderLinkFsm.mk attaching [] lo [] (Some (SenderLinkFsm.user_callback cb)) dl
              (pc ++ [(None, Some (SenderLinkFsm.user_callback cb))]) inf nt
              (tr ++ [SenderLinkFsm.CreateSender]) false).
    unfold exec. cbn [SenderLinkFsm.step]. erewrite bind_run by reflexivity.
    cbn [SenderLinkFsm.pendingCreate]. rewrite nth_error_last, remove_nth_last.
    reflexivity. }
  rewrite Hs'. cbn. rewrite <- !app_assoc. repeat split.
Qed.

Lemma legacy_attach_callback_called_twice_witness :
  let s := SenderLinkFsm.init in
  let k := List.length (SenderLinkFsm.pendingCreate s) in
  let s' := SenderLinkFsm.run [SenderLinkFsm.call_attach (Some 1);
                               SenderLinkFsm.createSender_resolved k 7] s in
  SenderLinkFsm.state s' = attached
  /\ SenderLinkFsm.linkObject s' = Some 7
  /\ SenderLinkFsm.trace s'
     = SenderLinkFsm.trace s
       ++ [SenderLinkFsm.CreateSender;
           SenderLinkFsm.AttachCallback 1 None;
           SenderLinkFsm.AttachCallback 1 None]
  /\ SenderLinkFsm.attachCallback s' = Some (SenderLinkFsm.user_callback 1)
  /\ SenderLinkFsm.pendingCreate s' = SenderLinkFsm.pendingCreate s.
Proof.
  apply (legacy_attach_callback_called_twice SenderLinkFsm.init 1 7); reflexivity.
Defined.

Lemma legacy_sends_while_attaching (others : list (Message * option Callback)) :
  forall s,
    SenderLinkFsm.state s = attaching ->
    SenderLinkFsm.run
      (map (fun p => SenderLinkFsm.call_send (fst p) (snd p)) others) s = s.
Proof.
  induction others as [|p others IH]; intros s Hst; [reflexivity |].
  cbn [map].
  change (SenderLinkFsm.run (?e :: ?es) s)
    with (SenderLinkFsm.run es (exec (SenderLinkFsm.step e) s)).
  assert (E : exec (SenderLinkFsm.step (SenderLinkFsm.call_send (fst p) (snd p))) s = s).
  { destruct s as [st iq lo mq ac dl pc inf nt tr flag]. cbn in Hst. subst st.
    destruct flag; reflexivity. }
  rewrite E. apply IH. exact Hst.
Qed.

Lemma legacy_run_app es1 es2 s :
  SenderLinkFsm.run (es1 ++ es2) s = SenderLinkFsm.run es2 (SenderLinkFsm.run es1 s).
Proof. unfold SenderLinkFsm.run. apply fold_left_app. Qed.

(** X27.  A [send] on an AmqpSenderLinkFsm that is ['detached'] (nothing
    queued or deferred) starts the attach; when the sender is created the
    message is handed to it, and its callback is called on the tick after
    the send is fulfilled, with the result.  But the sends made while the
    link is ['attaching'] are lost: that state has no [send] handler, so
    they are neither queued nor sent and their callbacks are never
    called. *)
Theorem legacy_send_attaches_and_later_sends_are_lost
        (s : SenderLinkFsm.t) (m : Message) (cb : Callback) (l : LinkObject)
        (d : Disposition) (others : list (Message * option Callback)) :
  SenderLinkFsm.state s = detached ->
  SenderLinkFsm.inExitHandler s = false ->
  SenderLinkFsm.inputQueue s = [] ->
  SenderLinkFsm.messageQueue s = [] ->
  SenderLinkFsm.nextTick s = [] ->
  let k := List.length (SenderLinkFsm.pendingCreate s) in
  let j := List.length (SenderLinkFsm.inflight s) in
  let s' := SenderLinkFsm.run
              (SenderLinkFsm.call_send m (Some cb)
               :: map (fun p => SenderLinkFsm.call_send (fst p) (snd p)) others
               ++ [SenderLinkFsm.createSender_resolved k l;
                   SenderLinkFsm.send_fulfilled j d;
                   SenderLinkFsm.tick]) s in
  SenderLinkFsm.state s' = attached
  /\ SenderLinkFsm.trace s'
     = SenderLinkFsm.trace s
       ++ [SenderLinkFsm.CreateSender;
           SenderLinkFsm.LinkSend l m;
           SenderLinkFsm.SendCallback cb None (Some d)]
  /\ SenderLinkFsm.messageQueue s' = []
  /\ SenderLinkFsm.inflight s' = SenderLinkFsm.inflight s
  /\ SenderLinkFsm.nextTick s' = [].
Proof.
  intros Hst Hflag Hiq Hmq Hnt k j s'.
  destruct s as [st iq lo mq ac dl pc inf nt tr flag].
  cbn in Hst, Hflag, Hiq, Hmq, Hnt, k, j. subst st flag iq mq nt.
  set (s1 := SenderLinkFsm.mk attaching [] lo [SenderLinkFsm.mkItem m (Some cb) None]
               (Some SenderLinkFsm.fail_queue_if_err) dl
               (pc ++ [(None, Some SenderLinkFsm.fail_queue_if_err)]) inf []
               (tr ++ [SenderLinkFsm.CreateSender]) false).
  assert (Hs' : s' = SenderLinkFsm.mk attached [] (Some l) []
                       (Some SenderLinkFsm.fail_queue_if_err) ((dl ++ [l]) ++ [l])
                       pc inf []
                       (((tr ++ [SenderLinkFsm.CreateSender])
                           ++ [SenderLinkFsm.LinkSend l m])
                          ++ [SenderLinkFsm.SendCallback cb None (Some d)]) false).
  { subst s' k j.
    change (SenderLinkFsm.run (?e :: ?es) ?s0)
      with (SenderLinkFsm.run es (exec (SenderLinkFsm.step e) s0)).
    change (exec (SenderLinkFsm.step (SenderLinkFsm.call_send m (Some cb))) _) with s1.
    rewrite legacy_run_app, legacy_sends_while_attaching by reflexivity.
    unfold SenderLinkFsm.run, fold_left.
    assert (E2 : exec (SenderLinkFsm.step
                         (SenderLinkFsm.createSender_resolved (List.length pc) l)) s1
                 = SenderLinkFsm.mk attached [] (Some l) []
                     (Some SenderLinkFsm.fail_queue_if_err) ((dl ++ [l]) ++ [l])
                     pc (inf ++ [Some cb]) []
                     ((tr ++ [SenderLinkFsm.CreateSender])
                        ++ [SenderLinkFsm.LinkSend l m]) false).
    { unfold exec. cbn [SenderLinkFsm.step]. erewrite bind_run by reflexivity.
      subst s1. cbn [SenderLinkFsm.pendingCreate].
      rewrite nth_error_last, remove_nth_last. reflexivity. }
    rewrite E2.
    assert (E3 : exec (SenderLinkFsm.step (SenderLinkFsm.send_fulfilled (List.length inf) d))
                      (SenderLinkFsm.mk attached [] (Some l) []
                         (Some SenderLinkFsm.fail_queue_if_err) ((dl ++ [l]) ++ [l])
                         pc (inf ++ [Some cb]) []
                         ((tr ++ [SenderLinkFsm.CreateSender])
                            ++ [SenderLinkFsm.LinkSend l m]) false)
                 = SenderLinkFsm.mk attached [] (Some l) []
                     (Some SenderLinkFsm.fail_queue_if_err) ((dl ++ [l]) ++ [l])
                     pc inf [(cb, None, Some d)]
                     ((tr ++ [SenderLinkFsm.CreateSender])
                        ++ [SenderLinkFsm.LinkSend l m]) false).
    { unfold exec. cbn [SenderLinkFsm.step]. erewrite bind_run by reflexivity.
      cbn [SenderLinkFsm.inflight]. rewrite nth_error_last, remove_nth_last.
      reflexivity. }
    rewrite E3. reflexivity. }
  rewrite Hs'. cbn. rewrite <- !app_assoc. repeat split.
Qed.

Lemma legacy_send_attaches_and_later_sends_are_lost_witness :
  let s := SenderLinkFsm.init in
  let k := List.length (SenderLinkFsm.pendingCreate s) in
  let j := List.length (SenderLinkFsm.inflight s) in
  let s' := SenderLinkFsm.run
              (SenderLinkFsm.call_send 1 (Some 101)
               :: map (fun p => SenderLinkFsm.call_send (fst p) (snd p)) [(2, Some 102)]
               ++ [SenderLinkFsm.createSender_resolved k 7;
                   SenderLinkFsm.send_fulfilled j 3;
                   SenderLinkFsm.tick]) s in
  SenderLinkFsm.state s' = attached
  /\ SenderLinkFsm.trace s'
     = SenderLinkFsm.trace s
       ++ [SenderLinkFsm.CreateSender;
           SenderLinkFsm.LinkSend 7 1;
           SenderLinkFsm.SendCallback 101 None (Some 3)]
  /\ SenderLinkFsm.messageQueue s' = []
  /\ SenderLinkFsm.inflight s' = SenderLinkFsm.inflight s
  /\ SenderLinkFsm.nextTick s' = [].
Proof.
  apply (legacy_send_attaches_and_later_sends_are_lost
           SenderLinkFsm.init 1 101 7 3 [(2, Some 102)]); reflexivity.
Defined.

(** X28.  A [send] on an AmqpSenderLinkFsm that is ['detached'] (nothing
    queued, deferred or pending) whose attach then fails: the callback of
    the send is never called.  [detached.send] takes the callback for its
    [to] parameter, so the queued request has no [callback], and
    [detaching._onEnter] throws a [TypeError] when it calls it.  The
    request is gone from the queue, the link is left in ['detaching'], and
    no later [attach], [detach] or [send] has any effect. *)
Theorem legacy_failed_attach_loses_send
        (s : SenderLinkFsm.t) (m : Message) (cb : Callback) (err : JsError)
        (later : list SenderLinkFsm.Event) :
  SenderLinkFsm.state s = detached ->
  SenderLinkFsm.inExitHandler s = false ->
  SenderLinkFsm.inputQueue s = [] ->
  SenderLinkFsm.messageQueue s = [] ->
  SenderLinkFsm.pendingCreate s = [] ->
  forallb is_legacy_call later = true ->
  let s1 := SenderLinkFsm.run [SenderLinkFsm.call_send m (Some cb)] s in
  let failure := SenderLinkFsm.step (SenderLinkFsm.createSender_rejected 0 err) in
  let s2 := exec failure s1 in
  fst (failure s1) = Thrown (not_a_function "toSend.callback")
  /\ SenderLinkFsm.state s2 = detaching
  /\ SenderLinkFsm.messageQueue s2 = []
  /\ SenderLinkFsm.trace s2 = SenderLinkFsm.trace s ++ [SenderLinkFsm.CreateSender]
  /\ SenderLinkFsm.state (SenderLinkFsm.run later s2) = detaching
  /\ SenderLinkFsm.trace (SenderLinkFsm.run later s2) = SenderLinkFsm.trace s2.
Proof.
  intros Hst Hflag Hiq Hmq Hpc Hlater s1 failure s2.
  destruct s as [st iq lo mq ac dl pc inf nt tr flag].
  cbn in Hst, Hflag, Hiq, Hmq, Hpc. subst st flag iq mq pc.
  assert (Hrun : failure s1
                 = (Thrown (not_a_function "toSend.callback"),
                    SenderLinkFsm.mk detaching [] lo []
                      (Some SenderLinkFsm.fail_queue_if_err) dl [] inf nt
                      (tr ++ [SenderLinkFsm.CreateSender]) false))
    by reflexivity.
  subst s2. unfold exec. rewrite Hrun. cbn [fst snd].
  split; [reflexivity |]. split; [reflexivity |]. split; [reflexivity |].
  split; [reflexivity |].
  match goal with
  | |- context [SenderLinkFsm.run later ?s0] =>
      destruct (legacy_calls_in_detaching later s0 eq_refl Hlater) as (H1 & H2 & _)
  end.
  split; assumption.
Qed.

Lemma legacy_failed_attach_loses_send_witness :
  let s := SenderLinkFsm.init in
  let later := [SenderLinkFsm.call_send 2 (Some 102); SenderLinkFsm.call_attach (Some 9)] in
  let s1 := SenderLinkFsm.run [SenderLinkFsm.call_send 1 (Some 101)] s in
  let failure := SenderLinkFsm.step
                   (SenderLinkFsm.createSender_rejected 0 (mkError Error "refused")) in
  let s2 := exec failure s1 in
  fst (failure s1) = Thrown (not_a_function "toSend.callback")
  /\ SenderLinkFsm.state s2 = detaching
  /\ SenderLinkFsm.messageQueue s2 = []
  /\ SenderLinkFsm.trace s2 = SenderLinkFsm.trace s ++ [SenderLinkFsm.CreateSender]
  /\ SenderLinkFsm.state (SenderLinkFsm.run later s2) = detaching
  /\ SenderLinkFsm.trace (SenderLinkFsm.run later s2) = SenderLinkFsm.trace s2.
Proof.
  apply (legacy_failed_attach_loses_send
           SenderLinkFsm.init 1 101 (mkError Error "refused")
           [SenderLinkFsm.call_send 2 (Some 102); SenderLinkFsm.call_attach (Some 9)]);
    reflexivity.
Defined.

(** X29.  When the attach of an AmqpSenderLinkFsm asked for by [attach(cb)]
    fails because [createSender] is rejected (link ['detached'] before,
    nothing queued, deferred or pending): [cb] is called once, with a
    [NotConnectedError], and the link is left in ['detaching'], a state it
    does not leave: every later [attach], [detach] and [send] is only
    deferred, so the link cannot be attached again and no callback of
    these calls is ever called. *)
Theorem legacy_failed_attach_leaves_link_detaching
        (s : SenderLinkFsm.t) (cb : Callback) (err : JsError)
        (later : list SenderLinkFsm.Event) :
  SenderLinkFsm.state s = detached ->
  SenderLinkFsm.inExitHandler s = false ->
  SenderLinkFsm.inputQueue s = [] ->
  SenderLinkFsm.messageQueue s = [] ->
  SenderLinkFsm.pendingCreate s = [] ->
  forallb is_legacy_call later = true ->
  let s' := SenderLinkFsm.run [SenderLinkFsm.call_attach (Some cb);
                               SenderLinkFsm.createSender_rejected 0 err] s in
  SenderLinkFsm.state s' = detaching
  /\ SenderLinkFsm.trace s'
     = SenderLinkFsm.trace s
       ++ [SenderLinkFsm.CreateSender;
           SenderLinkFsm.AttachCallback cb (Some SenderLinkFsm.could_not_create_sender)]
  /\ SenderLinkFsm.state (SenderLinkFsm.run later s') = detaching
  /\ SenderLinkFsm.trace (SenderLinkFsm.run later s') = SenderLinkFsm.trace s'
  /\ SenderLinkFsm.pendingCreate (SenderLinkFsm.run later s') = [].
Proof.
  intros Hst Hflag Hiq Hmq Hpc Hlater s'.
  destruct s as [st iq lo mq ac dl pc inf nt tr flag].
  cbn in Hst, Hflag, Hiq, Hmq, Hpc. subst st flag iq mq pc.
  assert (Hs' : s' = SenderLinkFsm.mk detaching [] lo []
                       (Some (SenderLinkFsm.user_callback cb)) dl [] inf nt
                       ((tr ++ [SenderLinkFsm.CreateSender])
                          ++ [SenderLinkFsm.AttachCallback cb
                                (Some SenderLinkFsm.could_not_create_sender)]) false)
    by reflexivity.
  rewrite Hs'.
  match goal with
  | |- context [SenderLinkFsm.run later ?s0] =>
      destruct (legacy_calls_in_detaching later s0 eq_refl Hlater) as (H1 & H2 & _ & H4)
  end.
  split; [reflexivity |]. split; [cbn; rewrite <- app_assoc; reflexivity |].
  split; [exact H1 |]. split; [exact H2 | exact H4].
Qed.

Lemma legacy_failed_attach_leaves_link_detaching_witness :
  let s := SenderLinkFsm.init in
  let later := [SenderLinkFsm.call_attach (Some 9); SenderLinkFsm.call_detach] in
  let s' := SenderLinkFsm.run [SenderLinkFsm.call_attach (Some 1);
                               SenderLinkFsm.createSender_rejected
                                 0 (mkError Error "refused")] s in
  SenderLinkFsm.state s' = detaching
  /\ SenderLinkFsm.trace s'
     = SenderLinkFsm.trace s
       ++ [SenderLinkFsm.CreateSender;
           SenderLinkFsm.AttachCallback 1 (Some SenderLinkFsm.could_not_create_sender)]
  /\ SenderLinkFsm.state (SenderLinkFsm.run later s') = detaching
  /\ SenderLinkFsm.trace (SenderLinkFsm.run later s') = SenderLinkFsm.trace s'
  /\ SenderLinkFsm.pendingCreate (SenderLinkFsm.run later s') = [].
Proof.
  apply (legacy_failed_attach_leaves_link_detaching
           SenderLinkFsm.init 1 (mkError Error "refused")
           [SenderLinkFsm.call_attach (Some 9); SenderLinkFsm.call_detach]);
    reflexivity.
Defined.
